(** * A verified model of the [route] package: a dynamic HTTP router

    The development follows the Go source of the package (the version with
    filters, the buffering [responseWrapper], the hijacker field and the
    fallback static file server):

    - [GoStrings]: the functions of Go's [strings] package the router calls;
    - [SplitPath]: the path tokenizer;
    - the routing trie as a heap of [node]s addressed by pointers, the
      router owning the root [map[string]*node];
    - [registerHandler] and [HandleFunc], written in a state-and-panic monad
      because the Go code mutates the trie in place and reports every error
      by panicking;
    - [parseTree] and [findEndpoint], the lookup;
    - [customFileServer], the fallback for the requests no route matches;
    - [ServeHTTP], the dispatch pipeline, run against a response sink that
      records the calls it receives. *)

From Stdlib Require Import ZArith Ascii String.
From stdpp Require Import base option list gmap strings fin_maps.

(** ** Go's [strings] package, as far as the router uses it *)

Module GoStrings.

(** [strip_prefix p s] is [Some t] exactly when [s = p +:+ t]. *)
Fixpoint strip_prefix (p s : string) : option string :=
  match p, s with
  | EmptyString, _ => Some s
  | String a p', String b s' =>
      if Ascii.eqb a b then strip_prefix p' s' else None
  | String _ _, EmptyString => None
  end.

(** [strip_suffix suf s] is [Some t] exactly when [s = t +:+ suf]. *)
Fixpoint strip_suffix (suf s : string) : option string :=
  if String.eqb s suf then Some EmptyString
  else match s with
       | EmptyString => None
       | String c s' => String c <$> strip_suffix suf s'
       end.

(** [strings.HasPrefix(s, prefix)] *)
Definition HasPrefix (s prefix : string) : bool :=
  match strip_prefix prefix s with Some _ => true | None => false end.

(** [strings.HasSuffix(s, suffix)] *)
Definition HasSuffix (s suffix : string) : bool :=
  match strip_suffix suffix s with Some _ => true | None => false end.

(** [strings.TrimPrefix(s, prefix)]: [s] without the leading [prefix];
    [s] itself when it does not start with [prefix]. *)
Definition TrimPrefix (s prefix : string) : string :=
  match strip_prefix prefix s with Some t => t | None => s end.

(** [strings.TrimSuffix(s, suffix)]: [s] without the trailing [suffix];
    [s] itself when it does not end with [suffix]. *)
Definition TrimSuffix (s suffix : string) : string :=
  match strip_suffix suffix s with Some t => t | None => s end.

(** [strings.Split(s, sep)] for a separator of one byte, the only way the
    router calls it: the substrings between the separators, one more than
    there are separators in [s]. *)
Fixpoint Split (s : string) (sep : ascii) : list string :=
  match s with
  | EmptyString => [EmptyString]
  | String c s' =>
      if Ascii.eqb c sep then EmptyString :: Split s' sep
      else match Split s' sep with
           | t :: ts => String c t :: ts
           | [] => [String c EmptyString]
           end
  end.

(** [strings.Join(elems, sep)] for a separator of one byte. *)
Fixpoint Join (elems : list string) (sep : ascii) : string :=
  match elems with
  | [] => EmptyString
  | [t] => t
  | t :: ts => t +:+ String sep (Join ts sep)
  end.

(** [strings.ContainsRune(s, c)] for a rune of one byte. *)
Fixpoint ContainsRune (s : string) (c : ascii) : bool :=
  match s with
  | EmptyString => false
  | String a s' => Ascii.eqb a c || ContainsRune s' c
  end.

(** [strings.Contains(s, substr)] *)
Fixpoint Contains (s substr : string) : bool :=
  HasPrefix s substr ||
  match s with
  | EmptyString => false
  | String _ s' => Contains s' substr
  end.

(** The pieces of [s] between the bytes [f] accepts, empty pieces included. *)
Fixpoint SplitFunc (s : string) (f : ascii → bool) : list string :=
  match s with
  | EmptyString => [EmptyString]
  | String c s' =>
      if f c then EmptyString :: SplitFunc s' f
      else match SplitFunc s' f with
           | t :: ts => String c t :: ts
           | [] => [String c EmptyString]
           end
  end.

(** [strings.FieldsFunc(s, f)] on bytes: the maximal runs of bytes that [f]
    does not accept. *)
Definition FieldsFunc (s : string) (f : ascii → bool) : list string :=
  List.filter (λ t, negb (String.eqb t EmptyString)) (SplitFunc s f).

End GoStrings.
Export GoStrings.

(** ** The path tokenizer *)

Definition slash : ascii := "/"%char.

(** [func SplitPath(path string) []string] *)
Definition SplitPath (path : string) : list string :=
  let p := TrimPrefix path "/" in
  Split (TrimSuffix p "/") slash.


(** ** Panics and the state-and-panic monad

    Every error of the registration code is a [panic]; the dispatch code
    recovers from the panics of application code.  A computation is modelled
    as a function from the state it mutates to the state it leaves behind
    and either a value or the value it panicked with.  The state is returned
    in both cases, since a Go panic does not undo earlier writes. *)

Inductive runtime_error : Type :=
| NilDereference      (* invalid memory address or nil pointer dereference *)
| IndexOutOfRange     (* index out of range *)
| InterfaceConversion (* failed type assertion x.(T) *).

(** The value [recover] returns in a deferred function while the goroutine
    panics: the string or error given to [panic], or the error of the run
    time.  It is never nil, as Go guarantees since version 1.21, where
    [panic(nil)] panics with a [*runtime.PanicNilError]; the test
    [recover() != nil] of the router therefore tells exactly whether there
    was a panic. *)
Inductive panic_value : Type :=
| PanicString (msg : string)
| PanicRuntime (e : runtime_error).

Inductive result (A : Type) : Type :=
| Ok (a : A)
| Panic (v : panic_value).
Arguments Ok {A} a.
Arguments Panic {A} v.

Definition M (S A : Type) : Type := S → S * result A.

Definition ret {S A} (a : A) : M S A := λ s, (s, Ok a).

Definition bind {S A B} (c : M S A) (k : A → M S B) : M S B :=
  λ s, match c s with
       | (s', Ok a) => k a s'
       | (s', Panic v) => (s', Panic v)
       end.

Definition panic {S A} (v : panic_value) : M S A := λ s, (s, Panic v).

Definition get {S} : M S S := λ s, (s, Ok s).

Definition modify {S} (f : S → S) : M S unit := λ s, (f s, Ok tt).

Declare Scope go_scope.
Delimit Scope go_scope with go.
Notation "x <- c ;; k" := (bind c (λ x, k))
  (at level 100, c at next level, right associativity) : go_scope.
Notation "c ;; k" := (bind c (λ _, k))
  (at level 100, right associativity) : go_scope.
Local Open Scope go_scope.

(** [defer func() { if r := recover(); r != nil { on_panic } }()] around
    [body]: a panic of [body] is stopped, [on_panic] runs and the function
    returns normally; a panic of [on_panic] itself is not stopped. *)
Definition defer_recover {S} (body : M S unit) (on_panic : panic_value → M S unit)
  : M S unit :=
  λ s, match body s with
       | (s', Ok a) => (s', Ok a)
       | (s', Panic v) => on_panic v s'
       end.

(** ** Application code

    Handlers and filters are application code: all the router knows of them
    is the calls they make on the [http.ResponseWriter] they are given, the
    value they return and whether they panic.  A [script] is such a piece of
    code, written as the sequence of its calls; the continuation of a call
    receives what the call returned. *)

Inductive script (R : Type) : Type :=
| Return (r : R)
| DoPanic (v : panic_value)                         (* panic(v) *)
| CallWriteHeader (code : Z) (k : script R)         (* w.WriteHeader(code) *)
| CallWrite (body : list Byte.byte)
    (k : Z → option string → script R)              (* n, err := w.Write(body) *)
| CallSetHeader (key value : string) (k : script R) (* w.Header().Set(key, value) *)
| AssertHijacker (k : bool → script R)              (* _, ok := w.(http.Hijacker) *)
| CallHijack (k : script R)                         (* w.(http.Hijacker).Hijack() *)
| Effect (tag : string) (k : script R)              (* a side effect outside the response *).
Arguments Return {R} r.
Arguments DoPanic {R} v.
Arguments CallWriteHeader {R} code k.
Arguments CallWrite {R} body k.
Arguments CallSetHeader {R} key value k.
Arguments AssertHijacker {R} k.
Arguments CallHijack {R} k.
Arguments Effect {R} tag k.

(** [context.Context]: the router stores one and hands it to every handler. *)
Inductive Context : Type :=
| Background
| TODO.

(** [*http.Request], as far as the router reads it. *)
Record Request : Type := mkRequest { URL_Path : string }.

(** [type HttpFilter func(http.ResponseWriter, *http.Request) bool] *)
Definition HttpFilter : Type := Request → script bool.

(** [type Handler func(context.Context, http.ResponseWriter, *http.Request)] *)
Definition Handler : Type := Context → Request → script unit.

(** The status codes of [net/http] the package uses. *)
Definition StatusOK : Z := 200.
Definition StatusBadRequest : Z := 400.
Definition StatusUnauthorized : Z := 401.
Definition StatusNotFound : Z := 404.
Definition StatusInternalServerError : Z := 500.

(** [http.Error(w, msg, code)] *)
Definition http_Error {R} (msg : string) (code : Z) (k : script R) : script R :=
  CallSetHeader "Content-Type" "text/plain; charset=utf-8"
    (CallSetHeader "X-Content-Type-Options" "nosniff"
       (CallWriteHeader code
          (CallWrite (String.list_byte_of_string msg ++ [Byte.x0a]) (λ _ _, k)))).

(** ** The static file server

    The file system is outside the program.  A directory ([http.Dir]) is
    known by its name and by the request paths for which opening the file
    they name in it fails with an error that [os.IsNotExist] accepts; the
    handler [http.FileServer] makes for a directory is application code
    like any other. *)

Record Dir : Type := mkDir {
  dir_name : string;
  dir_notExist : string → bool;
}.

(** [type FileServerMode string] and its two constants. *)
Inductive FileServerMode : Type :=
| Classic
| Spa.

(** The backslash, byte 92. *)
Definition backslash : ascii := Ascii.ascii_of_nat 92.

(** [func isSlashRune(r rune) bool] *)
Definition isSlashRune (r : ascii) : bool :=
  Ascii.eqb r "/" || Ascii.eqb r backslash.

(** [func containsDotDot(v string) bool] *)
Definition containsDotDot (v : string) : bool :=
  if negb (Contains v "..") then false
  else existsb (λ ent, String.eqb ent "..") (FieldsFunc v isSlashRune).

Module customFileServer.

(** [type customFileServer struct] *)
Record t : Type := mk {
  root : Dir;
  handler : Request → script unit;
  mode : FileServerMode;
}.

(** [func (fs *customFileServer) ServeHTTP(w http.ResponseWriter, r *http.Request)];
    the warning it logs is left out. *)
Definition ServeHTTP (fs : t) (r : Request) : script unit :=
  if containsDotDot (URL_Path r)
  then http_Error "URL should not contain '/../' parts" StatusBadRequest
         (Return tt)
  else
    let r :=
      if dir_notExist (root fs) (URL_Path r)
      then match mode fs with
           | Spa => mkRequest "/"          (* r.URL.Path = "/" *)
           | Classic => r
           end
      else r in
    handler fs r.

End customFileServer.

(** ** The routing trie

    A [*node] is an index into the list of the nodes allocated so far; an
    index past its end stands for the nil pointer.  [&node{}] allocates at
    the end of the list. *)

Abbreviation loc := nat (only parsing).

(** [type node struct] *)
Record node : Type := mkNode {
  handler : option Handler;         (* nil when absent *)
  filters : list HttpFilter;
  children : gmap string loc;       (* map[string]*node *)
}.

(** [type DynamicRouter struct], together with the nodes its trie points
    to.  [fileServer] is nil or a file server. *)
Record DynamicRouter : Type := mkRouter {
  root : gmap string loc;
  ctx : Context;
  fileServer : option customFileServer.t;
  nodes : list node;
}.

(** [func NewDynamicRouter() *DynamicRouter] *)
Definition NewDynamicRouter : DynamicRouter :=
  {| root := ∅; ctx := Background; fileServer := None; nodes := [] |}.

(** [func (r *DynamicRouter) ServeStaticAt(root string, mode FileServerMode)];
    [FileServer] is [http.FileServer]. *)
Definition ServeStaticAt (FileServer : Dir → Request → script unit)
    (dir : Dir) (mode : FileServerMode) (r : DynamicRouter) : DynamicRouter :=
  {| root := root r; ctx := ctx r;
     fileServer := Some (customFileServer.mk dir (FileServer dir) mode);
     nodes := nodes r |}.

(** The variable [children] of [registerHandler] holds a map by reference:
    the root map of the router or the [children] map of a node. *)
Inductive mapref : Type :=
| RootMap
| NodeMap (n : loc).

#[global] Instance mapref_eq_dec : EqDecision mapref.
Proof. solve_decision. Defined.

Definition load_map (c : mapref) : M DynamicRouter (gmap string loc) :=
  λ r, match c with
       | RootMap => (r, Ok (root r))
       | NodeMap n =>
           match nodes r !! n with
           | Some nd => (r, Ok (children nd))
           | None => (r, Panic (PanicRuntime NilDereference))
           end
       end.

Definition set_children (m : gmap string loc) (nd : node) : node :=
  {| handler := handler nd; filters := filters nd; children := m |}.

(** [children[path] = n] *)
Definition store_child (c : mapref) (path : string) (n : loc)
  : M DynamicRouter unit :=
  λ r, match c with
       | RootMap =>
           ({| root := <[path := n]> (root r); ctx := ctx r;
               fileServer := fileServer r; nodes := nodes r |}, Ok tt)
       | NodeMap p =>
           match nodes r !! p with
           | Some nd =>
               ({| root := root r; ctx := ctx r; fileServer := fileServer r;
                   nodes := <[p := set_children (<[path := n]> (children nd)) nd]>
                              (nodes r) |}, Ok tt)
           | None => (r, Panic (PanicRuntime NilDereference))
           end
       end.

(** [n = &node{}; n.children = make(map[string]*node)] *)
Definition new_node : M DynamicRouter loc :=
  λ r, ({| root := root r; ctx := ctx r; fileServer := fileServer r;
           nodes := nodes r ++ [mkNode None [] ∅] |},
        Ok (length (nodes r))).

(** [*n], which panics on the nil pointer. *)
Definition deref (n : option loc) : M DynamicRouter node :=
  λ r, match n ≫= (λ l, nodes r !! l) with
       | Some nd => (r, Ok nd)
       | None => (r, Panic (PanicRuntime NilDereference))
       end.

(** [n.handler = handler; n.filters = filters] *)
Definition install (n : loc) (h : option Handler) (fs : list HttpFilter)
  : M DynamicRouter unit :=
  λ r, match nodes r !! n with
       | Some nd =>
           ({| root := root r; ctx := ctx r; fileServer := fileServer r;
               nodes := <[n := mkNode h fs (children nd)]> (nodes r) |}, Ok tt)
       | None => (r, Panic (PanicRuntime NilDereference))
       end.

(** ** Iterating over a map

    Go leaves the order of [for k, v := range m] unspecified and changes it
    from one loop to the next.  The order is a parameter of the model: the
    entries of [m] in some order, which may depend on the loop (the first
    argument tells the loops of one call apart).  [range_ok] says that it
    lists the entries of the map, each once. *)

Definition range_order : Type := nat → gmap string loc → list (string * loc).

Definition range_ok (rng : range_order) : Prop :=
  ∀ i m, rng i m ≡ₚ map_to_list m.

Definition dynamic_marker : string := ":".

(** The messages of the four [panic] calls of [registerHandler]. *)
Definition msg_handler_nil : string := "handler cannot be nil".
Definition msg_path_nil : string := "path cannot be nil".
Definition msg_dynamic_conflict : string :=
  "a dynamic identifier has already been registered at that level".
Definition msg_handler_conflict : string :=
  "a handler is already registered for this path".

(** [for m := range children { if strings.HasPrefix(m, ":") && path != m { panic(...) } }] *)
Fixpoint check_dynamic (path : string) (entries : list (string * loc))
  : M DynamicRouter unit :=
  match entries with
  | [] => ret tt
  | (m, _) :: rest =>
      if HasPrefix m dynamic_marker && negb (String.eqb path m)
      then panic (PanicString msg_dynamic_conflict)
      else check_dynamic path rest
  end.

Section Registration.

Variable rng : range_order.

(** The body of the loop [for _, path := range paths] of [registerHandler]
    for a path that is not empty; [cur] is the variable [children] on
    entry and the result is the variable [n] on exit (on exit [children]
    is [n.children]).  [i] tells this [range] loop from the others. *)
Definition descend (i : nat) (path : string) (cur : mapref)
  : M DynamicRouter loc :=
  m <- load_map cur ;;
  (if HasPrefix path dynamic_marker
   then check_dynamic path (rng i m)
   else ret tt) ;;
  n <- match m !! path with
       | Some n => ret n
       | None =>
           n <- new_node ;;
           store_child cur path n ;;
           ret n
       end ;;
  deref (Some n) ;;                (* children = n.children *)
  ret n.

(** The loop [for _, path := range paths] of [registerHandler], with the
    variables it updates: [children] (here [cur]) and [n]. *)
Fixpoint walk (paths : list string) (cur : mapref) (n : option loc)
  : M DynamicRouter (mapref * option loc) :=
  match paths with
  | [] => ret (cur, n)
  | path :: rest =>
      if String.eqb path "" then walk rest cur n
      else
        n' <- descend (length paths) path cur ;;
        walk rest (NodeMap n') (Some n')
  end.

(** [func (r *DynamicRouter) registerHandler(paths []string, handler Handler, filters ...HttpFilter)] *)
Definition registerHandler (paths : list string) (h : option Handler)
    (fs : list HttpFilter) : M DynamicRouter unit :=
  match h with
  | None => panic (PanicString msg_handler_nil)
  | Some _ =>
      if (length paths <? 1)%nat then panic (PanicString msg_path_nil)
      else
        cn <- walk paths RootMap None ;;
        nd <- deref (snd cn) ;;
        match handler nd with
        | Some _ => panic (PanicString msg_handler_conflict)
        | None =>
            match snd cn with
            | Some n => install n h fs
            | None => panic (PanicRuntime NilDereference)
            end
        end
  end.

(** [func (r *DynamicRouter) HandleFunc(pattern string, handler Handler, filters ...HttpFilter)] *)
Definition HandleFunc (pattern : string) (h : option Handler)
    (fs : list HttpFilter) : M DynamicRouter unit :=
  registerHandler (SplitPath pattern) h fs.

End Registration.

(** ** Lookup *)

(** What [parseTree] returns: [(n, nil)] or [(nil, errors.New("unknown path"))]. *)
Inductive lookup : Type :=
| Found (n : loc)
| NotFound (err : string).

Definition msg_unknown_path : string := "unknown path".

(** [for p, dn := range children { if strings.HasPrefix(p, ":") { n = dn; break } }] *)
Fixpoint first_dynamic (entries : list (string * loc)) : option loc :=
  match entries with
  | [] => None
  | (p, dn) :: rest =>
      if HasPrefix p dynamic_marker then Some dn else first_dynamic rest
  end.

Section Lookup.

Variable rng : range_order.

(** [func parseTree(children map[string]*node, path []string)], which
    returns a node and an error.  [heap] is the list of the allocated nodes
    and [kids] the argument [children]. *)
Fixpoint parseTree (heap : list node) (kids : gmap string loc)
    (path : list string) : result lookup :=
  match path with
  | [] => Panic (PanicRuntime IndexOutOfRange)      (* path[0] *)
  | p :: rest =>
      let n :=
        match kids !! p with
        | Some n => Some n
        | None =>
            (* n stays nil when no dynamic key is found, or when the
               pointer stored under it is nil *)
            match first_dynamic (rng (length path) kids) with
            | Some dn => if heap !! dn is Some _ then Some dn else None
            | None => None
            end
        end in
      match n with
      | None => Ok (NotFound msg_unknown_path)
      | Some n =>
          match rest with
          | [] => Ok (Found n)
          | _ :: _ =>
              match heap !! n with
              | Some nd => parseTree heap (children nd) rest
              | None => Panic (PanicRuntime NilDereference)
              end
          end
      end
  end.

(** [func (r *DynamicRouter) findEndpoint(req *http.Request) (n *node, err error)] *)
Definition findEndpoint (r : DynamicRouter) (req : Request) : result lookup :=
  parseTree (nodes r) (root r) (SplitPath (URL_Path req)).

End Lookup.

(** ** The response sink and the buffering wrapper *)

(** The [http.ResponseWriter] the transport layer passes to [ServeHTTP] is
    known by the calls it receives, in order.  [hijackable] tells whether
    its dynamic type implements [http.Hijacker]. *)
Inductive sink_call : Type :=
| SinkWriteHeader (code : Z)
| SinkWrite (body : list Byte.byte)
| SinkSetHeader (key value : string)
| SinkHijack.

Record sink : Type := mkSink {
  hijackable : bool;
  received : list sink_call;
}.

(** The one value the embedded interfaces of the wrapper can hold: the
    sink [res] of the request. *)
Inductive sink_ref : Type := Res.

(** [type responseWrapper struct].  The embedded [http.ResponseWriter] is
    always [res]; the embedded [http.Hijacker] is [res] or nil. *)
Record responseWrapper : Type := mkWrapper {
  Hijacker : option sink_ref;
  status : Z;
  body : list Byte.byte;
}.

(** What one call of [ServeHTTP] works on: its wrapper [w], the sink [res]
    and the side effects application code has had so far. *)
Record dispatch : Type := mkDispatch {
  w : responseWrapper;
  res : sink;
  effects : list string;
}.

Definition send (c : sink_call) : M dispatch unit :=
  modify (λ d, mkDispatch (w d)
                 (mkSink (hijackable (res d)) (received (res d) ++ [c]))
                 (effects d)).

Definition set_wrapper (f : responseWrapper → responseWrapper) : M dispatch unit :=
  modify (λ d, mkDispatch (f (w d)) (res d) (effects d)).

(** [func (w *responseWrapper) WriteHeader(code int)] *)
Definition WriteHeader (code : Z) : M dispatch unit :=
  set_wrapper (λ w, mkWrapper (Hijacker w) code (body w)).

(** [func (w *responseWrapper) Write(body []byte) (int, error)] *)
Definition Write (b : list Byte.byte) : M dispatch (Z * option string) :=
  set_wrapper (λ w, mkWrapper (Hijacker w) (status w) b) ;;
  ret (Z.of_nat (length b), None).

(** [func (w *responseWrapper) flush()] *)
Definition flush : M dispatch unit :=
  d <- get ;;
  send (SinkWriteHeader (status (w d))) ;;
  send (SinkWrite (body (w d))).

(** [w.Hijack()], the method promoted from the embedded [http.Hijacker]:
    a call through a nil interface panics. *)
Definition Hijack : M dispatch unit :=
  d <- get ;;
  match Hijacker (w d) with
  | Some Res => send SinkHijack
  | None => panic (PanicRuntime NilDereference)
  end.

Definition add_effect (tag : string) : M dispatch unit :=
  modify (λ d, mkDispatch (w d) (res d) (effects d ++ [tag])).

(** Application code run with the wrapper as its [http.ResponseWriter].
    [WriteHeader] and [Write] are the wrapper's own methods; [Header] is
    promoted from the embedded [http.ResponseWriter] and reaches the sink at
    once.  The method set of [*responseWrapper] holds [Hijack], promoted
    from the embedded [http.Hijacker], whatever that field holds: the type
    assertion [w.(http.Hijacker)] succeeds on every wrapper. *)
Fixpoint run_wrapped {R} (s : script R) : M dispatch R :=
  match s with
  | Return r => ret r
  | DoPanic v => panic v
  | CallWriteHeader code k => WriteHeader code ;; run_wrapped k
  | CallWrite b k => r <- Write b ;; run_wrapped (k (fst r) (snd r))
  | CallSetHeader key value k => send (SinkSetHeader key value) ;; run_wrapped k
  | AssertHijacker k => run_wrapped (k true)
  | CallHijack k => Hijack ;; run_wrapped k
  | Effect tag k => add_effect tag ;; run_wrapped k
  end.

(** Application code run with the sink [res] itself as its
    [http.ResponseWriter]: every call reaches the sink. *)
Fixpoint run_direct {R} (s : script R) : M dispatch R :=
  match s with
  | Return r => ret r
  | DoPanic v => panic v
  | CallWriteHeader code k => send (SinkWriteHeader code) ;; run_direct k
  | CallWrite b k =>
      send (SinkWrite b) ;; run_direct (k (Z.of_nat (length b)) None)
  | CallSetHeader key value k => send (SinkSetHeader key value) ;; run_direct k
  | AssertHijacker k => d <- get ;; run_direct (k (hijackable (res d)))
  | CallHijack k =>
      d <- get ;;
      if hijackable (res d) then send SinkHijack ;; run_direct k
      else panic (PanicRuntime InterfaceConversion)
  | Effect tag k => add_effect tag ;; run_direct k
  end.

(** ** Dispatch *)

(** [for _, filter := range n.filters { if !filter(w, req) { w.flush(); return } }]:
    [true] when the loop ran to its end, [false] when it returned. *)
Fixpoint run_filters (fs : list HttpFilter) (req : Request) : M dispatch bool :=
  match fs with
  | [] => ret true
  | filter :: rest =>
      ok <- run_wrapped (filter req) ;;
      if ok then run_filters rest req else (flush ;; ret false)
  end.

Definition lift {S A} (x : result A) : M S A := λ s, (s, x).

(** The first statements of [ServeHTTP]:
    [w := &responseWrapper{ResponseWriter: res, status: 200, body: []byte{}}],
    then [hj, ok := res.(http.Hijacker); if ok { w.Hijacker = hj }]. *)
Definition new_wrapper : M dispatch unit :=
  set_wrapper (λ _, mkWrapper None StatusOK []) ;;
  d <- get ;;
  if hijackable (res d)
  then set_wrapper (λ w, mkWrapper (Some Res) (status w) (body w))
  else ret tt.

Section Dispatch.

Variable rng : range_order.

(** The body of [ServeHTTP] after the [defer] statement. *)
Definition serve (r : DynamicRouter) (req : Request) : M dispatch unit :=
  found <- lift (findEndpoint rng r req) ;;
  match found with
  | NotFound _ =>
      match fileServer r with
      | None => WriteHeader StatusNotFound ;; flush
      | Some fs => run_direct (customFileServer.ServeHTTP fs req)
      end
  | Found n =>
      match nodes r !! n with
      | None => panic (PanicRuntime NilDereference)      (* n.handler *)
      | Some nd =>
          match handler nd with
          | None => ret tt
          | Some h =>
              passed <- run_filters (filters nd) req ;;
              if passed then run_wrapped (h (ctx r) req) ;; flush
              else ret tt
          end
      end
  end.

(** [func (r *DynamicRouter) ServeHTTP(res http.ResponseWriter, req *http.Request)].
    The sink [res] is the one of the state; the wrapper of the state is
    the local variable [w], which [new_wrapper] sets up first. *)
Definition ServeHTTP (r : DynamicRouter) (req : Request) : M dispatch unit :=
  new_wrapper ;;
  defer_recover (serve r req)
    (λ _, WriteHeader StatusInternalServerError ;; flush).

End Dispatch.

(** A request arrives: a sink that has received nothing yet and no effect
    of application code.  The wrapper here is a placeholder, [ServeHTTP]
    makes its own first. *)
Definition fresh (hj : bool) : dispatch :=
  mkDispatch (mkWrapper None 0 []) (mkSink hj []) [].

(** The status the client of the sink observes: the code of the first
    [WriteHeader] the sink received, or 200 when a [Write] came first
    ([net/http] then sends the header itself). *)
Fixpoint observed_status (calls : list sink_call) : option Z :=
  match calls with
  | [] => None
  | SinkWriteHeader code :: _ => Some code
  | SinkWrite _ :: _ => Some StatusOK
  | _ :: rest => observed_status rest
  end.

(** The calls that transmit the response: [WriteHeader] and [Write]. *)
Definition is_response_call (c : sink_call) : bool :=
  match c with
  | SinkWriteHeader _ | SinkWrite _ => true
  | SinkSetHeader _ _ | SinkHijack => false
  end.

Definition response_calls (calls : list sink_call) : list sink_call :=
  List.filter is_response_call calls.

(** ** Sample application code, after the tests of the package *)

Definition response_body : list Byte.byte :=
  String.list_byte_of_string "response".

(** [w.WriteHeader(http.StatusOK); w.Write([]byte("response"))] *)
Definition ok_handler : Handler :=
  λ _ _, Effect "handler called"
           (CallWriteHeader StatusOK (CallWrite response_body (λ _ _, Return tt))).

(** A handler that writes status 200 and a body, then panics. *)
Definition panicking_handler : Handler :=
  λ _ _, CallWriteHeader StatusOK
           (CallWrite response_body
              (λ _ _, DoPanic (PanicString "something really bad"))).

(** A handler that writes its body in two calls. *)
Definition two_writes_handler : Handler :=
  λ _ _, CallWriteHeader StatusOK
           (CallWrite (String.list_byte_of_string "first part, ")
              (λ _ _, CallWrite response_body (λ _ _, Return tt))).

(** [w.WriteHeader(http.StatusUnauthorized); return false] *)
Definition unauthorized_filter : HttpFilter :=
  λ _, CallWriteHeader StatusUnauthorized (Return false).

(** A filter that lets every request through. *)
Definition pass_filter : HttpFilter :=
  λ _, Effect "filter passed" (Return true).

(** The directory of the tests: it has the index page and nothing else. *)
Definition fixtures : Dir :=
  mkDir "fixtures/" (λ path, negb (String.eqb path "/")).

Definition index_html : list Byte.byte :=
  String.list_byte_of_string "<!DOCTYPE html><html></html>".

(** A stand-in for [http.FileServer]: the page when the file is there,
    404 when it is not. *)
Definition sample_FileServer : Dir → Request → script unit :=
  λ dir req,
    if dir_notExist dir (URL_Path req)
    then http_Error "404 page not found" StatusNotFound (Return tt)
    else CallWriteHeader StatusOK (CallWrite index_html (λ _ _, Return tt)).

(** A handler that takes over the connection when the writer it is given
    says it can:
    [hj, ok := w.(http.Hijacker); if !ok { http.Error(...); return }; hj.Hijack()] *)
Definition hijacking_handler : Handler :=
  λ _ _, AssertHijacker (λ ok,
           if ok then CallHijack (Effect "hijacked" (Return tt))
           else http_Error "webserver doesn't support hijacking"
                  StatusInternalServerError (Return tt)).

(** ** Notions the statements are written with *)

(** The map a reference denotes in a router; none for the children of the
    nil pointer. *)
Definition map_at (r : DynamicRouter) (c : mapref) : option (gmap string loc) :=
  match c with
  | RootMap => Some (root r)
  | NodeMap n => children <$> nodes r !! n
  end.

(** The router after [n = &node{}; n.children = make(...); children[path] = n]. *)
Definition add_child (r : DynamicRouter) (cur : mapref) (path : string)
  : DynamicRouter :=
  fst (store_child cur path (length (nodes r)) (fst (new_node r))).

(** The router after [n.handler = handler; n.filters = filters]. *)
Definition installed (r : DynamicRouter) (n : loc) (h : option Handler)
    (fs : list HttpFilter) : DynamicRouter :=
  fst (install n h fs r).

(** A token is dynamic when it starts with the marker. *)
Definition dynamic (path : string) : Prop := HasPrefix path dynamic_marker = true.

(** Every dynamic key of [m] is [path]. *)
Definition dyn_agree (m : gmap string loc) (path : string) : Prop :=
  ∀ k l, m !! k = Some l → dynamic k → k = path.

(** At most one key of [m] is dynamic. *)
Definition one_dynamic (m : gmap string loc) : Prop :=
  ∀ k1 k2 l1 l2,
    m !! k1 = Some l1 → m !! k2 = Some l2 → dynamic k1 → dynamic k2 → k1 = k2.

(** The invariant of the trie: at most one dynamic child at every level. *)
Definition trie_inv (r : DynamicRouter) : Prop :=
  ∀ c m, map_at r c = Some m → one_dynamic m.

(** No map of the trie holds the nil pointer. *)
Definition no_nil (r : DynamicRouter) : Prop :=
  ∀ c m k l, map_at r c = Some m → m !! k = Some l → is_Some (nodes r !! l).

(** [r'] has everything [r] has: every key of every map of [r] is in the
    same map of [r'] with the same node under it, and every node that has a
    handler in [r] has the same handler and filters in [r']. *)
Definition grows (r r' : DynamicRouter) : Prop :=
  root r ⊆ root r' ∧
  ctx r' = ctx r ∧ fileServer r' = fileServer r ∧
  ∀ n nd, nodes r !! n = Some nd →
    ∃ nd', nodes r' !! n = Some nd' ∧
           children nd ⊆ children nd' ∧
           (is_Some (handler nd) →
            handler nd' = handler nd ∧ filters nd' = filters nd).

(** [grows], and no handler or filter list has changed. *)
Definition extends (r r' : DynamicRouter) : Prop :=
  root r ⊆ root r' ∧
  ctx r' = ctx r ∧ fileServer r' = fileServer r ∧
  ∀ n nd, nodes r !! n = Some nd →
    ∃ nd', nodes r' !! n = Some nd' ∧
           children nd ⊆ children nd' ∧
           handler nd' = handler nd ∧ filters nd' = filters nd.

(** Two heaps with the same pointers: the same nodes are allocated and
    they have the same children. *)
Definition same_shape (h1 h2 : list node) : Prop :=
  ∀ n, children <$> h1 !! n = children <$> h2 !! n.

(** The tokens registration keeps: the empty ones are skipped. *)
Definition usable (paths : list string) : list string :=
  List.filter (λ path, negb (String.eqb path "")) paths.

(** The order in which stdpp lists a map: one iteration order among all. *)
Definition map_order : range_order := λ _ m, map_to_list m.

(** The state of a dispatch once the wrapper is set up. *)
Definition entry (d : dispatch) : dispatch := fst (new_wrapper d).

(** The state after [w.flush()]. *)
Definition flushed (d : dispatch) : dispatch := fst (flush d).

(** The state after [w.WriteHeader(code)]. *)
Definition with_status (code : Z) (d : dispatch) : dispatch :=
  fst (WriteHeader code d).

(** The filters of a list run one after the other, in the order of the
    list, and each returns [true]. *)
Inductive passes (req : Request) : list HttpFilter → dispatch → dispatch → Prop :=
| passes_nil d : passes req [] d d
| passes_cons filter rest d d1 d2 :
    run_wrapped (filter req) d = (d1, Ok true) →
    passes req rest d1 d2 →
    passes req (filter :: rest) d d2.

(** The arguments of the calls of [Write] a piece of application code
    makes on a wrapper, in order; [hj] is the [Hijacker] field of the
    wrapper, on which it depends whether [Hijack] returns. *)
Fixpoint wrapper_writes {R} (s : script R) (hj : option sink_ref)
  : list (list Byte.byte) :=
  match s with
  | Return _ | DoPanic _ => []
  | CallWriteHeader _ k | CallSetHeader _ _ k | Effect _ k => wrapper_writes k hj
  | CallWrite b k => b :: wrapper_writes (k (Z.of_nat (length b)) None) hj
  | AssertHijacker k => wrapper_writes (k true) hj
  | CallHijack k => if hj is Some _ then wrapper_writes k hj else []
  end.

(** The same for the filters the loop of [ServeHTTP] runs: each filter up
    to the first that does not return [true]. *)
Fixpoint filters_writes (fs : list HttpFilter) (req : Request) (d : dispatch)
  : list (list Byte.byte) :=
  match fs with
  | [] => []
  | filter :: rest =>
      wrapper_writes (filter req) (Hijacker (w d)) ++
      match run_wrapped (filter req) d with
      | (d', Ok true) => filters_writes rest req d'
      | _ => []
      end
  end.

(** The same for a whole dispatch to a node with handler [h]: the filters,
    then the handler if every filter returned [true]. *)
Definition dispatch_writes (fs : list HttpFilter) (h : Handler) (c : Context)
    (req : Request) (d : dispatch) : list (list Byte.byte) :=
  filters_writes fs req d ++
  match run_filters fs req d with
  | (d', Ok true) => wrapper_writes (h c req) (Hijacker (w d'))
  | _ => []
  end.

(** [d'] comes from [d] by calls on the wrapper whose [Write]s had the
    arguments [ws]: the sink has received no part of the response in
    between, the [Hijacker] field is the same, and the buffered body is the
    last of [ws], or the body of [d] when [ws] is empty. *)
Definition buffered (ws : list (list Byte.byte)) (d d' : dispatch) : Prop :=
  hijackable (res d') = hijackable (res d) ∧
  Hijacker (w d') = Hijacker (w d) ∧
  response_calls (received (res d')) = response_calls (received (res d)) ∧
  body (w d') = default (body (w d)) (last ws).

(** Another iteration order: the entries of the map, last first. *)
Definition reverse_order : range_order := λ _ m, reverse (map_to_list m).

(** The spec's names for the ways registration fails: the four [panic]
    calls of [registerHandler].  A run-time panic is none of them. *)
Inductive registration_error : Type :=
| InvalidRegistration
| RouteConflict.

Definition classify (v : panic_value) : option registration_error :=
  match v with
  | PanicString msg =>
      if String.eqb msg msg_handler_nil || String.eqb msg msg_path_nil
      then Some InvalidRegistration
      else if String.eqb msg msg_dynamic_conflict
              || String.eqb msg msg_handler_conflict
      then Some RouteConflict
      else None
  | PanicRuntime _ => None
  end.

(** The routers a program can make with the package: the new router,
    [HandleFunc] (whether it returns or panics, the panic recovered by the
    caller) and [ServeStaticAt]. *)
Inductive built (rng : range_order) : DynamicRouter → Prop :=
| built_new : built rng NewDynamicRouter
| built_HandleFunc r pattern h fs :
    built rng r → built rng (fst (HandleFunc rng pattern h fs r))
| built_ServeStaticAt r FileServer dir mode :
    built rng r → built rng (ServeStaticAt FileServer dir mode r).

(** The router after a sequence of calls of [HandleFunc]. *)
Fixpoint register_all (rng : range_order)
    (calls : list (string * option Handler * list HttpFilter))
    (r : DynamicRouter) : DynamicRouter :=
  match calls with
  | [] => r
  | (pattern, h, fs) :: rest =>
      register_all rng rest (fst (HandleFunc rng pattern h fs r))
  end.

(** The tokens lead from the map [m] to the node [n] by keys of the maps,
    each token the key of a child. *)
Inductive resolves (heap : list node)
  : gmap string loc → list string → loc → Prop :=
| resolves_last m p n :
    m !! p = Some n → resolves heap m [p] n
| resolves_step m p n nd p' rest n' :
    m !! p = Some n → heap !! n = Some nd →
    resolves heap (children nd) (p' :: rest) n' →
    resolves heap m (p :: p' :: rest) n'.

(** The arguments of the calls of [WriteHeader] a piece of application code
    makes on a wrapper, in order. *)
Fixpoint wrapper_codes {R} (s : script R) (hj : option sink_ref) : list Z :=
  match s with
  | Return _ | DoPanic _ => []
  | CallWriteHeader code k => code :: wrapper_codes k hj
  | CallSetHeader _ _ k | Effect _ k => wrapper_codes k hj
  | CallWrite b k => wrapper_codes (k (Z.of_nat (length b)) None) hj
  | AssertHijacker k => wrapper_codes (k true) hj
  | CallHijack k => if hj is Some _ then wrapper_codes k hj else []
  end.

Fixpoint filters_codes (fs : list HttpFilter) (req : Request) (d : dispatch)
  : list Z :=
  match fs with
  | [] => []
  | filter :: rest =>
      wrapper_codes (filter req) (Hijacker (w d)) ++
      match run_wrapped (filter req) d with
      | (d', Ok true) => filters_codes rest req d'
      | _ => []
      end
  end.

Definition dispatch_codes (fs : list HttpFilter) (h : Handler) (c : Context)
    (req : Request) (d : dispatch) : list Z :=
  filters_codes fs req d ++
  match run_filters fs req d with
  | (d', Ok true) => wrapper_codes (h c req) (Hijacker (w d'))
  | _ => []
  end.

(** Whether a filter that ran, or the handler, panicked. *)
Definition dispatch_panics (fs : list HttpFilter) (h : Handler) (c : Context)
    (req : Request) (d : dispatch) : bool :=
  match run_filters fs req d with
  | (_, Panic _) => true
  | (d', Ok true) =>
      match run_wrapped (h c req) d' with
      | (_, Panic _) => true
      | (_, Ok _) => false
      end
  | (_, Ok false) => false
  end.

(** The calls application code run on a wrapper makes the sink receive
    while it runs: those of [Header], which the wrapper does not define
    itself, and [Hijack]. *)
Fixpoint wrapper_calls {R} (s : script R) (hj : option sink_ref)
  : list sink_call :=
  match s with
  | Return _ | DoPanic _ => []
  | CallWriteHeader _ k | Effect _ k => wrapper_calls k hj
  | CallWrite b k => wrapper_calls (k (Z.of_nat (length b)) None) hj
  | CallSetHeader key value k => SinkSetHeader key value :: wrapper_calls k hj
  | AssertHijacker k => wrapper_calls (k true) hj
  | CallHijack k => if hj is Some _ then SinkHijack :: wrapper_calls k hj else []
  end.

(** The same for the filters the loop of [ServeHTTP] runs. *)
Fixpoint filters_calls (fs : list HttpFilter) (req : Request) (d : dispatch)
  : list sink_call :=
  match fs with
  | [] => []
  | filter :: rest =>
      wrapper_calls (filter req) (Hijacker (w d)) ++
      match run_wrapped (filter req) d with
      | (d', Ok true) => filters_calls rest req d'
      | _ => []
      end
  end.

(** The same for a whole dispatch to a node with handler [h]. *)
Definition dispatch_calls (fs : list HttpFilter) (h : Handler) (c : Context)
    (req : Request) (d : dispatch) : list sink_call :=
  filters_calls fs req d ++
  match run_filters fs req d with
  | (d', Ok true) => wrapper_calls (h c req) (Hijacker (w d'))
  | _ => []
  end.

(** No map of the trie has the empty string as a key. *)
Definition no_empty_key (r : DynamicRouter) : Prop :=
  ∀ c m, map_at r c = Some m → m !! ""%string = None.

(** * Properties *)

(** ** The tokenizer *)

Section Tokenizer.

Example SplitPath_api : SplitPath "/api/v1/item/" = ["api"; "v1"; "item"].
Proof. reflexivity. Qed.

Example SplitPath_double : SplitPath "//a//b//" = [""; "a"; ""; "b"; ""].
Proof. reflexivity. Qed.

Example SplitPath_root : SplitPath "/" = [""].
Proof. reflexivity. Qed.

Lemma append_cons (c : ascii) (s t : string) :
  String c s +:+ t = String c (s +:+ t).
Proof. reflexivity. Qed.

Lemma length_append (s t : string) :
  String.length (s +:+ t) = String.length s + String.length t.
Proof.
  induction s as [|c s IH]; [done |].
  rewrite append_cons. simpl. by rewrite IH.
Qed.

Lemma append_empty_r (s : string) : s +:+ "" = s.
Proof.
  induction s as [|c s IH]; [done |]. by rewrite append_cons, IH.
Qed.

Lemma append_assoc (s t u : string) : (s +:+ t) +:+ u = s +:+ (t +:+ u).
Proof.
  induction s as [|c s IH]; [done |]. by rewrite !append_cons, IH.
Qed.

Lemma strip_prefix_Some (p s t : string) :
  strip_prefix p s = Some t ↔ s = p +:+ t.
Proof.
  revert s. induction p as [|a p IH]; intros s; simpl.
  - split; [by intros [= ->] | by intros ->].
  - destruct s as [|b s]; [by split |].
    destruct (Ascii.eqb_spec a b) as [->|Hne].
    + rewrite IH. split; [by intros -> | by intros [= ->]].
    + split; [done | intros [= -> _]; done].
Qed.

Lemma strip_suffix_app (suf s : string) :
  strip_suffix suf (s +:+ suf) = Some s.
Proof.
  induction s as [|c s IH].
  - destruct suf; simpl; rewrite ?Ascii.eqb_refl, ?String.eqb_refl; done.
  - change (String c s +:+ suf) with (String c (s +:+ suf)).
    cbn [strip_suffix].
    destruct (String.eqb_spec (String c (s +:+ suf)) suf) as [Heq|_].
    + apply (f_equal String.length) in Heq. simpl in Heq.
      rewrite length_append in Heq. lia.
    + by rewrite IH.
Qed.

Lemma strip_suffix_Some (suf s t : string) :
  strip_suffix suf s = Some t ↔ s = t +:+ suf.
Proof.
  split; [| intros ->; apply strip_suffix_app].
  revert t. induction s as [|c s IH]; intros t.
  - cbn [strip_suffix]. destruct (String.eqb_spec "" suf) as [<-|_]; [|done].
    by intros [= <-].
  - cbn [strip_suffix].
    destruct (String.eqb_spec (String c s) suf) as [<-|_].
    + by intros [= <-].
    + destruct (strip_suffix suf s) as [t'|] eqn:E; [|done].
      intros [= <-]. rewrite append_cons. f_equal. by apply IH.
Qed.

Lemma HasSuffix_false (s suf : string) :
  HasSuffix s suf = false → TrimSuffix s suf = s.
Proof. unfold HasSuffix, TrimSuffix. by destruct (strip_suffix suf s). Qed.

Lemma TrimSuffix_app (s suf : string) : TrimSuffix (s +:+ suf) suf = s.
Proof. unfold TrimSuffix. by rewrite strip_suffix_app. Qed.

Lemma HasSuffix_cons (c : ascii) (s suf : string) :
  s ≠ "" → suf ≠ "" → HasSuffix (String c s) suf = false → HasSuffix s suf = false.
Proof.
  unfold HasSuffix. intros Hs Hsuf H.
  destruct (strip_suffix suf s) as [t|] eqn:E; [|done].
  apply strip_suffix_Some in E. subst s.
  change (String c (t +:+ suf)) with (String c t +:+ suf) in H.
  by rewrite strip_suffix_app in H.
Qed.

Lemma TrimPrefix_slash_cons (s : string) : TrimPrefix (String slash s) "/" = s.
Proof. reflexivity. Qed.

Lemma TrimPrefix_other_cons (c : ascii) (s : string) :
  c ≠ slash → TrimPrefix (String c s) "/" = String c s.
Proof.
  intros Hc. unfold TrimPrefix. cbn [strip_prefix].
  destruct (Ascii.eqb_spec "/" c) as [<-|_]; done.
Qed.

Lemma SplitPath_strip_both (s : string) :
  SplitPath ("/" +:+ s +:+ "/") = Split s slash.
Proof.
  unfold SplitPath. change ("/" +:+ s +:+ "/") with (String slash (s +:+ "/")).
  by rewrite TrimPrefix_slash_cons, TrimSuffix_app.
Qed.

Lemma SplitPath_trailing_slash (s : string) :
  HasSuffix s "/" = false → SplitPath (s +:+ "/") = SplitPath s.
Proof.
  intros H. unfold SplitPath. destruct s as [|c s]; [done |].
  rewrite append_cons. destruct (decide (c = slash)) as [->|Hc].
  - rewrite !TrimPrefix_slash_cons, TrimSuffix_app.
    destruct s as [|c' s]; [done |].
    rewrite HasSuffix_false; [done |]. by apply HasSuffix_cons in H.
  - rewrite !TrimPrefix_other_cons by done.
    rewrite <- append_cons, TrimSuffix_app. by rewrite HasSuffix_false.
Qed.

Lemma Split_nonempty (s : string) (sep : ascii) : Split s sep ≠ [].
Proof.
  destruct s as [|c s]; [done |]. cbn [Split].
  destruct (Ascii.eqb c sep); [done |]. by destruct (Split s sep).
Qed.

Lemma Split_app (t u : string) (sep : ascii) :
  Split (t +:+ String sep u) sep = Split t sep ++ Split u sep.
Proof.
  induction t as [|c t IH].
  - change ("" +:+ String sep u) with (String sep u). cbn [Split].
    by rewrite Ascii.eqb_refl.
  - rewrite append_cons. cbn [Split]. rewrite IH.
    destruct (Ascii.eqb c sep); [done |].
    pose proof (Split_nonempty t sep). by destruct (Split t sep).
Qed.

Lemma Split_no_sep (t : string) (sep : ascii) :
  ContainsRune t sep = false → Split t sep = [t].
Proof.
  induction t as [|c t IH]; [done |]. cbn [ContainsRune Split].
  intros [Hc Ht]%orb_false_iff. rewrite Hc, IH; done.
Qed.

Lemma Join_cons (t : string) (ts : list string) (sep : ascii) :
  ts ≠ [] → Join (t :: ts) sep = t +:+ String sep (Join ts sep).
Proof. by destruct ts. Qed.

Lemma Split_Join (toks : list string) (sep : ascii) :
  toks ≠ [] → Forall (λ t, ContainsRune t sep = false) toks →
  Split (Join toks sep) sep = toks.
Proof.
  induction toks as [|t ts IH]; [done |]. intros _ Hall.
  apply Forall_cons in Hall as [Ht Hts]. destruct ts as [|t' ts].
  - by apply Split_no_sep.
  - rewrite Join_cons, Split_app, IH, Split_no_sep; done.
Qed.

Lemma Join_Split (s : string) (sep : ascii) : Join (Split s sep) sep = s.
Proof.
  induction s as [|c s IH]; [done |]. cbn [Split].
  pose proof (Split_nonempty s sep) as Hne.
  destruct (Ascii.eqb_spec c sep) as [->|_].
  - rewrite Join_cons, IH; done.
  - destruct (Split s sep) as [|t ts]; [done |].
    destruct ts as [|t' ts]; cbn [Join] in *; rewrite <- IH; done.
Qed.

Lemma Split_tokens_no_sep (s : string) (sep : ascii) :
  Forall (λ t, ContainsRune t sep = false) (Split s sep).
Proof.
  induction s as [|c s IH]; [by repeat constructor |]. cbn [Split].
  pose proof (Split_nonempty s sep) as Hne.
  destruct (Ascii.eqb_spec c sep) as [->|Hc]; [by constructor |].
  destruct (Split s sep) as [|t ts]; [done |].
  apply Forall_cons in IH as [Ht Hts]. constructor; [|done].
  cbn [ContainsRune]. rewrite Ht. by destruct (Ascii.eqb_spec c sep).
Qed.

End Tokenizer.

(** ** Registration *)

Section RegistrationFacts.

Lemma check_dynamic_cases (path : string) (entries : list (string * loc))
    (r : DynamicRouter) :
  (check_dynamic path entries r = (r, Ok tt) ∧
   ∀ k l, (k, l) ∈ entries → dynamic k → k = path) ∨
  (check_dynamic path entries r = (r, Panic (PanicString msg_dynamic_conflict)) ∧
   ∃ k l, (k, l) ∈ entries ∧ dynamic k ∧ k ≠ path).
Proof.
  induction entries as [|[m l] rest IH]; cbn [check_dynamic].
  - left. split; [done |]. intros k l H. by apply elem_of_nil in H.
  - destruct (HasPrefix m dynamic_marker) eqn:Hm; cbn [andb].
    + destruct (String.eqb_spec path m) as [->|Hne]; cbn [negb].
      * destruct IH as [[-> IH]|[-> (k & l' & Hin & Hk & Hne)]].
        -- left. split; [done |]. intros k l' [[= -> ->]|Hin]%elem_of_cons; eauto.
        -- right. split; [done |]. exists k, l'. rewrite elem_of_cons. eauto.
      * right. split; [done |]. exists m, l. rewrite elem_of_cons.
        split_and!; [by left | done | done].
    + destruct IH as [[-> IH]|[-> (k & l' & Hin & Hk & Hne)]].
      * left. split; [done |]. intros k l' [[= -> ->]|Hin]%elem_of_cons; [|eauto].
        unfold dynamic. congruence.
      * right. split; [done |]. exists k, l'. rewrite elem_of_cons. eauto.
Qed.

Lemma elem_of_range (rng : range_order) (i : nat) (m : gmap string loc)
    (k : string) (l : loc) :
  range_ok rng → (k, l) ∈ rng i m ↔ m !! k = Some l.
Proof. intros Hrng. by rewrite (Hrng i m), elem_of_map_to_list. Qed.

Lemma map_order_ok : range_ok map_order.
Proof. by intros i m. Qed.

Lemma load_map_at (r : DynamicRouter) (c : mapref) :
  load_map c r =
    (r, match map_at r c with
        | Some m => Ok m
        | None => Panic (PanicRuntime NilDereference)
        end).
Proof. destruct c as [|n]; [done |]. simpl. by destruct (nodes r !! n). Qed.

Lemma store_add_child (r : DynamicRouter) (cur : mapref) (path : string)
    (m : gmap string loc) :
  map_at r cur = Some m →
  store_child cur path (length (nodes r)) (fst (new_node r))
  = (add_child r cur path, Ok tt).
Proof.
  unfold add_child. destruct cur as [|p]; [done |]. simpl.
  intros [nd [Hnd _]]%fmap_Some.
  by rewrite (lookup_app_l_Some _ _ _ _ Hnd).
Qed.

Lemma map_at_add_child_cur (r : DynamicRouter) (cur : mapref) (path : string)
    (m : gmap string loc) :
  map_at r cur = Some m →
  map_at (add_child r cur path) cur = Some (<[path := length (nodes r)]> m).
Proof.
  unfold add_child. destruct cur as [|p]; simpl.
  - by intros [= <-].
  - intros [nd [Hnd ->]]%fmap_Some.
    rewrite (lookup_app_l_Some _ _ _ _ Hnd). simpl.
    rewrite list_lookup_insert_eq; [done |].
    rewrite length_app. apply lookup_lt_Some in Hnd. lia.
Qed.

Lemma nodes_add_child_new (r : DynamicRouter) (cur : mapref) (path : string) :
  cur ≠ NodeMap (length (nodes r)) →
  nodes (add_child r cur path) !! length (nodes r) = Some (mkNode None [] ∅).
Proof.
  unfold add_child. destruct cur as [|p]; simpl.
  - intros _. by rewrite lookup_app_r, Nat.sub_diag.
  - intros Hp. destruct ((nodes r ++ [mkNode None [] ∅]) !! p) eqn:E; simpl.
    + rewrite list_lookup_insert_ne by congruence.
      by rewrite lookup_app_r, Nat.sub_diag.
    + by rewrite lookup_app_r, Nat.sub_diag.
Qed.

Lemma nodes_add_child_old (r : DynamicRouter) (cur : mapref) (path : string)
    (n : loc) (nd : node) :
  nodes r !! n = Some nd →
  ∃ nd', nodes (add_child r cur path) !! n = Some nd' ∧
         handler nd' = handler nd ∧ filters nd' = filters nd ∧
         (cur ≠ NodeMap n → children nd' = children nd) ∧
         (cur = NodeMap n →
          children nd' = <[path := length (nodes r)]> (children nd)).
Proof.
  intros Hnd. unfold add_child. destruct cur as [|p]; simpl.
  - exists nd. rewrite (lookup_app_l_Some _ _ _ _ Hnd). done.
  - destruct (decide (p = n)) as [->|Hne].
    + rewrite (lookup_app_l_Some _ _ _ _ Hnd). simpl.
      eexists. rewrite list_lookup_insert_eq.
      * split; [done |]. split_and!; [done | done | congruence | done].
      * rewrite length_app. apply lookup_lt_Some in Hnd. lia.
    + exists nd. destruct ((nodes r ++ [mkNode None [] ∅]) !! p) eqn:E; simpl.
      * rewrite list_lookup_insert_ne by done.
        rewrite (lookup_app_l_Some _ _ _ _ Hnd).
        split_and!; [done | done | done | done | congruence].
      * rewrite (lookup_app_l_Some _ _ _ _ Hnd).
        split_and!; [done | done | done | done | congruence].
Qed.

Lemma root_add_child (r : DynamicRouter) (cur : mapref) (path : string) :
  root (add_child r cur path) =
    match cur with
    | RootMap => <[path := length (nodes r)]> (root r)
    | NodeMap _ => root r
    end.
Proof.
  unfold add_child. destruct cur as [|p]; simpl; [done |].
  by destruct ((nodes r ++ [mkNode None [] ∅]) !! p).
Qed.

Lemma ctx_add_child (r : DynamicRouter) (cur : mapref) (path : string) :
  ctx (add_child r cur path) = ctx r ∧
  fileServer (add_child r cur path) = fileServer r.
Proof.
  unfold add_child. destruct cur as [|p]; simpl; [done |].
  by destruct ((nodes r ++ [mkNode None [] ∅]) !! p).
Qed.

Lemma length_add_child (r : DynamicRouter) (cur : mapref) (path : string) :
  length (nodes (add_child r cur path)) = S (length (nodes r)).
Proof.
  unfold add_child. destruct cur as [|p]; simpl.
  - rewrite length_app. simpl. lia.
  - destruct ((nodes r ++ [mkNode None [] ∅]) !! p); simpl;
      rewrite ?length_insert, length_app; simpl; lia.
Qed.

Variable rng : range_order.
Hypothesis rng_ok : range_ok rng.

Lemma check_dynamic_agree (i : nat) (path : string) (m : gmap string loc)
    (r : DynamicRouter) :
  dyn_agree m path → check_dynamic path (rng i m) r = (r, Ok tt).
Proof.
  intros Hm.
  destruct (check_dynamic_cases path (rng i m) r)
    as [[-> _]|[_ (k & l & Hin & Hk & Hne)]]; [done |].
  apply elem_of_range in Hin; [|done]. destruct Hne. eauto.
Qed.

Lemma check_dynamic_conflict (i : nat) (path k : string) (l : loc)
    (m : gmap string loc) (r : DynamicRouter) :
  m !! k = Some l → dynamic k → k ≠ path →
  check_dynamic path (rng i m) r = (r, Panic (PanicString msg_dynamic_conflict)).
Proof.
  intros Hk Hdyn Hne.
  destruct (check_dynamic_cases path (rng i m) r) as [[_ H]|[-> _]]; [|done].
  destruct Hne. apply (H k l); [|done]. by apply elem_of_range.
Qed.

Lemma descend_conflict (i : nat) (path k : string) (l : loc) (cur : mapref)
    (m : gmap string loc) (r : DynamicRouter) :
  map_at r cur = Some m → m !! k = Some l → dynamic k → dynamic path → k ≠ path →
  descend rng i path cur r = (r, Panic (PanicString msg_dynamic_conflict)).
Proof.
  intros Hm Hk Hdyn Hpath Hne. unfold descend, bind.
  rewrite load_map_at, Hm, Hpath.
  by rewrite (check_dynamic_conflict i path k l).
Qed.

Lemma descend_existing (i : nat) (path : string) (n : loc) (cur : mapref)
    (m : gmap string loc) (r : DynamicRouter) :
  map_at r cur = Some m → (dynamic path → dyn_agree m path) →
  m !! path = Some n → is_Some (nodes r !! n) →
  descend rng i path cur r = (r, Ok n).
Proof.
  intros Hm Hagree Hn [nd Hnd]. unfold descend, bind.
  rewrite load_map_at, Hm.
  destruct (HasPrefix path dynamic_marker) eqn:Hpath.
  - rewrite check_dynamic_agree by auto. rewrite Hn. unfold ret, deref.
    simpl. by rewrite Hnd.
  - unfold ret, deref. rewrite Hn. simpl. by rewrite Hnd.
Qed.

Lemma descend_new (i : nat) (path : string) (cur : mapref)
    (m : gmap string loc) (r : DynamicRouter) :
  map_at r cur = Some m → (dynamic path → dyn_agree m path) →
  m !! path = None → cur ≠ NodeMap (length (nodes r)) →
  descend rng i path cur r = (add_child r cur path, Ok (length (nodes r))).
Proof.
  intros Hm Hagree Hn Hcur. unfold descend, bind.
  rewrite load_map_at, Hm.
  assert ((if HasPrefix path dynamic_marker
           then check_dynamic path (rng i m) else ret tt) r = (r, Ok tt)) as ->.
  { destruct (HasPrefix path dynamic_marker) eqn:Hpath; [|done].
    by apply check_dynamic_agree, Hagree. }
  rewrite Hn. unfold new_node at 1. cbn [fst snd].
  change (mkRouter (root r) (ctx r) (fileServer r) (nodes r ++ [mkNode None [] ∅]))
    with (fst (new_node r)).
  rewrite (store_add_child r cur path m Hm). unfold ret, deref. simpl.
  by rewrite nodes_add_child_new.
Qed.

Lemma map_at_valid (r : DynamicRouter) (n : loc) (m : gmap string loc) :
  map_at r (NodeMap n) = Some m → n < length (nodes r).
Proof. simpl. intros [nd [Hnd _]]%fmap_Some. by apply lookup_lt_Some in Hnd. Qed.

Lemma map_at_not_new (r : DynamicRouter) (cur : mapref) (m : gmap string loc) :
  map_at r cur = Some m → cur ≠ NodeMap (length (nodes r)).
Proof.
  intros Hm ->. apply map_at_valid in Hm. lia.
Qed.

(** What [descend] does, read off its result. *)
Lemma descend_inv (i : nat) (path : string) (cur : mapref) (r r' : DynamicRouter)
    (out : result loc) :
  descend rng i path cur r = (r', out) →
  (r' = r ∧ ∃ v, out = Panic v ∧
     (v = PanicString msg_dynamic_conflict ∨ v = PanicRuntime NilDereference)) ∨
  (∃ m, map_at r cur = Some m ∧ (dynamic path → dyn_agree m path) ∧
     ((∃ n, m !! path = Some n ∧ is_Some (nodes r !! n) ∧ r' = r ∧ out = Ok n) ∨
      (m !! path = None ∧ r' = add_child r cur path ∧
       out = Ok (length (nodes r))))).
Proof.
  intros H. destruct (map_at r cur) as [m|] eqn:Hm.
  2:{ unfold descend, bind in H. rewrite load_map_at, Hm in H.
      injection H as <- <-. left. eauto. }
  destruct (decide (dynamic path ∧ ¬ dyn_agree m path)) as [[Hp Hna]|Hok].
  - unfold descend, bind in H. rewrite load_map_at, Hm, Hp in H.
    destruct (check_dynamic_cases path (rng i m) r) as [[_ Hall]|[E _]].
    + destruct Hna. intros k l Hk Hdyn. apply (Hall k l); [|done].
      by apply elem_of_range.
    + rewrite E in H. injection H as <- <-. left. eauto.
  - assert (dynamic path → dyn_agree m path) as Hagree.
    { intros Hp. destruct (decide (dyn_agree m path)); [done |].
      destruct Hok. done. }
    destruct (m !! path) as [n|] eqn:Hn.
    + destruct (nodes r !! n) as [nd|] eqn:Hnd.
      * rewrite (descend_existing i path n cur m) in H by eauto.
        injection H as <- <-. right. exists m. split_and!; [done..|].
        left. exists n. eauto.
      * left. unfold descend, bind in H. rewrite load_map_at, Hm in H.
        assert ((if HasPrefix path dynamic_marker
                 then check_dynamic path (rng i m) else ret tt) r = (r, Ok tt))
          as E.
        { destruct (HasPrefix path dynamic_marker) eqn:Hpath; [|done].
          by apply check_dynamic_agree, Hagree. }
        rewrite E, Hn in H. unfold ret, deref in H. simpl in H.
        rewrite Hnd in H. injection H as <- <-. eauto.
    + rewrite (descend_new i path cur m) in H
        by eauto using map_at_not_new.
      injection H as <- <-. right. exists m. split_and!; [done..|].
      right. done.
Qed.

Lemma extends_refl (r : DynamicRouter) : extends r r.
Proof.
  split_and!; [done..|]. intros n nd Hnd. exists nd. done.
Qed.

Lemma extends_trans (r1 r2 r3 : DynamicRouter) :
  extends r1 r2 → extends r2 r3 → extends r1 r3.
Proof.
  intros (Hr & Hc & Hf & Hn) (Hr' & Hc' & Hf' & Hn').
  split_and!; [by etrans | congruence | congruence |].
  intros n nd Hnd. destruct (Hn n nd Hnd) as (nd2 & H2 & Hsub & Hh & Hfs).
  destruct (Hn' n nd2 H2) as (nd3 & H3 & Hsub' & Hh' & Hfs').
  exists nd3. split_and!; [done | by etrans | congruence | congruence].
Qed.

Lemma extends_grows (r r' : DynamicRouter) : extends r r' → grows r r'.
Proof.
  intros (Hr & Hc & Hf & Hn). split_and!; [done..|].
  intros n nd Hnd. destruct (Hn n nd Hnd) as (nd' & H' & Hsub & Hh & Hfs).
  exists nd'. eauto.
Qed.

Lemma extends_add_child (r : DynamicRouter) (cur : mapref) (path : string)
    (m : gmap string loc) :
  map_at r cur = Some m → m !! path = None → extends r (add_child r cur path).
Proof.
  intros Hm Hpath. destruct (ctx_add_child r cur path) as [Hc Hf].
  split_and!; [| done | done |].
  - rewrite root_add_child. destruct cur; [|done].
    injection Hm as <-. by apply insert_subseteq.
  - intros n nd Hnd.
    destruct (nodes_add_child_old r cur path n nd Hnd)
      as (nd' & H' & Hh & Hfs & Hne & Heq).
    exists nd'. split_and!; [done | | done | done].
    destruct (decide (cur = NodeMap n)) as [->|Hcur].
    + rewrite Heq by done. apply insert_subseteq.
      apply fmap_Some in Hm as (nd0 & Hnd0 & ->). congruence.
    + by rewrite Hne.
Qed.

Lemma descend_extends (i : nat) (path : string) (cur : mapref)
    (r r' : DynamicRouter) (out : result loc) :
  descend rng i path cur r = (r', out) → extends r r'.
Proof.
  intros [[-> _]|(m & Hm & _ & [(n & _ & _ & -> & _)|(Hn & -> & _)])]%descend_inv;
    [apply extends_refl | apply extends_refl | by eapply extends_add_child].
Qed.

Lemma walk_extends (paths : list string) (cur : mapref) (n : option loc)
    (r r' : DynamicRouter) (out : result (mapref * option loc)) :
  walk rng paths cur n r = (r', out) → extends r r'.
Proof.
  revert cur n r. induction paths as [|path rest IH]; intros cur n r; cbn [walk].
  - intros [= <- _]. apply extends_refl.
  - destruct (String.eqb path ""); [apply IH |].
    unfold bind. destruct (descend _ _ _ _ r) as [r1 [n1|v]] eqn:E.
    + intros H. eapply extends_trans; [by eapply descend_extends | by eapply IH].
    + intros [= <- _]. by eapply descend_extends.
Qed.

Lemma usable_cons (path : string) (rest : list string) :
  usable (path :: rest) =
    if String.eqb path "" then usable rest else path :: usable rest.
Proof. unfold usable. simpl. by destruct (String.eqb path ""). Qed.

Lemma walk_all_empty (paths : list string) (cur : mapref) (n : option loc)
    (r : DynamicRouter) :
  usable paths = [] → walk rng paths cur n r = (r, Ok (cur, n)).
Proof.
  induction paths as [|path rest IH]; [done |].
  rewrite usable_cons. cbn [walk]. destruct (String.eqb path ""); [done | done].
Qed.

Lemma map_at_extends (r r' : DynamicRouter) (c : mapref) (m : gmap string loc) :
  extends r r' → map_at r c = Some m →
  ∃ m', map_at r' c = Some m' ∧ m ⊆ m'.
Proof.
  intros (Hr & _ & _ & Hn) Hm. destruct c as [|n]; simpl in *.
  - injection Hm as <-. eauto.
  - apply fmap_Some in Hm as (nd & Hnd & ->).
    destruct (Hn n nd Hnd) as (nd' & -> & Hsub & _). simpl. eauto.
Qed.

Lemma valid_extends (r r' : DynamicRouter) (n : loc) :
  extends r r' → is_Some (nodes r !! n) → is_Some (nodes r' !! n).
Proof.
  intros (_ & _ & _ & Hn) [nd Hnd].
  destruct (Hn n nd Hnd) as (nd' & -> & _). done.
Qed.

(** After a successful [descend] the key is in the map, the node under it
    is allocated, and a dynamic key is the only dynamic one of the map. *)
Lemma descend_ok (i : nat) (path : string) (cur : mapref) (r r' : DynamicRouter)
    (n : loc) :
  descend rng i path cur r = (r', Ok n) →
  ∃ m', map_at r' cur = Some m' ∧ m' !! path = Some n ∧
        is_Some (nodes r' !! n) ∧ (dynamic path → dyn_agree m' path).
Proof.
  intros [[_ (v & [=] & _)]|(m & Hm & Hag & H)]%descend_inv.
  destruct H as [(n' & Hn & Hv & -> & [= ->])|(Hn & -> & [= ->])].
  - exists m. done.
  - exists (<[path := length (nodes r)]> m). split_and!.
    + by apply map_at_add_child_cur.
    + apply lookup_insert_eq.
    + rewrite nodes_add_child_new; [done | by eapply map_at_not_new].
    + intros Hp k l Hk Hdyn. destruct (decide (path = k)) as [|Hne]; [done |].
      rewrite lookup_insert_ne in Hk by done. by eapply Hag.
Qed.

Lemma map_at_add_child_inv (r : DynamicRouter) (cur c : mapref) (path : string)
    (m m' : gmap string loc) :
  map_at r cur = Some m → map_at (add_child r cur path) c = Some m' →
  (c = cur ∧ m' = <[path := length (nodes r)]> m) ∨
  (c = NodeMap (length (nodes r)) ∧ m' = ∅) ∨
  (c ≠ cur ∧ map_at r c = Some m').
Proof.
  intros Hm Hc. destruct (decide (c = cur)) as [->|Hne].
  { left. rewrite (map_at_add_child_cur r cur path m Hm) in Hc.
    by injection Hc as <-. }
  right. destruct c as [|n].
  - right. split; [done |]. simpl in *. rewrite root_add_child in Hc.
    destruct cur; [done |]. done.
  - destruct (nodes r !! n) as [nd|] eqn:Hnd.
    + right. split; [done |].
      destruct (nodes_add_child_old r cur path n nd Hnd)
        as (nd' & H' & _ & _ & Hsame & _).
      simpl in *. rewrite H' in Hc. rewrite Hnd. simpl in *.
      rewrite <- Hsame; [done | congruence].
    + left. pose proof (map_at_valid _ _ _ Hc) as Hlt.
      rewrite length_add_child in Hlt. apply lookup_ge_None in Hnd.
      assert (n = length (nodes r)) as -> by lia. split; [done |].
      simpl in Hc. rewrite nodes_add_child_new in Hc by (by eapply map_at_not_new).
      by injection Hc as <-.
Qed.

Lemma map_at_add_child_other (r : DynamicRouter) (cur c : mapref) (path : string)
    (m : gmap string loc) :
  c ≠ cur → map_at r c = Some m → map_at (add_child r cur path) c = Some m.
Proof.
  intros Hne Hm. destruct c as [|n]; simpl in *.
  - rewrite root_add_child. by destruct cur.
  - apply fmap_Some in Hm as (nd & Hnd & ->).
    destruct (nodes_add_child_old r cur path n nd Hnd)
      as (nd' & -> & _ & _ & Hsame & _).
    simpl. rewrite Hsame; [done | congruence].
Qed.

(** A step of the loop leaves a map whose dynamic keys are all [p], and
    that has [p], in that state. *)
Lemma descend_keeps_agree (i : nat) (path p : string) (cur c : mapref)
    (r r' : DynamicRouter) (out : result loc) (m : gmap string loc) :
  descend rng i path cur r = (r', out) →
  map_at r c = Some m → is_Some (m !! p) → dynamic p → dyn_agree m p →
  ∃ m', map_at r' c = Some m' ∧ is_Some (m' !! p) ∧ dyn_agree m' p.
Proof.
  intros [[-> _]|(m0 & Hm0 & Hag & H)]%descend_inv Hm Hp Hdyn Hagree; [eauto |].
  destruct H as [(n & _ & _ & -> & _)|(Hn & -> & _)]; [eauto |].
  destruct (decide (c = cur)) as [->|Hne].
  - rewrite Hm in Hm0. injection Hm0 as <-.
    exists (<[path := length (nodes r)]> m). split_and!.
    + by apply map_at_add_child_cur.
    + destruct Hp as [l Hl]. exists l. rewrite lookup_insert_ne; [done |].
      intros ->. congruence.
    + intros k l Hk Hk'. destruct (decide (path = k)) as [<-|Hne].
      * destruct Hp as [lp Hlp]. symmetry. by eapply (Hag Hk').
      * rewrite lookup_insert_ne in Hk by done. by eapply Hagree.
  - exists m. split_and!; [by apply map_at_add_child_other | done | done].
Qed.

Lemma walk_keeps_agree (paths : list string) (p : string) (cur c : mapref)
    (n : option loc) (r r' : DynamicRouter)
    (out : result (mapref * option loc)) (m : gmap string loc) :
  walk rng paths cur n r = (r', out) →
  map_at r c = Some m → is_Some (m !! p) → dynamic p → dyn_agree m p →
  ∃ m', map_at r' c = Some m' ∧ is_Some (m' !! p) ∧ dyn_agree m' p.
Proof.
  revert cur n r m. induction paths as [|path rest IH]; intros cur n r m; cbn [walk].
  - intros [= <- _]. eauto.
  - destruct (String.eqb path ""); [apply IH |].
    unfold bind. destruct (descend _ _ _ _ r) as [r1 [n1|v]] eqn:E.
    + intros H Hm Hp Hdyn Hag.
      destruct (descend_keeps_agree _ _ _ _ _ _ _ _ _ E Hm Hp Hdyn Hag)
        as (m1 & Hm1 & Hp1 & Hag1).
      by eapply IH.
    + intros [= <- _]. by eapply descend_keeps_agree.
Qed.

(** Allocating a child keeps the invariant of the trie. *)
Lemma trie_inv_add_child (r : DynamicRouter) (cur : mapref) (path : string)
    (m : gmap string loc) :
  trie_inv r → map_at r cur = Some m → m !! path = None →
  (dynamic path → dyn_agree m path) → trie_inv (add_child r cur path).
Proof.
  intros Hinv Hm Hnone Hag c m' Hc.
  destruct (map_at_add_child_inv r cur c path m m' Hm Hc)
    as [[-> ->]|[[-> ->]|[_ Hold]]].
  - intros k1 k2 l1 l2 H1 H2 D1 D2.
    destruct (decide (path = k1)) as [<-|N1], (decide (path = k2)) as [<-|N2];
      [done | | |].
    + rewrite lookup_insert_ne in H2 by done. symmetry. by eapply (Hag D1).
    + rewrite lookup_insert_ne in H1 by done. by eapply (Hag D2).
    + rewrite lookup_insert_ne in H1, H2 by done. by eapply (Hinv cur m Hm).
  - intros k1 k2 l1 l2 H1. by rewrite lookup_empty in H1.
  - by eapply Hinv.
Qed.

Lemma descend_trie_inv (i : nat) (path : string) (cur : mapref)
    (r r' : DynamicRouter) (out : result loc) :
  descend rng i path cur r = (r', out) → trie_inv r → trie_inv r'.
Proof.
  intros [[-> _]|(m & Hm & Hag & H)]%descend_inv Hinv; [done |].
  destruct H as [(n & _ & _ & -> & _)|(Hn & -> & _)]; [done |].
  by eapply trie_inv_add_child.
Qed.

Lemma walk_trie_inv (paths : list string) (cur : mapref) (n : option loc)
    (r r' : DynamicRouter) (out : result (mapref * option loc)) :
  walk rng paths cur n r = (r', out) → trie_inv r → trie_inv r'.
Proof.
  revert cur n r. induction paths as [|path rest IH]; intros cur n r; cbn [walk].
  - by intros [= <- _].
  - destruct (String.eqb path ""); [apply IH |].
    unfold bind. destruct (descend _ _ _ _ r) as [r1 [n1|v]] eqn:E.
    + intros H Hinv. eapply IH; [done |]. by eapply descend_trie_inv.
    + intros [= <- _]. by eapply descend_trie_inv.
Qed.

End RegistrationFacts.

(** ** Registration, then lookup *)

Lemma parseTree_same_shape (rng : range_order) (h1 h2 : list node)
    (kids : gmap string loc) (path : list string) :
  same_shape h1 h2 → parseTree rng h1 kids path = parseTree rng h2 kids path.
Proof.
  intros Hsame.
  assert (∀ n, (h1 !! n = None ∧ h2 !! n = None) ∨
               (∃ nd1 nd2, h1 !! n = Some nd1 ∧ h2 !! n = Some nd2 ∧
                           children nd1 = children nd2)) as Hrel.
  { intros n. specialize (Hsame n).
    destruct (h1 !! n) as [nd1|], (h2 !! n) as [nd2|]; try done; [|by left].
    right. exists nd1, nd2. by injection Hsame as ->. }
  revert kids. induction path as [|p rest IH]; intros kids; [done |].
  cbn [parseTree]. destruct (kids !! p) as [n|].
  - destruct rest as [|p' rest]; [done |].
    destruct (Hrel n) as [[-> ->]|(nd1 & nd2 & -> & -> & ->)]; [done | apply IH].
  - destruct (first_dynamic _) as [dn|]; [|done].
    destruct (Hrel dn) as [[E1 E2]|(nd1 & nd2 & E1 & E2 & Hc)];
      rewrite E1, E2; [done |].
    destruct rest as [|p' rest]; [done |]. rewrite E1, E2, Hc. apply IH.
Qed.

(** The path the loop of [registerHandler] followed is the path an exact
    lookup of the same tokens follows. *)
Lemma walk_parse (rng rng' : range_order) (paths : list string) (cur cur' : mapref)
    (n0 n1 : option loc) (r r1 : DynamicRouter) :
  range_ok rng →
  walk rng paths cur n0 r = (r1, Ok (cur', n1)) → usable paths ≠ [] →
  ∃ n m, n1 = Some n ∧ map_at r1 cur = Some m ∧ is_Some (nodes r1 !! n) ∧
         cur' = NodeMap n ∧
         parseTree rng' (nodes r1) m (usable paths) = Ok (Found n).
Proof.
  intros Hrng. revert cur n0 r.
  induction paths as [|path rest IH]; intros cur n0 r; [done |].
  rewrite usable_cons. cbn [walk].
  destruct (String.eqb path "") eqn:Hpath; [apply IH |].
  unfold bind. destruct (descend _ _ _ _ r) as [ra [n'|v]] eqn:E; [|done].
  intros Hwalk _.
  destruct (descend_ok rng Hrng _ _ _ _ _ _ E) as (ma & Hma & Hn' & Hv & _).
  pose proof (walk_extends rng Hrng _ _ _ _ _ _ Hwalk) as Hext.
  destruct (map_at_extends _ _ _ _ Hext Hma) as (m1 & Hm1 & Hsub).
  pose proof (lookup_weaken _ _ _ _ Hn' Hsub) as Hn1.
  destruct (usable rest) as [|t ts] eqn:Hrest.
  - rewrite walk_all_empty in Hwalk by done. injection Hwalk as <- <- <-.
    exists n', m1. split_and!; [done..|].
    cbn [parseTree]. by rewrite Hn1.
  - destruct (IH (NodeMap n') (Some n') ra Hwalk) as (n & m' & -> & Hm' & Hvn & -> & Hparse);
      [done |].
    exists n, m1. split_and!; [done..|].
    cbn [parseTree]. rewrite Hn1. simpl in Hm'.
    apply fmap_Some in Hm' as (nd & -> & ->). done.
Qed.

(** Walking the same tokens again changes nothing and ends at the same
    node, whatever the iteration order of the second walk. *)
Lemma walk_again (rng rng2 : range_order) (paths : list string) (cur cur' : mapref)
    (n0 n1 : option loc) (r r1 r2 : DynamicRouter) :
  range_ok rng → range_ok rng2 →
  walk rng paths cur n0 r = (r1, Ok (cur', n1)) →
  (∀ c, map_at r2 c = map_at r1 c) →
  walk rng2 paths cur n0 r2 = (r2, Ok (cur', n1)).
Proof.
  intros Hrng Hrng2. revert cur n0 r.
  induction paths as [|path rest IH]; intros cur n0 r; cbn [walk].
  - by intros [= <- <- <-] _.
  - destruct (String.eqb path "") eqn:Hpath; [apply IH |].
    unfold bind. destruct (descend _ _ _ _ r) as [ra [n'|v]] eqn:E; [|done].
    intros Hwalk Hsame.
    destruct (descend_ok rng Hrng _ _ _ _ _ _ E) as (ma & Hma & Hn' & Hv & Hag).
    pose proof (walk_extends rng Hrng _ _ _ _ _ _ Hwalk) as Hext.
    destruct (map_at_extends _ _ _ _ Hext Hma) as (m1 & Hm1 & Hsub).
    pose proof (lookup_weaken _ _ _ _ Hn' Hsub) as Hn1.
    rewrite (descend_existing rng2 Hrng2 _ path n' cur m1 r2).
    + by eapply IH.
    + by rewrite Hsame.
    + intros Hdyn.
      destruct (walk_keeps_agree rng Hrng _ _ _ _ _ _ _ _ _ Hwalk Hma
                  (mk_is_Some _ _ Hn') Hdyn (Hag Hdyn)) as (m1' & Hm1' & _ & Hag').
      rewrite Hm1 in Hm1'. by injection Hm1' as <-.
    + done.
    + apply (valid_extends _ _ _ Hext) in Hv as [nd Hnd].
      specialize (Hsame (NodeMap n')). simpl in Hsame. rewrite Hnd in Hsame.
      by destruct (nodes r2 !! n').
Qed.

Section RegisterHandlerFacts.

Variable rng : range_order.
Hypothesis rng_ok : range_ok rng.

(** What [registerHandler] does, read off its result. *)
Lemma registerHandler_inv (paths : list string) (h : option Handler)
    (fs : list HttpFilter) (r r' : DynamicRouter) (out : result unit) :
  registerHandler rng paths h fs r = (r', out) →
  (h = None ∧ r' = r ∧ out = Panic (PanicString msg_handler_nil)) ∨
  (is_Some h ∧ paths = [] ∧ r' = r ∧ out = Panic (PanicString msg_path_nil)) ∨
  (is_Some h ∧ paths ≠ [] ∧
   ∃ r1 wout, walk rng paths RootMap None r = (r1, wout) ∧
     match wout with
     | Panic v => r' = r1 ∧ out = Panic v
     | Ok (_, None) => r' = r1 ∧ out = Panic (PanicRuntime NilDereference)
     | Ok (_, Some n) =>
         match nodes r1 !! n with
         | None => r' = r1 ∧ out = Panic (PanicRuntime NilDereference)
         | Some nd =>
             match handler nd with
             | Some _ => r' = r1 ∧ out = Panic (PanicString msg_handler_conflict)
             | None => r' = installed r1 n h fs ∧ out = Ok tt
             end
         end
     end).
Proof.
  unfold registerHandler. destruct h as [h|].
  2:{ intros [= <- <-]. by left. }
  destruct paths as [|path rest].
  { intros [= <- <-]. right. left. done. }
  change (length (path :: rest) <? 1) with false. cbv iota.
  intros H. right. right. split_and!; [done | done |].
  unfold bind in H.
  destruct (walk rng (path :: rest) RootMap None r) as [r1 [[cur' n1]|v]] eqn:E.
  2:{ injection H as <- <-. exists r1, (Panic v). done. }
  exists r1, (Ok (cur', n1)). split; [done |].
  unfold deref in H. cbn [snd] in H. destruct n1 as [n|]; simpl in H.
  2:{ by injection H as <- <-. }
  destruct (nodes r1 !! n) as [nd|] eqn:Hnd.
  2:{ by injection H as <- <-. }
  destruct (handler nd).
  { by injection H as <- <-. }
  unfold installed, install in *. rewrite Hnd in *. by injection H as <- <-.
Qed.

Lemma registerHandler_ok_inv (paths : list string) (h : option Handler)
    (fs : list HttpFilter) (r r' : DynamicRouter) :
  registerHandler rng paths h fs r = (r', Ok tt) →
  ∃ r1 cur' n nd,
    is_Some h ∧ walk rng paths RootMap None r = (r1, Ok (cur', Some n)) ∧
    nodes r1 !! n = Some nd ∧ handler nd = None ∧ r' = installed r1 n h fs.
Proof.
  intros [(_ & _ & [=])|[(_ & _ & _ & [=])|(Hh & _ & r1 & wout & Hw & H)]]%registerHandler_inv.
  destruct wout as [[cur' [n|]]|v]; [| by destruct H | by destruct H].
  destruct (nodes r1 !! n) as [nd|] eqn:Hnd; [|by destruct H].
  destruct (handler nd) eqn:Hhd; [by destruct H |].
  destruct H as [-> _]. exists r1, cur', n, nd. done.
Qed.

Lemma nodes_installed (r : DynamicRouter) (n : loc) (nd : node)
    (h : option Handler) (fs : list HttpFilter) :
  nodes r !! n = Some nd →
  nodes (installed r n h fs) = <[n := mkNode h fs (children nd)]> (nodes r) ∧
  root (installed r n h fs) = root r ∧ ctx (installed r n h fs) = ctx r ∧
  fileServer (installed r n h fs) = fileServer r.
Proof. intros Hnd. unfold installed, install. by rewrite Hnd. Qed.

Lemma lookup_installed (r : DynamicRouter) (n n' : loc) (nd : node)
    (h : option Handler) (fs : list HttpFilter) :
  nodes r !! n = Some nd →
  nodes (installed r n h fs) !! n' =
    if decide (n = n') then Some (mkNode h fs (children nd)) else nodes r !! n'.
Proof.
  intros Hnd. destruct (nodes_installed r n nd h fs Hnd) as (-> & _).
  case_decide as Hn.
  - subst n'. apply list_lookup_insert_eq. by apply lookup_lt_Some in Hnd.
  - by apply list_lookup_insert_ne.
Qed.

Lemma map_at_installed (r : DynamicRouter) (n : loc) (nd : node)
    (h : option Handler) (fs : list HttpFilter) (c : mapref) :
  nodes r !! n = Some nd → map_at (installed r n h fs) c = map_at r c.
Proof.
  intros Hnd. destruct c as [|n']; simpl.
  - by destruct (nodes_installed r n nd h fs Hnd) as (_ & -> & _).
  - rewrite (lookup_installed r n n' nd) by done.
    case_decide as Hn; [|done]. subst n'. by rewrite Hnd.
Qed.

Lemma same_shape_installed (r : DynamicRouter) (n : loc) (nd : node)
    (h : option Handler) (fs : list HttpFilter) :
  nodes r !! n = Some nd → same_shape (nodes (installed r n h fs)) (nodes r).
Proof. intros Hnd n'. apply (map_at_installed r n nd h fs (NodeMap n') Hnd). Qed.

Lemma grows_installed (r : DynamicRouter) (n : loc) (nd : node)
    (h : option Handler) (fs : list HttpFilter) :
  nodes r !! n = Some nd → handler nd = None → grows r (installed r n h fs).
Proof.
  intros Hnd Hnone.
  destruct (nodes_installed r n nd h fs Hnd) as (_ & Hr & Hc & Hf).
  split_and!; [by rewrite Hr | done | done |].
  intros n' nd' Hnd'. rewrite (lookup_installed r n n' nd) by done.
  case_decide as Hn.
  - subst n'. rewrite Hnd in Hnd'. injection Hnd' as <-.
    eexists. split; [done |]. split; [done |]. rewrite Hnone.
    by intros [? [=]].
  - exists nd'. done.
Qed.

Lemma grows_trans (r1 r2 r3 : DynamicRouter) :
  grows r1 r2 → grows r2 r3 → grows r1 r3.
Proof.
  intros (Hr & Hc & Hf & Hn) (Hr' & Hc' & Hf' & Hn').
  split_and!; [by etrans | congruence | congruence |].
  intros n nd Hnd. destruct (Hn n nd Hnd) as (nd2 & H2 & Hsub & Hh).
  destruct (Hn' n nd2 H2) as (nd3 & H3 & Hsub' & Hh').
  exists nd3. split_and!; [done | by etrans |].
  intros Hsome. destruct (Hh Hsome) as [E1 E2].
  destruct Hh' as [E3 E4]; [by rewrite E1 |]. split; congruence.
Qed.

Lemma registerHandler_grows (paths : list string) (h : option Handler)
    (fs : list HttpFilter) (r r' : DynamicRouter) (out : result unit) :
  registerHandler rng paths h fs r = (r', out) → grows r r'.
Proof.
  intros [(_ & -> & _)|[(_ & _ & -> & _)|(Hh & _ & r1 & wout & Hw & H)]]%registerHandler_inv;
    [apply extends_grows, extends_refl | apply extends_grows, extends_refl |].
  pose proof (extends_grows _ _ (walk_extends rng rng_ok _ _ _ _ _ _ Hw)) as Hg.
  destruct wout as [[cur' [n|]]|v]; [| by destruct H as [-> _].. ].
  destruct (nodes r1 !! n) as [nd|] eqn:Hnd; [|by destruct H as [-> _]].
  destruct (handler nd) eqn:Hhd; [by destruct H as [-> _] |].
  destruct H as [-> _]. eapply grows_trans; [done |]. by eapply grows_installed.
Qed.

Lemma registerHandler_trie_inv (paths : list string) (h : option Handler)
    (fs : list HttpFilter) (r r' : DynamicRouter) (out : result unit) :
  registerHandler rng paths h fs r = (r', out) → trie_inv r → trie_inv r'.
Proof.
  intros [(_ & -> & _)|[(_ & _ & -> & _)|(Hh & _ & r1 & wout & Hw & H)]]%registerHandler_inv
    Hinv; [done | done |].
  pose proof (walk_trie_inv rng rng_ok _ _ _ _ _ _ Hw Hinv) as Hinv1.
  destruct wout as [[cur' [n|]]|v]; [| by destruct H as [-> _].. ].
  destruct (nodes r1 !! n) as [nd|] eqn:Hnd; [|by destruct H as [-> _]].
  destruct (handler nd) eqn:Hhd; [by destruct H as [-> _] |].
  destruct H as [-> _]. intros c m Hm.
  rewrite (map_at_installed r1 n nd) in Hm by done. by eapply Hinv1.
Qed.

End RegisterHandlerFacts.

(** ** The tokens of a literal path *)

Lemma Join_head (c : ascii) (t : string) (ts : list string) (sep : ascii) :
  Join (String c t :: ts) sep = String c (Join (t :: ts) sep).
Proof. by destruct ts. Qed.

Lemma SplitPath_Join (toks : list string) :
  toks ≠ [] →
  Forall (λ t, t ≠ "" ∧ ContainsRune t slash = false) toks →
  SplitPath (Join toks slash) = toks ∧
  SplitPath ("/" +:+ Join toks slash) = toks.
Proof.
  intros Hne Hall.
  assert (Forall (λ t, ContainsRune t slash = false) toks) as Hns.
  { eapply Forall_impl; [done |]. by intros t [_ ?]. }
  assert (TrimSuffix (Join toks slash) "/" = Join toks slash) as Hsuf.
  { apply HasSuffix_false. unfold HasSuffix.
    destruct (strip_suffix "/" (Join toks slash)) as [u|] eqn:E; [|done].
    apply strip_suffix_Some in E. apply (f_equal (λ s, Split s slash)) in E.
    rewrite Split_Join in E by done.
    change (u +:+ "/") with (u +:+ String slash "") in E.
    rewrite Split_app in E.
    assert ("" ∈ toks) as Hin by (rewrite E; set_solver).
    rewrite Forall_forall in Hall. by destruct (Hall _ Hin). }
  split.
  - unfold SplitPath. destruct toks as [|t ts]; [done |].
    apply Forall_cons in Hall as [[Ht Hc] _]. destruct t as [|c t]; [done |].
    rewrite Join_head in *. cbn [ContainsRune] in Hc.
    apply orb_false_iff in Hc as [Hc _]. apply Ascii.eqb_neq in Hc.
    rewrite TrimPrefix_other_cons by done.
    rewrite Hsuf, <- Join_head. by apply Split_Join.
  - unfold SplitPath.
    change ("/" +:+ Join toks slash) with (String slash (Join toks slash)).
    rewrite TrimPrefix_slash_cons, Hsuf. by apply Split_Join.
Qed.

Lemma usable_SplitPath_tokens (pattern : string) :
  Forall (λ t, t ≠ "" ∧ ContainsRune t slash = false) (usable (SplitPath pattern)).
Proof.
  unfold usable, SplitPath. apply Forall_forall. intros t Hin.
  apply list_elem_of_In, filter_In in Hin as [Hin Ht]. split.
  - intros ->. done.
  - pose proof (Split_tokens_no_sep
                  (TrimSuffix (TrimPrefix pattern "/") "/") slash) as Hall.
    rewrite Forall_forall in Hall. apply Hall. by apply list_elem_of_In.
Qed.

(** ** Registering, then looking up *)

(** C1.  When registering a pattern with a handler succeeds, the tokens of
    the pattern that are not empty are a non-empty sequence, and looking
    them up, as a token sequence or as the literal path they spell (with or
    without a leading slash), returns the node on which [registerHandler]
    installed the handler and its filters; that node had no handler before.
    The iteration order of the lookup is arbitrary. *)
Theorem C1_register_then_lookup (rng rng' : range_order) (pattern : string)
    (h : Handler) (fs : list HttpFilter) (r r' : DynamicRouter) :
  range_ok rng →
  HandleFunc rng pattern (Some h) fs r = (r', Ok tt) →
  usable (SplitPath pattern) ≠ [] ∧
  ∃ n nd,
    (∃ r1 cur, walk rng (SplitPath pattern) RootMap None r = (r1, Ok (cur, Some n)) ∧
               (∀ nd1, nodes r1 !! n = Some nd1 → handler nd1 = None) ∧
               r' = installed r1 n (Some h) fs) ∧
    nodes r' !! n = Some nd ∧ handler nd = Some h ∧ filters nd = fs ∧
    parseTree rng' (nodes r') (root r') (usable (SplitPath pattern)) = Ok (Found n) ∧
    findEndpoint rng' r' (mkRequest (Join (usable (SplitPath pattern)) slash))
      = Ok (Found n) ∧
    findEndpoint rng' r' (mkRequest ("/" +:+ Join (usable (SplitPath pattern)) slash))
      = Ok (Found n).
Proof.
  intros Hrng Hreg. unfold HandleFunc in Hreg.
  destruct (registerHandler_ok_inv rng _ _ _ _ _ Hreg)
    as (r1 & cur & n & nd1 & _ & Hwalk & Hnd1 & Hnone & ->).
  assert (usable (SplitPath pattern) ≠ []) as Hne.
  { intros Hempty. rewrite walk_all_empty in Hwalk by done. done. }
  split; [done |].
  destruct (walk_parse rng rng' _ _ _ _ _ _ _ Hrng Hwalk Hne)
    as (n' & m & [= <-] & Hm & _ & _ & Hparse).
  simpl in Hm. injection Hm as <-.
  destruct (nodes_installed r1 n nd1 (Some h) fs Hnd1) as (_ & Hroot & _).
  assert (parseTree rng' (nodes (installed r1 n (Some h) fs))
            (root (installed r1 n (Some h) fs)) (usable (SplitPath pattern))
          = Ok (Found n)) as Hfound.
  { rewrite Hroot.
    rewrite (parseTree_same_shape rng' _ (nodes r1)); [done |].
    by eapply same_shape_installed. }
  destruct (SplitPath_Join (usable (SplitPath pattern)) Hne
              (usable_SplitPath_tokens pattern)) as [E1 E2].
  exists n, (mkNode (Some h) fs (children nd1)). split_and!.
  - exists r1, cur. split_and!; [done | | done]. intros nd Hnd. congruence.
  - rewrite (lookup_installed r1 n n nd1) by done. by rewrite decide_True.
  - done.
  - done.
  - done.
  - unfold findEndpoint. cbn [URL_Path]. by rewrite E1.
  - unfold findEndpoint. cbn [URL_Path]. by rewrite E2.
Qed.

(** The pattern ["/api//v1/:id/"], with an empty token, on the new router. *)
Lemma C1_register_then_lookup_witness :
  ∃ r', HandleFunc map_order "/api//v1/:id/" (Some ok_handler) [pass_filter]
          NewDynamicRouter = (r', Ok tt) ∧
        ∃ n nd, nodes r' !! n = Some nd ∧ handler nd = Some ok_handler ∧
                filters nd = [pass_filter] ∧
                findEndpoint map_order r' (mkRequest "/api/v1/:id") = Ok (Found n).
Proof.
  pose (r' := fst (HandleFunc map_order "/api//v1/:id/" (Some ok_handler)
                     [pass_filter] NewDynamicRouter)).
  assert (HandleFunc map_order "/api//v1/:id/" (Some ok_handler) [pass_filter]
            NewDynamicRouter = (r', Ok tt)) as H by (vm_compute; reflexivity).
  destruct (C1_register_then_lookup map_order map_order _ _ _ _ _ map_order_ok H)
    as (_ & n & nd & _ & Hnd & Hh & Hfs & _ & _ & Hfind).
  exists r'. split; [exact H |]. exists n, nd. split_and!; [done..|].
  exact Hfind.
Defined.

(** ** One dynamic child per level *)

Lemma trie_inv_new : trie_inv NewDynamicRouter.
Proof.
  intros [|n] m.
  - intros [= <-] k1 k2 l1 l2 H1. by rewrite lookup_empty in H1.
  - done.
Qed.

Lemma first_dynamic_Some (entries : list (string * loc)) (dn : loc) :
  first_dynamic entries = Some dn → ∃ p, (p, dn) ∈ entries ∧ dynamic p.
Proof.
  induction entries as [|[p l] rest IH]; [done |]. cbn [first_dynamic].
  destruct (HasPrefix p dynamic_marker) eqn:Hp.
  - intros [= ->]. exists p. split; [apply elem_of_cons; by left | done].
  - intros (p' & Hin & Hdyn)%IH. exists p'. split; [|done].
    apply elem_of_cons. by right.
Qed.

Lemma first_dynamic_None (entries : list (string * loc)) (p : string) (l : loc) :
  first_dynamic entries = None → (p, l) ∈ entries → ¬ dynamic p.
Proof.
  induction entries as [|[p' l'] rest IH]; [by intros _ ?%elem_of_nil |].
  cbn [first_dynamic]. destruct (HasPrefix p' dynamic_marker) eqn:Hp; [done |].
  intros Hnone [[= -> ->]|Hin]%elem_of_cons; [|by apply IH].
  unfold dynamic. congruence.
Qed.

(** With at most one dynamic key in the map, the dynamic fallback of the
    lookup finds the same node in whatever order it scans the map. *)
Lemma first_dynamic_order (m : gmap string loc) (l1 l2 : list (string * loc)) :
  one_dynamic m → l1 ≡ₚ map_to_list m → l2 ≡ₚ map_to_list m →
  first_dynamic l1 = first_dynamic l2.
Proof.
  intros Hone H1 H2.
  assert (∀ l p dn, l ≡ₚ map_to_list m → (p, dn) ∈ l → m !! p = Some dn) as Hin.
  { intros l p dn Hl. by rewrite Hl, elem_of_map_to_list. }
  destruct (first_dynamic l1) as [d1|] eqn:E1, (first_dynamic l2) as [d2|] eqn:E2;
    [| | | done].
  - apply first_dynamic_Some in E1 as (p1 & Hp1 & D1).
    apply first_dynamic_Some in E2 as (p2 & Hp2 & D2).
    apply (Hin _ _ _ H1) in Hp1. apply (Hin _ _ _ H2) in Hp2.
    assert (p1 = p2) as -> by (by eapply Hone). congruence.
  - apply first_dynamic_Some in E1 as (p1 & Hp1 & D1).
    destruct (first_dynamic_None l2 p1 d1 E2); [|done].
    rewrite H2, <- H1. done.
  - apply first_dynamic_Some in E2 as (p2 & Hp2 & D2).
    destruct (first_dynamic_None l1 p2 d2 E1); [|done].
    rewrite H1, <- H2. done.
Qed.

Lemma parseTree_order (rng1 rng2 : range_order) (r : DynamicRouter)
    (c : mapref) (m : gmap string loc) (path : list string) :
  range_ok rng1 → range_ok rng2 → trie_inv r → map_at r c = Some m →
  parseTree rng1 (nodes r) m path = parseTree rng2 (nodes r) m path.
Proof.
  intros H1 H2 Hinv. revert c m.
  induction path as [|p rest IH]; intros c m Hm; [done |].
  cbn [parseTree].
  rewrite (first_dynamic_order m (rng1 (length (p :: rest)) m)
             (rng2 (length (p :: rest)) m)) by eauto.
  destruct (match m !! p with
            | Some n => Some n
            | None =>
                match first_dynamic (rng2 (length (p :: rest)) m) with
                | Some dn => if nodes r !! dn is Some _ then Some dn else None
                | None => None
                end
            end) as [n|]; [|done].
  destruct rest as [|p' rest]; [done |].
  destruct (nodes r !! n) as [nd|] eqn:Hnd; [|done].
  apply (IH (NodeMap n)). simpl. by rewrite Hnd.
Qed.

(** C3.  The empty router has at most one dynamic child at every level and
    every registration, successful or not, keeps it so.  At a level that
    has a dynamic child, registering a dynamic token with another text
    panics with the dynamic-conflict message (a [RouteConflict]) and leaves
    the router as it is, while registering the token of an existing child
    steps into that child and allocates nothing.  Under the invariant the
    lookup returns the same result for every two iteration orders of the
    children maps. *)
Theorem C3_one_dynamic_child (rng rng' : range_order) (r : DynamicRouter) :
  range_ok rng → range_ok rng' → trie_inv r →
  trie_inv NewDynamicRouter ∧
  (∀ paths h fs r' out,
     registerHandler rng paths h fs r = (r', out) → trie_inv r') ∧
  (∀ i cur m k l path,
     map_at r cur = Some m → m !! k = Some l → dynamic k →
     dynamic path → k ≠ path →
     descend rng i path cur r = (r, Panic (PanicString msg_dynamic_conflict)) ∧
     classify (PanicString msg_dynamic_conflict) = Some RouteConflict) ∧
  (∀ i cur m path n,
     map_at r cur = Some m → m !! path = Some n → is_Some (nodes r !! n) →
     descend rng i path cur r = (r, Ok n)) ∧
  (∀ req, findEndpoint rng r req = findEndpoint rng' r req).
Proof.
  intros Hrng Hrng' Hinv. split_and!.
  - apply trie_inv_new.
  - intros paths h fs r' out Hreg.
    exact (registerHandler_trie_inv rng Hrng _ _ _ _ _ _ Hreg Hinv).
  - intros i cur m k l path Hm Hk Dk Dp Hne. split; [|done].
    exact (descend_conflict rng Hrng i path k l cur m r Hm Hk Dk Dp Hne).
  - intros i cur m path n Hm Hn Hv.
    apply (descend_existing rng Hrng i path n cur m r Hm); [|done|done].
    intros Dp k l Hk Dk. by eapply (Hinv cur m Hm).
  - intros req. unfold findEndpoint.
    by apply (parseTree_order rng rng' r RootMap).
Qed.

Lemma reverse_order_ok : range_ok reverse_order.
Proof. intros i m. apply reverse_Permutation. Qed.

(** ["/api/:id1/item"] on the new router: [":id2"] is refused below [api],
    [":id1"] is reused, and the lookup of ["/api/42/item"] does not depend
    on the order. *)
Lemma C3_one_dynamic_child_witness :
  ∃ r1 m, HandleFunc map_order "/api/:id1/item" (Some ok_handler) []
            NewDynamicRouter = (r1, Ok tt) ∧
          trie_inv r1 ∧
          map_at r1 (NodeMap 0) = Some m ∧ m !! ":id1" = Some 1 ∧
          descend map_order 2 ":id2" (NodeMap 0) r1
            = (r1, Panic (PanicString msg_dynamic_conflict)) ∧
          descend map_order 2 ":id1" (NodeMap 0) r1 = (r1, Ok 1) ∧
          findEndpoint map_order r1 (mkRequest "/api/42/item")
            = findEndpoint reverse_order r1 (mkRequest "/api/42/item").
Proof.
  pose (r1 := fst (HandleFunc map_order "/api/:id1/item" (Some ok_handler) []
                     NewDynamicRouter)).
  pose (m := default ∅ (map_at r1 (NodeMap 0))).
  assert (HandleFunc map_order "/api/:id1/item" (Some ok_handler) []
            NewDynamicRouter = (r1, Ok tt)) as Hreg by (vm_compute; reflexivity).
  assert (map_at r1 (NodeMap 0) = Some m) as Hm by (vm_compute; reflexivity).
  assert (m !! ":id1" = Some 1) as Hk by (vm_compute; reflexivity).
  destruct (C3_one_dynamic_child map_order reverse_order NewDynamicRouter
              map_order_ok reverse_order_ok trie_inv_new)
    as (_ & Hkeep & _).
  pose proof (Hkeep _ _ _ _ _ Hreg) as Hinv.
  destruct (C3_one_dynamic_child map_order reverse_order r1
              map_order_ok reverse_order_ok Hinv)
    as (_ & _ & Hconflict & Hreuse & Horder).
  exists r1, m. split_and!; [done | done | done | done | | |].
  - apply (Hconflict 2 (NodeMap 0) m ":id1" 1 ":id2" Hm Hk); done.
  - apply (Hreuse 2 (NodeMap 0) m ":id1" 1 Hm Hk). vm_compute. eauto.
  - apply Horder.
Defined.

(** ** Write once per path *)

Lemma registerHandler_twice (rng rng2 : range_order) (paths : list string)
    (h : option Handler) (fs : list HttpFilter) (r r1 : DynamicRouter)
    (h2 : Handler) (fs2 : list HttpFilter) :
  range_ok rng → range_ok rng2 →
  registerHandler rng paths h fs r = (r1, Ok tt) →
  registerHandler rng2 paths (Some h2) fs2 r1
  = (r1, Panic (PanicString msg_handler_conflict)).
Proof.
  intros Hrng Hrng2 Hreg.
  destruct (registerHandler_ok_inv rng _ _ _ _ _ Hreg)
    as (r0 & cur & n & nd & [h1 ->] & Hwalk & Hnd & Hnone & ->).
  assert (walk rng2 paths RootMap None (installed r0 n (Some h1) fs)
          = (installed r0 n (Some h1) fs, Ok (cur, Some n))) as Hagain.
  { eapply (walk_again rng rng2); [done | done | done |].
    intros c. by eapply map_at_installed. }
  unfold registerHandler. destruct paths as [|path rest]; [done |].
  change (length (path :: rest) <? 1) with false. cbv iota.
  unfold bind. rewrite Hagain. unfold deref. cbn [snd mbind option_bind].
  rewrite (lookup_installed r0 n n nd) by done. by rewrite decide_True.
Qed.

(** C6.  Whatever a registration does and however it ends, the router it
    leaves has every key of every children map of the router it found, with
    the same node under it, and every handler with its filters; and once a
    registration of some tokens has succeeded, registering the same tokens
    again panics with the message of the duplicate handler (a
    [RouteConflict]) and changes nothing. *)
Theorem C6_write_once (rng rng2 : range_order) (r : DynamicRouter) :
  range_ok rng → range_ok rng2 →
  (∀ paths h fs r' out,
     registerHandler rng paths h fs r = (r', out) → grows r r') ∧
  (∀ paths h fs r1 h2 fs2,
     registerHandler rng paths h fs r = (r1, Ok tt) →
     registerHandler rng2 paths (Some h2) fs2 r1
     = (r1, Panic (PanicString msg_handler_conflict)) ∧
     classify (PanicString msg_handler_conflict) = Some RouteConflict) ∧
  (∀ pattern h fs r1 h2 fs2,
     HandleFunc rng pattern h fs r = (r1, Ok tt) →
     HandleFunc rng2 pattern (Some h2) fs2 r1
     = (r1, Panic (PanicString msg_handler_conflict))).
Proof.
  intros Hrng Hrng2. split_and!.
  - intros paths h fs r' out Hreg.
    exact (registerHandler_grows rng Hrng _ _ _ _ _ _ Hreg).
  - intros paths h fs r1 h2 fs2 Hreg. split; [|done].
    exact (registerHandler_twice rng rng2 _ _ _ _ _ h2 fs2 Hrng Hrng2 Hreg).
  - intros pattern h fs r1 h2 fs2 Hreg.
    exact (registerHandler_twice rng rng2 _ _ _ _ _ h2 fs2 Hrng Hrng2 Hreg).
Qed.

(** ["/api/v1/item"] twice, then ["/api/v1/other"]. *)
Lemma C6_write_once_witness :
  ∃ r1 r2,
    HandleFunc map_order "/api/v1/item" (Some ok_handler) [] NewDynamicRouter
    = (r1, Ok tt) ∧
    HandleFunc reverse_order "/api/v1/item" (Some panicking_handler) [] r1
    = (r1, Panic (PanicString msg_handler_conflict)) ∧
    HandleFunc map_order "/api/v1/other" (Some panicking_handler) [] r1
    = (r2, Ok tt) ∧
    grows r1 r2.
Proof.
  pose (r1 := fst (HandleFunc map_order "/api/v1/item" (Some ok_handler) []
                     NewDynamicRouter)).
  pose (r2 := fst (HandleFunc map_order "/api/v1/other" (Some panicking_handler)
                     [] r1)).
  assert (HandleFunc map_order "/api/v1/item" (Some ok_handler) [] NewDynamicRouter
          = (r1, Ok tt)) as H1 by (vm_compute; reflexivity).
  assert (HandleFunc map_order "/api/v1/other" (Some panicking_handler) [] r1
          = (r2, Ok tt)) as H2 by (vm_compute; reflexivity).
  destruct (C6_write_once map_order reverse_order NewDynamicRouter
              map_order_ok reverse_order_ok) as (_ & _ & Htwice).
  destruct (C6_write_once map_order reverse_order r1
              map_order_ok reverse_order_ok) as (Hgrows & _).
  exists r1, r2. split_and!; [done | | done |].
  - exact (Htwice _ _ _ _ panicking_handler [] H1).
  - exact (Hgrows _ _ _ _ _ H2).
Defined.

(** ** Registrations that are refused at once *)

Lemma registerHandler_nil_handler (rng : range_order) (paths : list string)
    (fs : list HttpFilter) (r : DynamicRouter) :
  registerHandler rng paths None fs r = (r, Panic (PanicString msg_handler_nil)) ∧
  classify (PanicString msg_handler_nil) = Some InvalidRegistration.
Proof. done. Qed.

Lemma registerHandler_no_paths (rng : range_order) (h : Handler)
    (fs : list HttpFilter) (r : DynamicRouter) :
  registerHandler rng [] (Some h) fs r = (r, Panic (PanicString msg_path_nil)) ∧
  classify (PanicString msg_path_nil) = Some InvalidRegistration.
Proof. done. Qed.

Lemma SplitPath_nonempty (path : string) : SplitPath path ≠ [].
Proof. apply Split_nonempty. Qed.

Lemma registerHandler_no_usable_token (rng : range_order) (paths : list string)
    (h : Handler) (fs : list HttpFilter) (r : DynamicRouter) :
  paths ≠ [] → usable paths = [] →
  registerHandler rng paths (Some h) fs r
  = (r, Panic (PanicRuntime NilDereference)).
Proof.
  intros Hne Hempty. unfold registerHandler.
  destruct paths as [|path rest]; [done |].
  change (length (path :: rest) <? 1) with false. cbv iota.
  unfold bind. by rewrite walk_all_empty.
Qed.

(** C7, on the code.  A nil handler and an empty token slice are refused
    with the two [InvalidRegistration] panics and the router is left as it
    is.  But the tokens [SplitPath] makes of a pattern are never an empty
    slice: for the patterns ["/"] and [""], whose only token is empty, the
    loop skips the token, [n] is still nil after it and [n.handler] panics
    with a nil dereference, which is a run-time error and not one of the
    panics of [registerHandler]; the router is left as it is. *)
Theorem C7_no_usable_token_nil_dereference (rng : range_order) (h : Handler)
    (fs : list HttpFilter) (r : DynamicRouter) :
  HandleFunc rng "/" (Some h) fs r = (r, Panic (PanicRuntime NilDereference)) ∧
  HandleFunc rng "" (Some h) fs r = (r, Panic (PanicRuntime NilDereference)) ∧
  registerHandler rng [""] (Some h) fs r
  = (r, Panic (PanicRuntime NilDereference)) ∧
  classify (PanicRuntime NilDereference) ≠ Some InvalidRegistration.
Proof. done. Qed.

(** ** A registration that fails changes nothing *)

Section AllOrNothing.

Variable rng : range_order.
Hypothesis rng_ok : range_ok rng.

(** From a node just allocated the loop allocates all the way down. *)
Lemma walk_fresh (paths : list string) (r : DynamicRouter) (n : loc) :
  nodes r !! n = Some (mkNode None [] ∅) →
  ∃ r1 n1 nd1,
    walk rng paths (NodeMap n) (Some n) r = (r1, Ok (NodeMap n1, Some n1)) ∧
    nodes r1 !! n1 = Some nd1 ∧ handler nd1 = None.
Proof.
  revert r n. induction paths as [|path rest IH]; intros r n Hn; cbn [walk].
  - exists r, n, (mkNode None [] ∅). done.
  - destruct (String.eqb path ""); [by apply IH |].
    assert (map_at r (NodeMap n) = Some ∅) as Hm by (simpl; by rewrite Hn).
    unfold bind. rewrite (descend_new rng rng_ok _ path (NodeMap n) ∅ r Hm).
    + apply IH. apply nodes_add_child_new. by eapply map_at_not_new.
    + intros _ k l Hk. by rewrite lookup_empty in Hk.
    + apply lookup_empty.
    + by eapply map_at_not_new.
Qed.

(** The loop either has changed nothing, or has allocated and then ends
    normally on a node without handler. *)
Lemma walk_cases (paths : list string) (cur : mapref) (n : option loc)
    (r r' : DynamicRouter) (out : result (mapref * option loc)) :
  walk rng paths cur n r = (r', out) →
  r' = r ∨
  ∃ n1 nd1, out = Ok (NodeMap n1, Some n1) ∧
            nodes r' !! n1 = Some nd1 ∧ handler nd1 = None.
Proof.
  revert cur n r. induction paths as [|path rest IH]; intros cur n r; cbn [walk].
  - intros [= <- _]. by left.
  - destruct (String.eqb path ""); [apply IH |].
    unfold bind. destruct (descend _ _ _ _ r) as [ra [n'|v]] eqn:E.
    + apply (descend_inv rng rng_ok) in E
        as [(_ & v & [=] & _)|(m & Hm & Hag & H)].
      destruct H as [(n0 & _ & _ & -> & _)|(Hnone & -> & [= ->])]; [apply IH |].
      intros Hwalk. right.
      destruct (walk_fresh rest (add_child r cur path) (length (nodes r)))
        as (r1 & n1 & nd1 & Hw & Hnd1 & Hh1).
      { apply nodes_add_child_new. by eapply map_at_not_new. }
      rewrite Hw in Hwalk. injection Hwalk as <- <-. eauto.
    + intros [= <- _]. left.
      by apply (descend_inv rng rng_ok) in E
        as [(-> & _)|(m & _ & _ & [(? & _ & _ & _ & [=])|(_ & _ & [=])])].
Qed.

Lemma registerHandler_all_or_nothing (paths : list string) (h : option Handler)
    (fs : list HttpFilter) (r r' : DynamicRouter) (v : panic_value) :
  registerHandler rng paths h fs r = (r', Panic v) → r' = r.
Proof.
  intros [(_ & -> & _)|[(_ & _ & -> & _)|(Hh & _ & r1 & wout & Hw & H)]]%registerHandler_inv;
    [done | done |].
  destruct (walk_cases _ _ _ _ _ _ Hw) as [->|(n1 & nd1 & -> & Hnd1 & Hh1)].
  - destruct wout as [[cur' [n|]]|v']; [| by destruct H.. ].
    destruct (nodes r !! n) as [nd|]; [|by destruct H].
    destruct (handler nd); by destruct H.
  - rewrite Hnd1, Hh1 in H. by destruct H.
Qed.

End AllOrNothing.

(** ** No nil pointer in the trie: the lookup always returns *)

Section NoNil.

Variable rng : range_order.
Hypothesis rng_ok : range_ok rng.

Lemma no_nil_new : no_nil NewDynamicRouter.
Proof.
  intros [|n] m k l; [|done]. intros [= <-] Hk. by rewrite lookup_empty in Hk.
Qed.

Lemma no_nil_add_child (r : DynamicRouter) (cur : mapref) (path : string)
    (m : gmap string loc) :
  no_nil r → map_at r cur = Some m → no_nil (add_child r cur path).
Proof.
  intros Hnn Hm c m' k l Hc Hk.
  assert (∀ l', is_Some (nodes r !! l') →
                is_Some (nodes (add_child r cur path) !! l')) as Hold.
  { intros l' [nd Hnd].
    destruct (nodes_add_child_old r cur path l' nd Hnd) as (nd' & -> & _). done. }
  destruct (map_at_add_child_inv r cur c path m m' Hm Hc)
    as [[-> ->]|[[-> ->]|[_ Hc']]].
  - destruct (decide (path = k)) as [<-|Hne].
    + rewrite lookup_insert_eq in Hk. injection Hk as <-.
      rewrite nodes_add_child_new; [done | by eapply map_at_not_new].
    + rewrite lookup_insert_ne in Hk by done. apply Hold. by eapply Hnn.
  - by rewrite lookup_empty in Hk.
  - apply Hold. by eapply Hnn.
Qed.

Lemma walk_no_nil (paths : list string) (cur : mapref) (n : option loc)
    (r r' : DynamicRouter) (out : result (mapref * option loc)) :
  walk rng paths cur n r = (r', out) → no_nil r → no_nil r'.
Proof.
  revert cur n r. induction paths as [|path rest IH]; intros cur n r; cbn [walk].
  - by intros [= <- _].
  - destruct (String.eqb path ""); [apply IH |].
    unfold bind.
    assert (∀ ra o, descend rng (length (path :: rest)) path cur r = (ra, o) →
                    no_nil r → no_nil ra) as Hstep.
    { intros ra o [[-> _]|(m & Hm & _ & H)]%(descend_inv rng rng_ok) Hnn; [done |].
      destruct H as [(n0 & _ & _ & -> & _)|(_ & -> & _)]; [done |].
      by eapply no_nil_add_child. }
    destruct (descend _ _ _ _ r) as [ra [n'|v]] eqn:E.
    + intros H Hnn. eapply IH; [done |]. by eapply Hstep.
    + intros [= <- _]. by eapply Hstep.
Qed.

Lemma registerHandler_no_nil (paths : list string) (h : option Handler)
    (fs : list HttpFilter) (r r' : DynamicRouter) (out : result unit) :
  registerHandler rng paths h fs r = (r', out) → no_nil r → no_nil r'.
Proof.
  intros [(_ & -> & _)|[(_ & _ & -> & _)|(Hh & _ & r1 & wout & Hw & H)]]%registerHandler_inv
    Hnn; [done | done |].
  pose proof (walk_no_nil _ _ _ _ _ _ Hw Hnn) as Hnn1.
  destruct wout as [[cur' [n|]]|v]; [| by destruct H as [-> _].. ].
  destruct (nodes r1 !! n) as [nd|] eqn:Hnd; [|by destruct H as [-> _]].
  destruct (handler nd) eqn:Hhd; [by destruct H as [-> _] |].
  destruct H as [-> _]. intros c m k l Hm Hk.
  rewrite (map_at_installed r1 n nd) in Hm by done.
  destruct (Hnn1 c m k l Hm Hk) as [nd' Hnd'].
  rewrite (lookup_installed r1 n l nd) by done. by case_decide.
Qed.

End NoNil.

Lemma parseTree_returns (rng : range_order) (r : DynamicRouter) (c : mapref)
    (m : gmap string loc) (path : list string) :
  no_nil r → map_at r c = Some m → path ≠ [] →
  ∃ found, parseTree rng (nodes r) m path = Ok found.
Proof.
  intros Hnn. revert c m. induction path as [|p rest IH]; intros c m Hm Hne; [done |].
  cbn [parseTree].
  assert (∀ n, is_Some (nodes r !! n) →
            ∃ found, match rest with
                     | [] => Ok (Found n)
                     | _ :: _ =>
                         match nodes r !! n with
                         | Some nd => parseTree rng (nodes r) (children nd) rest
                         | None => Panic (PanicRuntime NilDereference)
                         end
                     end = Ok found) as Hnext.
  { intros n [nd Hnd]. destruct rest as [|p' rest]; [eauto |]. rewrite Hnd.
    apply (IH (NodeMap n)); [|done]. simpl. by rewrite Hnd. }
  destruct (m !! p) as [n|] eqn:Hp.
  - apply Hnext. by eapply Hnn.
  - destruct (first_dynamic _) as [dn|]; [|eauto].
    destruct (nodes r !! dn) as [nd|] eqn:Hdn; [|eauto].
    apply Hnext. by rewrite Hdn.
Qed.

(** On a trie without nil pointer, as registration builds them, the lookup
    of a request never panics. *)
Lemma findEndpoint_returns (rng : range_order) (r : DynamicRouter) (req : Request) :
  no_nil r → ∃ found, findEndpoint rng r req = Ok found.
Proof.
  intros Hnn. apply (parseTree_returns rng r RootMap); [done | done |].
  apply SplitPath_nonempty.
Qed.

(** ** The tokenizer and the trailing slash *)

Lemma HasPrefix_slash_false (c : ascii) (s : string) :
  HasPrefix (String c s) "/" = false → c ≠ slash.
Proof.
  unfold HasPrefix. cbn [strip_prefix]. intros H ->.
  change (Ascii.eqb "/" slash) with true in H. done.
Qed.

Lemma SplitPath_no_leading (s : string) :
  HasPrefix s "/" = false → SplitPath (s +:+ "/") = Split s slash.
Proof.
  intros H. unfold SplitPath. destruct s as [|c s]; [done |].
  rewrite append_cons, TrimPrefix_other_cons by (by eapply HasPrefix_slash_false).
  by rewrite <- append_cons, TrimSuffix_app.
Qed.

Lemma SplitPath_no_trailing (s : string) :
  HasSuffix s "/" = false → SplitPath ("/" +:+ s) = Split s slash.
Proof.
  intros H. unfold SplitPath. change ("/" +:+ s) with (String slash s).
  by rewrite TrimPrefix_slash_cons, HasSuffix_false.
Qed.

Lemma SplitPath_bare (s : string) :
  HasPrefix s "/" = false → HasSuffix s "/" = false →
  SplitPath s = Split s slash.
Proof.
  intros Hp Hs. unfold SplitPath. destruct s as [|c s]; [done |].
  rewrite TrimPrefix_other_cons by (by eapply HasPrefix_slash_false).
  by rewrite HasSuffix_false.
Qed.

(** C8, as the code has it.  [SplitPath] strips one leading slash when
    there is one, then one trailing slash when there is one, never more,
    and splits what is left at the slashes: the tokens have no slash and,
    joined by slashes, give back what was left.  The empty path has the
    single token [""].  A path that does not end in a slash and the same
    path followed by one slash have the same tokens, so the lookup of one
    is the lookup of the other in every router. *)
Theorem C8_tokenizer (s : string) :
  SplitPath "" = [""] ∧
  SplitPath ("/" +:+ s +:+ "/") = Split s slash ∧
  (HasPrefix s "/" = false → SplitPath (s +:+ "/") = Split s slash) ∧
  (HasSuffix s "/" = false → SplitPath ("/" +:+ s) = Split s slash) ∧
  (HasPrefix s "/" = false → HasSuffix s "/" = false →
   SplitPath s = Split s slash) ∧
  Join (SplitPath s) slash = TrimSuffix (TrimPrefix s "/") "/" ∧
  Forall (λ t, ContainsRune t slash = false) (SplitPath s) ∧
  (HasSuffix s "/" = false →
   SplitPath (s +:+ "/") = SplitPath s ∧
   ∀ rng r, findEndpoint rng r (mkRequest (s +:+ "/"))
            = findEndpoint rng r (mkRequest s)).
Proof.
  split_and!.
  - done.
  - apply SplitPath_strip_both.
  - apply SplitPath_no_leading.
  - apply SplitPath_no_trailing.
  - apply SplitPath_bare.
  - apply Join_Split.
  - apply Split_tokens_no_sep.
  - intros H. split; [by apply SplitPath_trailing_slash |].
    intros rng r. unfold findEndpoint. cbn [URL_Path].
    by rewrite SplitPath_trailing_slash.
Qed.

(** ["/api/v1/item"] and ["/api/v1/item/"]. *)
Lemma C8_tokenizer_witness :
  HasSuffix "/api/v1/item" "/" = false ∧
  SplitPath "/api/v1/item/" = ["api"; "v1"; "item"] ∧
  ∀ rng r, findEndpoint rng r (mkRequest "/api/v1/item/")
           = findEndpoint rng r (mkRequest "/api/v1/item").
Proof.
  assert (HasSuffix "/api/v1/item" "/" = false) as H by reflexivity.
  destruct (C8_tokenizer "/api/v1/item") as (_ & _ & _ & _ & _ & _ & _ & Hslash).
  destruct (Hslash H) as [Htok Hfind].
  split_and!; [exact H | exact Htok | exact Hfind].
Defined.

(** C8 without the condition on the path fails: with ["/a/"] registered,
    ["/a//"], which has one more trailing slash, has the tokens ["a"] and
    [""] and is not found. *)
Lemma C8_trailing_slash_counterexample :
  (∃ r', HandleFunc map_order "/a/" (Some ok_handler) [] NewDynamicRouter
         = (r', Ok tt) ∧
         findEndpoint map_order r' (mkRequest "/a/") = Ok (Found 0) ∧
         SplitPath "/a//" = ["a"; ""] ∧
         findEndpoint map_order r' (mkRequest "/a//")
         = Ok (NotFound msg_unknown_path)) ∧
  ¬ (∀ (pattern : string) (h : Handler) (r' : DynamicRouter) (n : loc),
       HandleFunc map_order pattern (Some h) [] NewDynamicRouter = (r', Ok tt) →
       findEndpoint map_order r' (mkRequest pattern) = Ok (Found n) →
       findEndpoint map_order r' (mkRequest (pattern +:+ "/")) = Ok (Found n)).
Proof.
  split.
  - eexists. split_and!; vm_compute; reflexivity.
  - intros H.
    specialize (H "/a/" ok_handler
                  (fst (HandleFunc map_order "/a/" (Some ok_handler) []
                          NewDynamicRouter)) 0).
    assert (Ok (NotFound msg_unknown_path) = Ok (Found 0)) as Habs; [|done].
    apply H; vm_compute; reflexivity.
Qed.

(** ** Dispatch *)

Section DispatchFacts.

Lemma flush_flushed (d : dispatch) : flush d = (flushed d, Ok tt).
Proof. reflexivity. Qed.

Lemma flushed_received (d : dispatch) :
  received (res (flushed d))
  = received (res d) ++ [SinkWriteHeader (status (w d)); SinkWrite (body (w d))].
Proof. unfold flushed. simpl. by rewrite <- app_assoc. Qed.

Lemma flushed_frame (d : dispatch) :
  w (flushed d) = w d ∧ effects (flushed d) = effects d ∧
  hijackable (res (flushed d)) = hijackable (res d).
Proof. done. Qed.

Lemma WriteHeader_with_status (code : Z) (d : dispatch) :
  WriteHeader code d = (with_status code d, Ok tt).
Proof. reflexivity. Qed.

Lemma with_status_frame (code : Z) (d : dispatch) :
  status (w (with_status code d)) = code ∧
  body (w (with_status code d)) = body (w d) ∧
  Hijacker (w (with_status code d)) = Hijacker (w d) ∧
  res (with_status code d) = res d ∧
  effects (with_status code d) = effects d.
Proof. done. Qed.

Lemma new_wrapper_entry (d : dispatch) : new_wrapper d = (entry d, Ok tt).
Proof.
  unfold entry, new_wrapper, bind, get, set_wrapper, modify, ret. simpl.
  by destruct (hijackable (res d)).
Qed.

Lemma entry_frame (d : dispatch) :
  w (entry d) = mkWrapper (if hijackable (res d) then Some Res else None)
                  StatusOK [] ∧
  res (entry d) = res d ∧ effects (entry d) = effects d.
Proof.
  unfold entry, new_wrapper, bind, get, set_wrapper, modify, ret. simpl.
  by destruct (hijackable (res d)).
Qed.

Lemma response_calls_app (l1 l2 : list sink_call) :
  response_calls (l1 ++ l2) = response_calls l1 ++ response_calls l2.
Proof. apply List.filter_app. Qed.

Lemma observed_status_response_calls (calls : list sink_call) :
  observed_status (response_calls calls) = observed_status calls.
Proof.
  induction calls as [|c calls IH]; [done |].
  destruct c; simpl; done.
Qed.

Lemma last_cons_default {A} (x y : A) (l : list A) :
  default x (last (y :: l)) = default y (last l).
Proof.
  destruct l as [|z l]; [done |]. rewrite last_cons_cons.
  destruct (last (z :: l)) eqn:E; [done |]. by apply last_None in E.
Qed.

Lemma last_app_default {A} (x : A) (l1 l2 : list A) :
  default x (last (l1 ++ l2)) = default (default x (last l1)) (last l2).
Proof.
  revert x. induction l1 as [|y l1 IH]; intros x; [done |].
  rewrite <- app_comm_cons, !last_cons_default. apply IH.
Qed.

Lemma buffered_refl (d : dispatch) : buffered [] d d.
Proof. done. Qed.

Lemma buffered_trans (ws1 ws2 : list (list Byte.byte)) (d1 d2 d3 : dispatch) :
  buffered ws1 d1 d2 → buffered ws2 d2 d3 → buffered (ws1 ++ ws2) d1 d3.
Proof.
  intros (H1 & H2 & H3 & H4) (H1' & H2' & H3' & H4').
  split_and!; [congruence | congruence | congruence |].
  by rewrite last_app_default, <- H4.
Qed.

Lemma run_wrapped_buffered {R} (s : script R) (d d' : dispatch) (out : result R) :
  run_wrapped s d = (d', out) →
  buffered (wrapper_writes s (Hijacker (w d))) d d'.
Proof.
  revert d. induction s as [r|v|code k IH|b k IH|key value k IH|k IH|k IH|tag k IH];
    intros d; cbn [run_wrapped wrapper_writes].
  - by intros [= <- _].
  - by intros [= <- _].
  - intros H%IH. destruct H as (H1 & H2 & H3 & H4). done.
  - intros H%IH. destruct H as (H1 & H2 & H3 & H4).
    split_and!; [done | done | done |]. by rewrite last_cons_default.
  - intros H%IH. destruct H as (H1 & H2 & H3 & H4).
    split_and!; [done | done | | done]. rewrite H3. simpl.
    rewrite response_calls_app. simpl. by rewrite app_nil_r.
  - apply IH.
  - unfold Hijack, get, bind. destruct (Hijacker (w d)) as [[]|] eqn:Hhj; cbn.
    + intros H%IH. destruct H as (H1 & H2 & H3 & H4). simpl in *.
      split_and!; [done | by rewrite H2 | | by rewrite Hhj in H4].
      rewrite H3, response_calls_app. simpl. by rewrite app_nil_r.
    + by intros [= <- _].
  - intros H%IH. destruct H as (H1 & H2 & H3 & H4). done.
Qed.

(** The loop over the filters: either a filter returned [false] and the
    buffer was flushed, or nothing was flushed. *)
Lemma run_filters_buffered (fs : list HttpFilter) (req : Request)
    (d d' : dispatch) (out : result bool) :
  run_filters fs req d = (d', out) →
  if out is Ok false
  then ∃ dz, d' = flushed dz ∧ buffered (filters_writes fs req d) d dz
  else buffered (filters_writes fs req d) d d'.
Proof.
  revert d. induction fs as [|f rest IH]; intros d; cbn [run_filters filters_writes].
  - intros [= <- <-]. rewrite app_nil_r || done.
  - unfold bind. destruct (run_wrapped (f req) d) as [d1 [[|]|v]] eqn:E.
    + intros H. apply run_wrapped_buffered in E. specialize (IH d1 H).
      destruct out as [[|]|v].
      * by eapply buffered_trans.
      * destruct IH as (dz & -> & Hb). exists dz. split; [done |].
        by eapply buffered_trans.
      * by eapply buffered_trans.
    + intros [= <- <-]. exists d1. split; [done |].
      rewrite app_nil_r. by apply run_wrapped_buffered in E.
    + intros [= <- <-]. rewrite app_nil_r. by apply run_wrapped_buffered in E.
Qed.

Lemma run_filters_passes (req : Request) (pre rest : list HttpFilter)
    (d d1 : dispatch) :
  passes req pre d d1 → run_filters (pre ++ rest) req d = run_filters rest req d1.
Proof.
  induction 1 as [d|f fs d d1 d2 Hf Hfs IH]; [done |].
  rewrite <- app_comm_cons. cbn [run_filters]. unfold bind. by rewrite Hf.
Qed.

Lemma passes_run_filters (req : Request) (fs : list HttpFilter) (d d1 : dispatch) :
  passes req fs d d1 ↔ run_filters fs req d = (d1, Ok true).
Proof.
  split.
  - intros H. rewrite <- (app_nil_r fs). by rewrite (run_filters_passes req fs [] d d1).
  - revert d. induction fs as [|f rest IH]; intros d; cbn [run_filters].
    + intros [= <-]. constructor.
    + unfold bind. destruct (run_wrapped (f req) d) as [d' [[|]|v]] eqn:E; [|done..].
      intros H. econstructor; [done | by apply IH].
Qed.

Variable rng : range_order.

Lemma ServeHTTP_unfold (r : DynamicRouter) (req : Request) (d : dispatch) :
  ServeHTTP rng r req d =
    match serve rng r req (entry d) with
    | (d1, Ok _) => (d1, Ok tt)
    | (d1, Panic _) =>
        (flushed (with_status StatusInternalServerError d1), Ok tt)
    end.
Proof.
  unfold ServeHTTP, bind. rewrite new_wrapper_entry. unfold defer_recover.
  by destruct (serve rng r req (entry d)) as [d1 [[]|v]].
Qed.

Lemma serve_found (r : DynamicRouter) (req : Request) (d : dispatch)
    (n : loc) (nd : node) (h : Handler) :
  findEndpoint rng r req = Ok (Found n) → nodes r !! n = Some nd →
  handler nd = Some h →
  serve rng r req d =
    match run_filters (filters nd) req d with
    | (d1, Ok true) =>
        match run_wrapped (h (ctx r) req) d1 with
        | (d2, Ok _) => (flushed d2, Ok tt)
        | (d2, Panic v) => (d2, Panic v)
        end
    | (d1, Ok false) => (d1, Ok tt)
    | (d1, Panic v) => (d1, Panic v)
    end.
Proof.
  intros Hfind Hnd Hh. unfold serve, bind, lift. rewrite Hfind, Hnd, Hh.
  destruct (run_filters (filters nd) req d) as [d1 [[|]|v]]; [|done..].
  by destruct (run_wrapped (h (ctx r) req) d1) as [d2 [[]|v]].
Qed.

Lemma serve_not_found (r : DynamicRouter) (req : Request) (d : dispatch)
    (err : string) :
  findEndpoint rng r req = Ok (NotFound err) →
  serve rng r req d =
    match fileServer r with
    | None => (flushed (with_status StatusNotFound d), Ok tt)
    | Some fs => run_direct (customFileServer.ServeHTTP fs req) d
    end.
Proof.
  intros Hfind. unfold serve, bind, lift. rewrite Hfind.
  by destruct (fileServer r).
Qed.

(** A dispatch to a node that has a handler ends with one flush of the
    buffer, and the sink has received no part of the response before it. *)
Lemma ServeHTTP_found (r : DynamicRouter) (req : Request) (d : dispatch)
    (n : loc) (nd : node) (h : Handler) :
  findEndpoint rng r req = Ok (Found n) → nodes r !! n = Some nd →
  handler nd = Some h →
  ∃ dz, ServeHTTP rng r req d = (flushed dz, Ok tt) ∧
        buffered (dispatch_writes (filters nd) h (ctx r) req (entry d))
          (entry d) dz.
Proof.
  intros Hfind Hnd Hh. rewrite ServeHTTP_unfold.
  rewrite (serve_found r req (entry d) n nd h) by done.
  unfold dispatch_writes.
  destruct (run_filters (filters nd) req (entry d)) as [d1 [[|]|v]] eqn:E1;
    apply run_filters_buffered in E1.
  - destruct (run_wrapped (h (ctx r) req) d1) as [d2 [[]|v]] eqn:E2;
      apply run_wrapped_buffered in E2.
    + exists d2. split; [done |]. by eapply buffered_trans.
    + exists (with_status StatusInternalServerError d2). split; [done |].
      pose proof (buffered_trans _ _ _ _ _ E1 E2) as (H1 & H2 & H3 & H4).
      done.
  - destruct E1 as (dz & -> & Hb). exists dz. split; [done |].
    by rewrite app_nil_r.
  - exists (with_status StatusInternalServerError d1). split; [done |].
    rewrite app_nil_r. destruct E1 as (H1 & H2 & H3 & H4). done.
Qed.

Lemma run_direct_wrapper {R} (s : script R) (d d' : dispatch) (out : result R) :
  run_direct s d = (d', out) → w d' = w d.
Proof.
  revert d. induction s as [r|v|code k IH|b k IH|key value k IH|k IH|k IH|tag k IH];
    intros d; cbn [run_direct].
  - by intros [= <- _].
  - by intros [= <- _].
  - by intros H%IH.
  - by intros H%IH.
  - by intros H%IH.
  - unfold bind, get. apply IH.
  - unfold get, bind. destruct (hijackable (res d)).
    + by intros H%IH.
    + by intros [= <- _].
  - by intros H%IH.
Qed.


(** No panic leaves [ServeHTTP], wherever it arose: in the lookup, in a
    filter, in the handler or in the file server. *)
Lemma ServeHTTP_returns (r : DynamicRouter) (req : Request) (d : dispatch) :
  snd (ServeHTTP rng r req d) = Ok tt.
Proof.
  rewrite ServeHTTP_unfold.
  by destruct (serve rng r req (entry d)) as [d1 [[]|v]].
Qed.

End DispatchFacts.

Section DispatchClaims.

Variable rng : range_order.

(** C2.  A request is dispatched to a node with a handler, and a filter
    (after the filters before it returned true) or the handler (after all
    filters returned true) panics, leaving the state [d1].  Then [ServeHTTP]
    returns normally; the buffered status has been set to 500; the sink
    receives, after what it had at the panic, [WriteHeader(500)] and a
    [Write] of the body buffered at the panic; these two calls are the only
    part of the response it has received since the dispatch began, so that
    a sink that had nothing before observes status 500. *)
Theorem C2_panic_gives_500 (r : DynamicRouter) (req : Request)
    (d d1 : dispatch) (n : loc) (nd : node) (h : Handler) (v : panic_value) :
  findEndpoint rng r req = Ok (Found n) → nodes r !! n = Some nd →
  handler nd = Some h →
  (∃ pre filter post dm,
     filters nd = pre ++ filter :: post ∧ passes req pre (entry d) dm ∧
     run_wrapped (filter req) dm = (d1, Panic v)) ∨
  (∃ dm, passes req (filters nd) (entry d) dm ∧
         run_wrapped (h (ctx r) req) dm = (d1, Panic v)) →
  ∃ d', ServeHTTP rng r req d = (d', Ok tt) ∧
        status (w d') = StatusInternalServerError ∧
        body (w d') = body (w d1) ∧
        effects d' = effects d1 ∧
        received (res d')
        = received (res d1) ++ [SinkWriteHeader StatusInternalServerError;
                                SinkWrite (body (w d1))] ∧
        response_calls (received (res d'))
        = response_calls (received (res d)) ++
          [SinkWriteHeader StatusInternalServerError; SinkWrite (body (w d1))] ∧
        (response_calls (received (res d)) = [] →
         observed_status (received (res d')) = Some StatusInternalServerError).
Proof.
  intros Hfind Hnd Hh Hpanic.
  exists (flushed (with_status StatusInternalServerError d1)).
  assert (serve rng r req (entry d) = (d1, Panic v) ∧
          response_calls (received (res d1)) = response_calls (received (res d)))
    as [Hserve Hcalls].
  { rewrite (serve_found rng r req (entry d) n nd h) by done.
    destruct (entry_frame d) as (_ & Hres & _).
    destruct Hpanic as [(pre & f & post & dm & Hfs & Hpre & Hf)|(dm & Hfs & Hh')].
    - rewrite Hfs, (run_filters_passes req pre (f :: post) _ dm Hpre).
      cbn [run_filters]. unfold bind. rewrite Hf. split; [done |].
      apply passes_run_filters, run_filters_buffered in Hpre as (_ & _ & H3 & _).
      apply run_wrapped_buffered in Hf as (_ & _ & H3' & _).
      rewrite H3', H3. by rewrite Hres.
    - apply passes_run_filters in Hfs. rewrite Hfs, Hh'. split; [done |].
      apply run_filters_buffered in Hfs as (_ & _ & H3 & _).
      apply run_wrapped_buffered in Hh' as (_ & _ & H3' & _).
      rewrite H3', H3. by rewrite Hres. }
  assert (response_calls
            (received (res (flushed (with_status StatusInternalServerError d1))))
          = response_calls (received (res d)) ++
            [SinkWriteHeader StatusInternalServerError; SinkWrite (body (w d1))])
    as Hresp.
  { rewrite flushed_received, response_calls_app, <- Hcalls. done. }
  split_and!.
  - by rewrite ServeHTTP_unfold, Hserve.
  - done.
  - done.
  - done.
  - by rewrite flushed_received.
  - done.
  - intros Hnone. rewrite <- observed_status_response_calls, Hresp, Hnone. done.
Qed.

(** C4.  A request is dispatched to a node with a handler.  The filters
    run in the order of [n.filters], each on the state the one before it
    left.  When the filters [pre] have returned true and the next one,
    [filter], returns false, [ServeHTTP] ends in the state that filter left,
    flushed: no later filter and no handler has run, and the sink receives,
    as the only part of the response, the status and body in the buffer
    after that filter.  When all filters have returned true, the handler is
    run with the context of the router and the request, and [ServeHTTP]
    ends in the state the handler left, flushed once. *)
Theorem C4_filter_chain (r : DynamicRouter) (req : Request) (d : dispatch)
    (n : loc) (nd : node) (h : Handler) :
  findEndpoint rng r req = Ok (Found n) → nodes r !! n = Some nd →
  handler nd = Some h →
  (∀ pre filter post d1 d2,
     filters nd = pre ++ filter :: post → passes req pre (entry d) d1 →
     run_wrapped (filter req) d1 = (d2, Ok false) →
     ServeHTTP rng r req d = (flushed d2, Ok tt) ∧
     effects (flushed d2) = effects d2 ∧
     response_calls (received (res (flushed d2)))
     = response_calls (received (res d)) ++
       [SinkWriteHeader (status (w d2)); SinkWrite (body (w d2))]) ∧
  (∀ d1 d2,
     passes req (filters nd) (entry d) d1 →
     run_wrapped (h (ctx r) req) d1 = (d2, Ok tt) →
     ServeHTTP rng r req d = (flushed d2, Ok tt) ∧
     effects (flushed d2) = effects d2 ∧
     response_calls (received (res (flushed d2)))
     = response_calls (received (res d)) ++
       [SinkWriteHeader (status (w d2)); SinkWrite (body (w d2))]).
Proof.
  intros Hfind Hnd Hh. destruct (entry_frame d) as (_ & Hres & _). split.
  - intros pre f post d1 d2 Hfs Hpre Hf. split_and!; [|done|].
    + rewrite ServeHTTP_unfold, (serve_found rng r req (entry d) n nd h) by done.
      rewrite Hfs, (run_filters_passes req pre (f :: post) _ d1 Hpre).
      cbn [run_filters]. unfold bind. by rewrite Hf.
    + rewrite flushed_received, response_calls_app.
      apply passes_run_filters, run_filters_buffered in Hpre as (_ & _ & H3 & _).
      apply run_wrapped_buffered in Hf as (_ & _ & H3' & _).
      by rewrite H3', H3, Hres.
  - intros d1 d2 Hfs Hrun. split_and!; [|done|].
    + rewrite ServeHTTP_unfold, (serve_found rng r req (entry d) n nd h) by done.
      apply passes_run_filters in Hfs. by rewrite Hfs, Hrun.
    + rewrite flushed_received, response_calls_app.
      apply passes_run_filters, run_filters_buffered in Hfs as (_ & _ & H3 & _).
      apply run_wrapped_buffered in Hrun as (_ & _ & H3' & _).
      by rewrite H3', H3, Hres.
Qed.

(** C5.  The lookup of the request fails.  Without a file server,
    [ServeHTTP] sets the buffered status to 404 and flushes: the sink
    receives [WriteHeader(404)] and a [Write] of the empty body and nothing
    else, and application code has had no effect.  With a file server, the
    file server runs on the sink itself: when it returns, [ServeHTTP] ends
    in the very state the file server left, in which the wrapper is as it
    was set up and has not been flushed; when it panics, the deferred
    function flushes the wrapper with status 500 after what the file
    server sent. *)
Theorem C5_lookup_failure (r : DynamicRouter) (req : Request) (d : dispatch)
    (err : string) :
  findEndpoint rng r req = Ok (NotFound err) →
  (fileServer r = None →
   ServeHTTP rng r req d = (flushed (with_status StatusNotFound (entry d)), Ok tt) ∧
   received (res (flushed (with_status StatusNotFound (entry d))))
   = received (res d) ++ [SinkWriteHeader StatusNotFound; SinkWrite []] ∧
   effects (flushed (with_status StatusNotFound (entry d))) = effects d) ∧
  (∀ fs d1 out,
     fileServer r = Some fs →
     run_direct (customFileServer.ServeHTTP fs req) (entry d) = (d1, out) →
     w d1 = w (entry d) ∧
     (out = Ok tt → ServeHTTP rng r req d = (d1, Ok tt)) ∧
     (∀ v, out = Panic v →
        ServeHTTP rng r req d
        = (flushed (with_status StatusInternalServerError d1), Ok tt))).
Proof.
  intros Hfind. destruct (entry_frame d) as (Hw & Hres & Heff). split.
  - intros Hnone. split_and!.
    + rewrite ServeHTTP_unfold, (serve_not_found rng r req _ err Hfind), Hnone.
      done.
    + rewrite flushed_received. destruct (with_status_frame StatusNotFound (entry d))
        as (-> & -> & _ & -> & _). by rewrite Hres, Hw.
    + done.
  - intros fs d1 out Hfs Hrun. split_and!.
    + by eapply run_direct_wrapper.
    + intros ->.
      by rewrite ServeHTTP_unfold, (serve_not_found rng r req _ err Hfind), Hfs, Hrun.
    + intros v ->.
      by rewrite ServeHTTP_unfold, (serve_not_found rng r req _ err Hfind), Hfs, Hrun.
Qed.

(** C10.  [Write] on the wrapper puts its argument in the buffer in place
    of what was there, and returns the length of the argument and no error,
    in every state.  A dispatch to a node with a handler ends with one
    flush, and what the sink receives as the response is the buffered
    status and, as the body, the argument of the last [Write] that the
    filters and the handler that ran made on the wrapper (the empty body
    when there was none). *)
Theorem C10_last_write_wins (r : DynamicRouter) (req : Request) (d : dispatch)
    (n : loc) (nd : node) (h : Handler) :
  (∀ b d0,
     Write b d0
     = (mkDispatch (mkWrapper (Hijacker (w d0)) (status (w d0)) b)
          (res d0) (effects d0),
        Ok (Z.of_nat (length b), None))) ∧
  (∀ d0, received (res (flushed d0))
         = received (res d0) ++
           [SinkWriteHeader (status (w d0)); SinkWrite (body (w d0))]) ∧
  (findEndpoint rng r req = Ok (Found n) → nodes r !! n = Some nd →
   handler nd = Some h →
   ∃ dz, ServeHTTP rng r req d = (flushed dz, Ok tt) ∧
         response_calls (received (res (flushed dz)))
         = response_calls (received (res d)) ++
           [SinkWriteHeader (status (w dz));
            SinkWrite (default []
                         (last (dispatch_writes (filters nd) h (ctx r) req
                                  (entry d))))]).
Proof.
  split_and!.
  - done.
  - apply flushed_received.
  - intros Hfind Hnd Hh.
    destruct (ServeHTTP_found rng r req d n nd h Hfind Hnd Hh)
      as (dz & Hserve & _ & _ & Hcalls & Hbody).
    exists dz. split; [done |].
    destruct (entry_frame d) as (Hw & Hres & _).
    rewrite flushed_received, response_calls_app, Hcalls, Hres, Hbody, Hw. done.
Qed.

End DispatchClaims.

(** The handler that writes 200 and a body and then panics, behind
    ["/tests/:testId"]. *)
Lemma C2_panic_gives_500_witness :
  ∃ r d',
    HandleFunc map_order "/tests/:testId" (Some panicking_handler) []
      NewDynamicRouter = (r, Ok tt) ∧
    ServeHTTP map_order r (mkRequest "/tests/1") (fresh true) = (d', Ok tt) ∧
    received (res d')
    = [SinkWriteHeader StatusInternalServerError; SinkWrite response_body] ∧
    observed_status (received (res d')) = Some StatusInternalServerError.
Proof.
  pose (r := fst (HandleFunc map_order "/tests/:testId" (Some panicking_handler)
                    [] NewDynamicRouter)).
  pose (req := mkRequest "/tests/1").
  pose (d1 := fst (run_wrapped (panicking_handler (ctx r) req)
                     (entry (fresh true)))).
  assert (HandleFunc map_order "/tests/:testId" (Some panicking_handler) []
            NewDynamicRouter = (r, Ok tt)) as Hreg by (vm_compute; reflexivity).
  assert (findEndpoint map_order r req = Ok (Found 1)) as Hfind
    by (vm_compute; reflexivity).
  assert (nodes r !! 1 = Some (mkNode (Some panicking_handler) [] ∅)) as Hnd
    by (vm_compute; reflexivity).
  assert (run_wrapped (panicking_handler (ctx r) req) (entry (fresh true))
          = (d1, Panic (PanicString "something really bad"))) as Hrun
    by (vm_compute; reflexivity).
  destruct (C2_panic_gives_500 map_order r req (fresh true) d1 1 _
              panicking_handler (PanicString "something really bad")
              Hfind Hnd eq_refl)
    as (d' & Hserve & _ & _ & _ & Hrecv & _ & Hobs).
  { right. exists (entry (fresh true)). split; [constructor | exact Hrun]. }
  exists r, d'. split_and!; [exact Hreg | exact Hserve | exact Hrecv |].
  by apply Hobs.
Defined.

(** A filter that passes, one that answers 401 and returns false, and one
    more: the third filter and the handler do not run.  With the first
    filter alone the handler runs. *)
Lemma C4_filter_chain_witness :
  ∃ r d' d'',
    HandleFunc map_order "/tests/:testId" (Some ok_handler)
      [pass_filter; unauthorized_filter; pass_filter] NewDynamicRouter
    = (r, Ok tt) ∧
    ServeHTTP map_order r (mkRequest "/tests/1") (fresh true) = (d', Ok tt) ∧
    received (res d') = [SinkWriteHeader StatusUnauthorized; SinkWrite []] ∧
    effects d' = ["filter passed"] ∧
    ServeHTTP map_order
      (fst (HandleFunc map_order "/ok" (Some ok_handler) [pass_filter] r))
      (mkRequest "/ok") (fresh true) = (d'', Ok tt) ∧
    received (res d'') = [SinkWriteHeader StatusOK; SinkWrite response_body] ∧
    effects d'' = ["filter passed"; "handler called"].
Proof.
  pose (r := fst (HandleFunc map_order "/tests/:testId" (Some ok_handler)
                    [pass_filter; unauthorized_filter; pass_filter]
                    NewDynamicRouter)).
  pose (r2 := fst (HandleFunc map_order "/ok" (Some ok_handler) [pass_filter] r)).
  pose (req := mkRequest "/tests/1").
  pose (d1 := fst (run_wrapped (pass_filter req) (entry (fresh true)))).
  pose (d2 := fst (run_wrapped (unauthorized_filter req) d1)).
  pose (d3 := fst (run_wrapped (ok_handler (ctx r2) (mkRequest "/ok")) d1)).
  assert (HandleFunc map_order "/tests/:testId" (Some ok_handler)
            [pass_filter; unauthorized_filter; pass_filter] NewDynamicRouter
          = (r, Ok tt)) as Hreg by (vm_compute; reflexivity).
  assert (findEndpoint map_order r req = Ok (Found 1)) as Hfind
    by (vm_compute; reflexivity).
  assert (nodes r !! 1
          = Some (mkNode (Some ok_handler)
                    [pass_filter; unauthorized_filter; pass_filter] ∅)) as Hnd
    by (vm_compute; reflexivity).
  assert (findEndpoint map_order r2 (mkRequest "/ok") = Ok (Found 2)) as Hfind2
    by (vm_compute; reflexivity).
  assert (nodes r2 !! 2 = Some (mkNode (Some ok_handler) [pass_filter] ∅)) as Hnd2
    by (vm_compute; reflexivity).
  assert (passes req [pass_filter] (entry (fresh true)) d1) as Hpass.
  { econstructor; [|constructor]. vm_compute. reflexivity. }
  destruct (C4_filter_chain map_order r req (fresh true) 1 _ ok_handler
              Hfind Hnd eq_refl) as [Hshort _].
  destruct (Hshort [pass_filter] unauthorized_filter [pass_filter] d1 d2
              eq_refl Hpass) as (Hserve & _ & _); [vm_compute; reflexivity |].
  destruct (C4_filter_chain map_order r2 (mkRequest "/ok") (fresh true) 2 _
              ok_handler Hfind2 Hnd2 eq_refl) as [_ Hall].
  assert (passes (mkRequest "/ok") [pass_filter] (entry (fresh true)) d1)
    as Hpass2.
  { econstructor; [|constructor]. vm_compute. reflexivity. }
  destruct (Hall d1 d3 Hpass2) as (Hserve2 & _ & _); [vm_compute; reflexivity |].
  exists r, (flushed d2), (flushed d3).
  split_and!; [exact Hreg | exact Hserve | reflexivity | reflexivity
              | exact Hserve2 | reflexivity | reflexivity].
Defined.

(** ["/toto/titi.html"] on a router that only has ["/tests/:testId"],
    without and with a file server. *)
Lemma C5_lookup_failure_witness :
  ∃ r d' d'',
    HandleFunc map_order "/tests/:testId" (Some ok_handler) [pass_filter]
      NewDynamicRouter = (r, Ok tt) ∧
    findEndpoint map_order r (mkRequest "/toto/titi.html")
    = Ok (NotFound msg_unknown_path) ∧
    ServeHTTP map_order r (mkRequest "/toto/titi.html") (fresh false)
    = (d', Ok tt) ∧
    received (res d') = [SinkWriteHeader StatusNotFound; SinkWrite []] ∧
    effects d' = [] ∧
    ServeHTTP map_order (ServeStaticAt sample_FileServer fixtures Spa r)
      (mkRequest "/toto/titi.html") (fresh false) = (d'', Ok tt) ∧
    received (res d'') = [SinkWriteHeader StatusOK; SinkWrite index_html] ∧
    w d'' = mkWrapper None StatusOK [].
Proof.
  pose (r := fst (HandleFunc map_order "/tests/:testId" (Some ok_handler)
                    [pass_filter] NewDynamicRouter)).
  pose (fs := customFileServer.mk fixtures (sample_FileServer fixtures) Spa).
  pose (req := mkRequest "/toto/titi.html").
  pose (d1 := fst (run_direct (customFileServer.ServeHTTP fs req)
                     (entry (fresh false)))).
  assert (HandleFunc map_order "/tests/:testId" (Some ok_handler) [pass_filter]
            NewDynamicRouter = (r, Ok tt)) as Hreg by (vm_compute; reflexivity).
  assert (findEndpoint map_order r req = Ok (NotFound msg_unknown_path)) as Hfind
    by (vm_compute; reflexivity).
  assert (findEndpoint map_order (ServeStaticAt sample_FileServer fixtures Spa r)
            req = Ok (NotFound msg_unknown_path)) as Hfind2
    by (vm_compute; reflexivity).
  destruct (C5_lookup_failure map_order r req (fresh false) _ Hfind)
    as [Hnone _].
  destruct (Hnone eq_refl) as (Hserve & Hrecv & Heff).
  destruct (C5_lookup_failure map_order
              (ServeStaticAt sample_FileServer fixtures Spa r) req (fresh false)
              _ Hfind2) as [_ Hsome].
  destruct (Hsome fs d1 (Ok tt) eq_refl) as (Hw & Hserve2 & _);
    [vm_compute; reflexivity |].
  eexists r, _, d1.
  split_and!; [exact Hreg | exact Hfind | exact Hserve | exact Hrecv | exact Heff
              | exact (Hserve2 eq_refl) | reflexivity | exact Hw].
Defined.

(** A handler that writes twice: the sink receives the second body only. *)
Lemma C10_last_write_wins_witness :
  ∃ r d',
    HandleFunc map_order "/tests" (Some two_writes_handler) [] NewDynamicRouter
    = (r, Ok tt) ∧
    ServeHTTP map_order r (mkRequest "/tests") (fresh false) = (d', Ok tt) ∧
    response_calls (received (res d'))
    = [SinkWriteHeader StatusOK; SinkWrite response_body].
Proof.
  pose (r := fst (HandleFunc map_order "/tests" (Some two_writes_handler) []
                    NewDynamicRouter)).
  pose (req := mkRequest "/tests").
  assert (HandleFunc map_order "/tests" (Some two_writes_handler) []
            NewDynamicRouter = (r, Ok tt)) as Hreg by (vm_compute; reflexivity).
  assert (findEndpoint map_order r req = Ok (Found 0)) as Hfind
    by (vm_compute; reflexivity).
  assert (nodes r !! 0 = Some (mkNode (Some two_writes_handler) [] ∅)) as Hnd
    by (vm_compute; reflexivity).
  destruct (C10_last_write_wins map_order r req (fresh false) 0
              (mkNode (Some two_writes_handler) [] ∅) two_writes_handler)
    as (_ & _ & Hlast).
  destruct (Hlast Hfind Hnd eq_refl) as (dz & Hserve & Hcalls).
  exists r, (flushed dz). split_and!; [exact Hreg | exact Hserve |].
  rewrite Hcalls.
  assert (status (w dz) = StatusOK) as ->; [|reflexivity].
  pose (dfin := fst (ServeHTTP map_order r req (fresh false))).
  assert (ServeHTTP map_order r req (fresh false) = (dfin, Ok tt)) as Hrun
    by (vm_compute; reflexivity).
  rewrite Hserve in Hrun.
  exact (f_equal (λ x, status (w (fst x))) Hrun).
Defined.

(** ** The hijacking capability *)

(** C9, on the code.  [ServeHTTP] fills the [Hijacker] field of the wrapper
    only when the sink is an [http.Hijacker], but the wrapper type has the
    method [Hijack] in either case: application code that asks whether its
    writer is an [http.Hijacker] is told yes on every wrapper (on the sink
    itself it is told the truth), and on a sink that is not one the call of
    [Hijack] then panics with a nil dereference.  A handler that hijacks
    when it is told it can ends, on such a sink, in a recovered panic and
    status 500. *)
Theorem C9_wrapper_always_claims_hijack :
  (∀ (R : Type) (k : bool → script R) (d : dispatch),
     run_wrapped (AssertHijacker k) d = run_wrapped (k true) d) ∧
  (∀ (R : Type) (k : bool → script R) (d : dispatch),
     run_direct (AssertHijacker k) d = run_direct (k (hijackable (res d))) d) ∧
  (∀ d, Hijacker (w (entry d)) = if hijackable (res d) then Some Res else None) ∧
  (∀ (R : Type) (k : script R) (wr : responseWrapper) (calls : list sink_call)
     (eff : list string),
     run_wrapped (CallHijack k) (entry (mkDispatch wr (mkSink false calls) eff))
     = (entry (mkDispatch wr (mkSink false calls) eff),
        Panic (PanicRuntime NilDereference))) ∧
  ∃ r d',
    HandleFunc map_order "/tests" (Some hijacking_handler) [] NewDynamicRouter
    = (r, Ok tt) ∧
    ServeHTTP map_order r (mkRequest "/tests") (fresh false) = (d', Ok tt) ∧
    received (res d')
    = [SinkWriteHeader StatusInternalServerError; SinkWrite []] ∧
    effects d' = [].
Proof.
  split_and!.
  - done.
  - done.
  - intros d. by destruct (entry_frame d) as (-> & _).
  - done.
  - eexists _, _. split_and!.
    + vm_compute. reflexivity.
    + vm_compute. reflexivity.
    + reflexivity.
    + reflexivity.
Qed.

(** On a sink that is an [http.Hijacker] the same handler takes over the
    connection. *)
Example hijacking_handler_on_hijackable_sink :
  ∃ r d',
    HandleFunc map_order "/tests" (Some hijacking_handler) [] NewDynamicRouter
    = (r, Ok tt) ∧
    ServeHTTP map_order r (mkRequest "/tests") (fresh true) = (d', Ok tt) ∧
    received (res d') = [SinkHijack; SinkWriteHeader StatusOK; SinkWrite []] ∧
    effects d' = ["hijacked"].
Proof.
  eexists _, _. split_and!.
  - vm_compute. reflexivity.
  - vm_compute. reflexivity.
  - reflexivity.
  - reflexivity.
Qed.

(** ** The tests of the package, on the model *)

(** [TestRegisterHandlerWithStaticRoute] and
    [TestRegisterHandlerWithEmptyPartOfPath]: one node per token that is
    not empty, the handler on the last. *)
Example register_static_route :
  ∃ r, registerHandler map_order ["api"; "v1"; "team"] (Some ok_handler) []
         NewDynamicRouter = (r, Ok tt) ∧
       registerHandler map_order ["api"; "v1"; ""; "team"] (Some ok_handler) []
         NewDynamicRouter = (r, Ok tt) ∧
       root r = {["api" := 0]} ∧
       children <$> nodes r = [{["v1" := 1]}; {["team" := 2]}; ∅] ∧
       handler <$> nodes r = [None; None; Some ok_handler].
Proof.
  eexists. split_and!; [vm_compute; reflexivity | vm_compute; reflexivity | |
                        vm_compute; reflexivity | reflexivity].
  apply map_eq. intros k. vm_compute. reflexivity.
Qed.

(** [TestRegisterHandlerWithDynamicPartOfPath]: the same dynamic token
    twice at one level is one node. *)
Example register_same_dynamic_token :
  ∃ r1 r2,
    registerHandler map_order ["api"; ":someId1"; "item1"] (Some ok_handler) []
      NewDynamicRouter = (r1, Ok tt) ∧
    registerHandler map_order ["api"; ":someId1"; "item2"]
      (Some panicking_handler) [] r1 = (r2, Ok tt) ∧
    length (nodes r2) = 4 ∧
    findEndpoint reverse_order r2 (mkRequest "/api/7/item1") = Ok (Found 2) ∧
    findEndpoint reverse_order r2 (mkRequest "/api/7/item2") = Ok (Found 3).
Proof.
  eexists _, _. split_and!; vm_compute; reflexivity.
Qed.

(** [TestRegisterHandlerWithConflictOnDynamicPartOfPath] *)
Example register_other_dynamic_token :
  ∃ r1,
    registerHandler map_order ["api"; ":someId1"; "item1"] (Some ok_handler) []
      NewDynamicRouter = (r1, Ok tt) ∧
    registerHandler map_order ["api"; ":someId2"; "item2"] (Some ok_handler) []
      r1 = (r1, Panic (PanicString msg_dynamic_conflict)).
Proof.
  eexists. split; vm_compute; reflexivity.
Qed.

(** [TestFindEndpointOnStaticRoute] and [TestFindEndpointOnDynamicRoute],
    on tries written down by hand. *)
Example find_endpoint_static_route :
  findEndpoint map_order
    (mkRouter {["api" := 0]} Background None
       [mkNode None [] {["v1" := 1]}; mkNode None [] {["item" := 2]};
        mkNode (Some ok_handler) [] ∅])
    (mkRequest "/api/v1/item/") = Ok (Found 2).
Proof. vm_compute. reflexivity. Qed.

Example find_endpoint_dynamic_route :
  findEndpoint map_order
    (mkRouter {["api" := 0]} Background None
       [mkNode None [] {["v1" := 1]}; mkNode None [] {["item" := 2]};
        mkNode None [] {[":itemId" := 3]}; mkNode (Some ok_handler) [] ∅])
    (mkRequest "/api/v1/item/12345") = Ok (Found 3).
Proof. vm_compute. reflexivity. Qed.

(** [TestDynamicRoute200], [TestDynamicRouteFilter] and a request for a path
    that no route matches. *)
Example serve_200_401_404 :
  ∃ r1 r2,
    HandleFunc map_order "/tests/:testId" (Some ok_handler) [] NewDynamicRouter
    = (r1, Ok tt) ∧
    HandleFunc map_order "/guarded/:testId" (Some ok_handler) [unauthorized_filter]
      r1 = (r2, Ok tt) ∧
    received (res (fst (ServeHTTP map_order r2 (mkRequest "/tests/1") (fresh true))))
    = [SinkWriteHeader StatusOK; SinkWrite response_body] ∧
    received (res (fst (ServeHTTP map_order r2 (mkRequest "/guarded/1") (fresh true))))
    = [SinkWriteHeader StatusUnauthorized; SinkWrite []] ∧
    effects (fst (ServeHTTP map_order r2 (mkRequest "/guarded/1") (fresh true)))
    = [] ∧
    received (res (fst (ServeHTTP map_order r2 (mkRequest "/other") (fresh true))))
    = [SinkWriteHeader StatusNotFound; SinkWrite []].
Proof.
  eexists _, _. split_and!; vm_compute; reflexivity.
Qed.

(** [containsDotDot] looks for a path element that is two dots. *)
Example containsDotDot_examples :
  containsDotDot "/a/../b" = true ∧ containsDotDot "/a/..b/c" = false ∧
  containsDotDot "/a/b" = false ∧ containsDotDot ".." = true.
Proof. split_and!; reflexivity. Qed.

(** [TestServeStaticClassique404] and the same request in the other mode;
    a path with a [..] element is refused with 400 in both. *)
Example serve_static :
  ∃ r,
    HandleFunc map_order "/tests/:testId" (Some ok_handler) [] NewDynamicRouter
    = (r, Ok tt) ∧
    observed_status
      (received (res (fst (ServeHTTP map_order
                             (ServeStaticAt sample_FileServer fixtures Classic r)
                             (mkRequest "/toto/titi.html") (fresh true)))))
    = Some StatusNotFound ∧
    observed_status
      (received (res (fst (ServeHTTP map_order
                             (ServeStaticAt sample_FileServer fixtures Spa r)
                             (mkRequest "/toto/titi.html") (fresh true)))))
    = Some StatusOK ∧
    observed_status
      (received (res (fst (ServeHTTP map_order
                             (ServeStaticAt sample_FileServer fixtures Spa r)
                             (mkRequest "/toto/../titi.html") (fresh true)))))
    = Some StatusBadRequest.
Proof.
  eexists. split_and!; vm_compute; reflexivity.
Qed.

(** * Further properties of the code *)

(** ** Registration does not depend on the iteration order, nor on empty tokens *)

Section RegistrationOrder.

Variables rng1 rng2 : range_order.
Hypothesis rng1_ok : range_ok rng1.
Hypothesis rng2_ok : range_ok rng2.

(** [descend] computed without the iteration order. *)
Lemma descend_eval (i : nat) (path : string) (cur : mapref) (r : DynamicRouter) :
  descend rng1 i path cur r =
    match map_at r cur with
    | None => (r, Panic (PanicRuntime NilDereference))
    | Some m =>
        if decide (dynamic path ∧ ¬ dyn_agree m path)
        then (r, Panic (PanicString msg_dynamic_conflict))
        else match m !! path with
             | Some n =>
                 (r, if nodes r !! n is Some _ then Ok n
                     else Panic (PanicRuntime NilDereference))
             | None => (add_child r cur path, Ok (length (nodes r)))
             end
    end.
Proof.
  destruct (map_at r cur) as [m|] eqn:Hm.
  2:{ unfold descend, bind. by rewrite load_map_at, Hm. }
  destruct (decide (dynamic path ∧ ¬ dyn_agree m path)) as [[Hp Hna]|Hok].
  - unfold descend, bind. rewrite load_map_at, Hm, Hp.
    destruct (check_dynamic_cases path (rng1 i m) r) as [[_ Hall]|[-> _]]; [|done].
    destruct Hna. intros k l Hk Hdyn. apply (Hall k l); [|done].
    by apply elem_of_range.
  - assert (dynamic path → dyn_agree m path) as Hagree.
    { intros Hp. destruct (decide (dyn_agree m path)); [done |]. by destruct Hok. }
    destruct (m !! path) as [n|] eqn:Hn.
    + destruct (nodes r !! n) as [nd|] eqn:Hnd.
      * by rewrite (descend_existing rng1 rng1_ok i path n cur m) by eauto.
      * unfold descend, bind. rewrite load_map_at, Hm.
        assert ((if HasPrefix path dynamic_marker
                 then check_dynamic path (rng1 i m) else ret tt) r = (r, Ok tt))
          as ->.
        { destruct (HasPrefix path dynamic_marker) eqn:Hpath; [|done].
          by apply check_dynamic_agree, Hagree. }
        rewrite Hn. unfold ret, deref. simpl. by rewrite Hnd.
    + by rewrite (descend_new rng1 rng1_ok i path cur m)
        by eauto using map_at_not_new.
Qed.

End RegistrationOrder.

Lemma descend_order (rng1 rng2 : range_order) (i j : nat) (path : string)
    (cur : mapref) (r : DynamicRouter) :
  range_ok rng1 → range_ok rng2 →
  descend rng1 i path cur r = descend rng2 j path cur r.
Proof. intros H1 H2. by rewrite (descend_eval rng1 H1), (descend_eval rng2 H2). Qed.

Lemma usable_idemp (paths : list string) : usable (usable paths) = usable paths.
Proof.
  induction paths as [|path rest IH]; [done |]. rewrite usable_cons.
  destruct (String.eqb path "") eqn:E; [done |]. by rewrite usable_cons, E, IH.
Qed.

Lemma walk_usable (rng1 rng2 : range_order) (paths : list string) (cur : mapref)
    (n : option loc) (r : DynamicRouter) :
  range_ok rng1 → range_ok rng2 →
  walk rng1 paths cur n r = walk rng2 (usable paths) cur n r.
Proof.
  intros H1 H2. revert cur n r.
  induction paths as [|path rest IH]; intros cur n r; [done |].
  rewrite usable_cons. cbn [walk]. destruct (String.eqb path "") eqn:E; [apply IH |].
  cbn [walk]. rewrite E. unfold bind.
  rewrite (descend_order rng1 rng2 _ (length (path :: usable rest)) path cur r H1 H2).
  destruct (descend rng2 _ path cur r) as [ra [n'|v]]; [apply IH | done].
Qed.

Lemma registerHandler_usable (rng1 rng2 : range_order) (paths : list string)
    (h : option Handler) (fs : list HttpFilter) (r : DynamicRouter) :
  range_ok rng1 → range_ok rng2 → usable paths ≠ [] →
  registerHandler rng1 paths h fs r = registerHandler rng2 (usable paths) h fs r.
Proof.
  intros H1 H2 Hne. unfold registerHandler. destruct h as [h|]; [|done].
  destruct paths as [|p ps]; [done |].
  destruct (usable (p :: ps)) as [|t ts] eqn:E; [done |].
  change (length (p :: ps) <? 1) with false.
  change (length (t :: ts) <? 1) with false. cbv iota.
  unfold bind. rewrite (walk_usable rng1 rng2 (p :: ps)) by done. by rewrite E.
Qed.

Lemma registerHandler_order (rng1 rng2 : range_order) (paths : list string)
    (h : option Handler) (fs : list HttpFilter) (r : DynamicRouter) :
  range_ok rng1 → range_ok rng2 →
  registerHandler rng1 paths h fs r = registerHandler rng2 paths h fs r.
Proof.
  intros H1 H2. unfold registerHandler. destruct h as [h|]; [|done].
  destruct paths as [|p ps]; [done |].
  change (length (p :: ps) <? 1) with false. cbv iota. unfold bind.
  by rewrite (walk_usable rng1 rng2 (p :: ps)), <- (walk_usable rng2 rng2 (p :: ps)).
Qed.

(** X1.  Registration does not depend on the order in which Go iterates
    over the children maps in the loop that looks for another dynamic
    token: under any two iteration orders [registerHandler] leaves the same
    router and ends the same way (returns, or panics with the same value). *)
Theorem X1_registerHandler_order_independent (rng1 rng2 : range_order)
    (paths : list string) (h : option Handler) (fs : list HttpFilter)
    (r : DynamicRouter) :
  range_ok rng1 → range_ok rng2 →
  registerHandler rng1 paths h fs r = registerHandler rng2 paths h fs r.
Proof. apply registerHandler_order. Qed.

(** [":b"] below ["api"], where [":a"] and ["x"] are, in the two orders. *)
Lemma X1_registerHandler_order_independent_witness :
  range_ok map_order ∧ range_ok reverse_order ∧
  registerHandler map_order ["api"; ":b"] (Some ok_handler) []
    (register_all map_order [("/api/:a", Some ok_handler, []);
                             ("/api/x", Some ok_handler, [])] NewDynamicRouter)
  = registerHandler reverse_order ["api"; ":b"] (Some ok_handler) []
      (register_all map_order [("/api/:a", Some ok_handler, []);
                               ("/api/x", Some ok_handler, [])] NewDynamicRouter).
Proof.
  split_and!; [apply map_order_ok | apply reverse_order_ok |].
  apply (X1_registerHandler_order_independent map_order reverse_order
           ["api"; ":b"] (Some ok_handler) [] _ map_order_ok reverse_order_ok).
Defined.

Lemma HandleFunc_tokens (rng1 rng2 : range_order) (p1 p2 : string)
    (h : option Handler) (fs : list HttpFilter) (r : DynamicRouter) :
  range_ok rng1 → range_ok rng2 →
  usable (SplitPath p1) = usable (SplitPath p2) →
  HandleFunc rng1 p1 h fs r = HandleFunc rng2 p2 h fs r.
Proof.
  intros H1 H2 Heq. unfold HandleFunc.
  destruct (usable (SplitPath p1)) as [|t ts] eqn:E.
  - unfold registerHandler. destruct h as [h|]; [|done].
    pose proof (SplitPath_nonempty p1). pose proof (SplitPath_nonempty p2).
    destruct (SplitPath p1) as [|a l1] eqn:E1; [done |].
    destruct (SplitPath p2) as [|b l2] eqn:E2; [done |].
    change (length (a :: l1) <? 1) with false.
    change (length (b :: l2) <? 1) with false. cbv iota.
    unfold bind. by rewrite !walk_all_empty.
  - rewrite (registerHandler_usable rng1 rng2 (SplitPath p1)) by (done || by rewrite E).
    rewrite (registerHandler_usable rng2 rng2 (SplitPath p2)) by (done || by rewrite <- Heq).
    by rewrite E, Heq.
Qed.

(** X2.  Registration skips the empty tokens: two patterns with the same
    tokens once the empty ones are left out, such as ["/a//b/"] and ["a/b"],
    register the same route, that is, [HandleFunc] leaves the same router
    and ends the same way for both (when no token is left, in the same nil
    dereference). *)
Theorem X2_HandleFunc_same_tokens (rng1 rng2 : range_order) (p1 p2 : string)
    (h : option Handler) (fs : list HttpFilter) (r : DynamicRouter) :
  range_ok rng1 → range_ok rng2 →
  usable (SplitPath p1) = usable (SplitPath p2) →
  HandleFunc rng1 p1 h fs r = HandleFunc rng2 p2 h fs r.
Proof. apply HandleFunc_tokens. Qed.

Lemma X2_HandleFunc_same_tokens_witness :
  usable (SplitPath "/a//b/") = usable (SplitPath "a/b") ∧
  HandleFunc map_order "/a//b/" (Some ok_handler) [pass_filter] NewDynamicRouter
  = HandleFunc reverse_order "a/b" (Some ok_handler) [pass_filter] NewDynamicRouter.
Proof.
  split; [reflexivity |].
  apply (X2_HandleFunc_same_tokens map_order reverse_order "/a//b/" "a/b"
           (Some ok_handler) [pass_filter] NewDynamicRouter
           map_order_ok reverse_order_ok).
  reflexivity.
Defined.

(** ** Failing registrations, and the routers registration builds *)

(** X3.  A registration that panics, for whatever reason, leaves the
    router as it found it: it has allocated no node and inserted no key,
    because once the loop has allocated a node everything below it is new
    and nothing is left that can conflict. *)
Theorem X3_registerHandler_all_or_nothing (rng : range_order)
    (paths : list string) (h : option Handler) (fs : list HttpFilter)
    (r r' : DynamicRouter) (v : panic_value) :
  range_ok rng →
  registerHandler rng paths h fs r = (r', Panic v) → r' = r.
Proof. intros Hrng. by apply registerHandler_all_or_nothing. Qed.

(** A new route below an existing one, refused for its dynamic token. *)
Lemma X3_registerHandler_all_or_nothing_witness :
  ∃ r r',
    r = register_all map_order [("/api/:a/x", Some ok_handler, [])]
          NewDynamicRouter ∧
    registerHandler map_order ["api"; ":b"; "x"; "y"] (Some ok_handler) [] r
    = (r', Panic (PanicString msg_dynamic_conflict)) ∧
    r' = r.
Proof.
  pose (r := register_all map_order [("/api/:a/x", Some ok_handler, [])]
               NewDynamicRouter).
  pose (r' := fst (registerHandler map_order ["api"; ":b"; "x"; "y"]
                     (Some ok_handler) [] r)).
  assert (registerHandler map_order ["api"; ":b"; "x"; "y"] (Some ok_handler) [] r
          = (r', Panic (PanicString msg_dynamic_conflict))) as H
    by (vm_compute; reflexivity).
  exists r, r'. split_and!; [reflexivity | exact H |].
  exact (X3_registerHandler_all_or_nothing map_order _ _ _ _ _ _ map_order_ok H).
Defined.

Lemma built_no_nil (rng : range_order) (r : DynamicRouter) :
  range_ok rng → built rng r → no_nil r.
Proof.
  intros Hrng. induction 1 as [|r pattern h fs Hb IH|r F dir mode Hb IH].
  - apply no_nil_new.
  - unfold HandleFunc.
    destruct (registerHandler rng (SplitPath pattern) h fs r) as [r' out] eqn:E.
    by eapply (registerHandler_no_nil rng Hrng).
  - intros c m k l Hm Hk. apply (IH c m k l); [|done]. by destruct c.
Qed.

Lemma built_trie_inv (rng : range_order) (r : DynamicRouter) :
  range_ok rng → built rng r → trie_inv r.
Proof.
  intros Hrng. induction 1 as [|r pattern h fs Hb IH|r F dir mode Hb IH].
  - apply trie_inv_new.
  - unfold HandleFunc.
    destruct (registerHandler rng (SplitPath pattern) h fs r) as [r' out] eqn:E.
    by eapply (registerHandler_trie_inv rng Hrng).
  - intros c m Hm. apply (IH c m). by destruct c.
Qed.

(** X4.  On a router made with [NewDynamicRouter], [HandleFunc] and
    [ServeStaticAt], the lookup of a request never panics: for every
    request path and every iteration order [findEndpoint] returns a node or
    the error of the unknown path; and the result is the same under every
    two iteration orders. *)
Theorem X4_findEndpoint_returns (rng rng1 rng2 : range_order)
    (r : DynamicRouter) (req : Request) :
  range_ok rng → range_ok rng1 → range_ok rng2 → built rng r →
  (∃ found, findEndpoint rng1 r req = Ok found) ∧
  findEndpoint rng1 r req = findEndpoint rng2 r req.
Proof.
  intros Hrng H1 H2 Hb. split.
  - apply findEndpoint_returns. exact (built_no_nil rng r Hrng Hb).
  - unfold findEndpoint.
    exact (parseTree_order rng1 rng2 r RootMap (root r) _ H1 H2
             (built_trie_inv rng r Hrng Hb) eq_refl).
Qed.

Lemma X4_findEndpoint_returns_witness :
  ∃ r, built map_order r ∧
       findEndpoint reverse_order r (mkRequest "//api///") = Ok (Found 3) ∧
       findEndpoint map_order r (mkRequest "//api///") = Ok (Found 3).
Proof.
  pose (r := fst (HandleFunc map_order "/:x/api/:y/:z" (Some ok_handler) []
                    (ServeStaticAt sample_FileServer fixtures Spa
                       NewDynamicRouter))).
  assert (built map_order r) as Hb by (repeat constructor).
  destruct (X4_findEndpoint_returns map_order reverse_order map_order r
              (mkRequest "//api///") map_order_ok reverse_order_ok map_order_ok Hb)
    as [[found Hfound] Heq].
  exists r. split_and!; [exact Hb | vm_compute; reflexivity |].
  rewrite <- Heq. vm_compute. reflexivity.
Defined.

Section BuiltRegistration.

Variable rng : range_order.
Hypothesis rng_ok : range_ok rng.

Lemma walk_no_runtime_panic (paths : list string) (cur : mapref)
    (n : option loc) (r r' : DynamicRouter)
    (out : result (mapref * option loc)) :
  no_nil r → is_Some (map_at r cur) →
  walk rng paths cur n r = (r', out) →
  out = Panic (PanicString msg_dynamic_conflict) ∨ ∃ c n1, out = Ok (c, n1).
Proof.
  revert cur n r. induction paths as [|path rest IH]; intros cur n r Hnn [m Hm];
    cbn [walk].
  - intros [= <- <-]. right. eauto.
  - destruct (String.eqb path ""); [by apply IH |].
    unfold bind. rewrite (descend_eval rng rng_ok), Hm.
    destruct (decide _) as [_|_]; [intros [= <- <-]; by left |].
    destruct (m !! path) as [n'|] eqn:Hn'.
    + destruct (Hnn cur m path n' Hm Hn') as [nd Hnd]. rewrite Hnd.
      apply IH; [done |]. simpl. by rewrite Hnd.
    + apply IH.
      * by eapply no_nil_add_child.
      * simpl. rewrite nodes_add_child_new; [done | by eapply map_at_not_new].
Qed.

Lemma registerHandler_outcomes (paths : list string) (h : option Handler)
    (fs : list HttpFilter) (r r' : DynamicRouter) (out : result unit) :
  no_nil r → registerHandler rng paths h fs r = (r', out) →
  match out with
  | Ok _ => is_Some h ∧ usable paths ≠ []
  | Panic v =>
      (v = PanicString msg_handler_nil ∧ h = None) ∨
      (v = PanicString msg_path_nil ∧ is_Some h ∧ paths = []) ∨
      (v = PanicString msg_dynamic_conflict ∧ is_Some h ∧ usable paths ≠ []) ∨
      (v = PanicString msg_handler_conflict ∧ is_Some h ∧ usable paths ≠ []) ∨
      (v = PanicRuntime NilDereference ∧ is_Some h ∧ paths ≠ [] ∧
       usable paths = [])
  end.
Proof.
  intros Hnn [(-> & -> & ->)|[(Hh & -> & -> & ->)|(Hh & Hne & r1 & wout & Hw & H)]]%registerHandler_inv.
  - by left.
  - right. left. done.
  - destruct (usable paths) as [|t ts] eqn:Hus.
    + rewrite walk_all_empty in Hw by done. injection Hw as <- <-.
      destruct H as [-> ->]. do 4 right. done.
    + assert (usable paths ≠ []) as Hne' by (by rewrite Hus).
      rewrite <- Hus.
      assert (is_Some (map_at r RootMap)) as Hroot by (by eexists).
      destruct (walk_no_runtime_panic _ _ _ _ _ _ Hnn Hroot Hw)
        as [->|(c & n1 & ->)].
      { destruct H as [-> ->]. right. right. left. done. }
      destruct (walk_parse rng rng _ _ _ _ _ _ _ rng_ok Hw Hne')
        as (n & m & -> & _ & [nd Hnd] & _ & _).
      rewrite Hnd in H. destruct (handler nd).
      * destruct H as [-> ->]. do 3 right. left. done.
      * destruct H as [-> ->]. done.
Qed.

Lemma walk_allocates (paths : list string) (cur : mapref) (n : option loc)
    (r r' : DynamicRouter) (out : result (mapref * option loc)) :
  walk rng paths cur n r = (r', out) →
  length (nodes r) ≤ length (nodes r') ≤ length (nodes r) + length (usable paths).
Proof.
  revert cur n r. induction paths as [|path rest IH]; intros cur n r; cbn [walk].
  - intros [= <- _]. simpl. lia.
  - rewrite usable_cons. destruct (String.eqb path ""); [apply IH |].
    unfold bind. rewrite (descend_eval rng rng_ok). simpl.
    destruct (map_at r cur) as [m|]; [|intros [= <- _]; lia].
    destruct (decide _) as [_|_]; [intros [= <- _]; lia |].
    destruct (m !! path) as [n'|].
    + destruct (nodes r !! n'); [|intros [= <- _]; lia].
      intros H%IH. lia.
    + intros H%IH. rewrite length_add_child in H. lia.
Qed.

Lemma walk_fresh_allocates (paths : list string) (r : DynamicRouter) (n : loc) :
  nodes r !! n = Some (mkNode None [] ∅) →
  length (nodes (fst (walk rng paths (NodeMap n) (Some n) r)))
  = length (nodes r) + length (usable paths).
Proof.
  revert r n. induction paths as [|path rest IH]; intros r n Hn; cbn [walk].
  - simpl. lia.
  - rewrite usable_cons. destruct (String.eqb path ""); [by apply IH |].
    assert (map_at r (NodeMap n) = Some ∅) as Hm by (simpl; by rewrite Hn).
    unfold bind. rewrite (descend_new rng rng_ok _ path (NodeMap n) ∅ r Hm).
    + rewrite IH.
      * rewrite length_add_child. simpl. lia.
      * apply nodes_add_child_new. by eapply map_at_not_new.
    + intros _ k l Hk. by rewrite lookup_empty in Hk.
    + apply lookup_empty.
    + by eapply map_at_not_new.
Qed.

Lemma registerHandler_allocates (paths : list string) (h : option Handler)
    (fs : list HttpFilter) (r r' : DynamicRouter) (out : result unit) :
  registerHandler rng paths h fs r = (r', out) →
  length (nodes r) ≤ length (nodes r') ≤ length (nodes r) + length (usable paths).
Proof.
  intros [(_ & -> & _)|[(_ & _ & -> & _)|(Hh & _ & r1 & wout & Hw & H)]]%registerHandler_inv;
    [lia | lia |].
  apply walk_allocates in Hw.
  destruct wout as [[cur' [n|]]|v]; [| by destruct H as [-> _].. ].
  destruct (nodes r1 !! n) as [nd|] eqn:Hnd; [|by destruct H as [-> _]].
  destruct (handler nd); [by destruct H as [-> _] |].
  destruct H as [-> _].
  destruct (nodes_installed r1 n nd h fs Hnd) as (-> & _).
  by rewrite length_insert.
Qed.

Lemma registerHandler_new_router (paths : list string) (h : Handler)
    (fs : list HttpFilter) :
  usable paths ≠ [] →
  ∃ r', registerHandler rng paths (Some h) fs NewDynamicRouter = (r', Ok tt) ∧
        length (nodes r') = length (usable paths).
Proof.
  intros Hne.
  assert (∀ ps, usable ps ≠ [] →
            ∃ r1 n1 nd1,
              walk rng ps RootMap None NewDynamicRouter
              = (r1, Ok (NodeMap n1, Some n1)) ∧
              nodes r1 !! n1 = Some nd1 ∧ handler nd1 = None ∧
              length (nodes r1) = length (usable ps)) as Hwalk.
  { induction ps as [|p ps IH]; [done |]. rewrite usable_cons. cbn [walk].
    destruct (String.eqb p ""); [apply IH |]. intros _. unfold bind.
    rewrite (descend_new rng rng_ok _ p RootMap ∅ NewDynamicRouter);
      [| done | by intros _ k l Hk | done | done].
    destruct (walk_fresh rng rng_ok ps (add_child NewDynamicRouter RootMap p) 0)
      as (r1 & n1 & nd1 & Hw & Hnd1 & Hh1); [done |].
    exists r1, n1, nd1. split_and!; [done..|].
    pose proof (walk_fresh_allocates ps (add_child NewDynamicRouter RootMap p) 0
                  eq_refl) as Hlen.
    simpl in Hw. simpl in Hlen. rewrite Hw in Hlen. simpl in Hlen. by rewrite Hlen. }
  destruct (Hwalk paths Hne) as (r1 & n1 & nd1 & Hw & Hnd1 & Hh1 & Hlen).
  exists (installed r1 n1 (Some h) fs). unfold registerHandler.
  destruct paths as [|p ps]; [done |].
  change (length (p :: ps) <? 1) with false. cbv iota. unfold bind.
  rewrite Hw. unfold deref. cbn [snd mbind option_bind]. rewrite Hnd1, Hh1.
  split.
  - unfold installed, install. by rewrite Hnd1.
  - destruct (nodes_installed r1 n1 nd1 (Some h) fs Hnd1) as (-> & _).
    by rewrite length_insert.
Qed.

End BuiltRegistration.

(** X5.  On a router made with the package, a registration ends in one of
    six ways and no other: it returns, which takes a handler and a token
    that is not empty; or it panics with ["handler cannot be nil"] (no
    handler), with ["path cannot be nil"] (no token at all), with one of the
    two conflict messages, or, the only run-time error, with a nil
    dereference, exactly when there are tokens and all are empty. *)
Theorem X5_registerHandler_outcomes (rng : range_order) (paths : list string)
    (h : option Handler) (fs : list HttpFilter) (r r' : DynamicRouter)
    (out : result unit) :
  range_ok rng → built rng r →
  registerHandler rng paths h fs r = (r', out) →
  match out with
  | Ok _ => is_Some h ∧ usable paths ≠ []
  | Panic v =>
      (v = PanicString msg_handler_nil ∧ h = None) ∨
      (v = PanicString msg_path_nil ∧ is_Some h ∧ paths = []) ∨
      (v = PanicString msg_dynamic_conflict ∧ is_Some h ∧ usable paths ≠ []) ∨
      (v = PanicString msg_handler_conflict ∧ is_Some h ∧ usable paths ≠ []) ∨
      (v = PanicRuntime NilDereference ∧ is_Some h ∧ paths ≠ [] ∧
       usable paths = [])
  end.
Proof.
  intros Hrng Hb. apply (registerHandler_outcomes rng Hrng).
  exact (built_no_nil rng r Hrng Hb).
Qed.

Lemma X5_registerHandler_outcomes_witness :
  ∃ r r',
    built map_order r ∧
    registerHandler map_order ["api"; "v1"] (Some ok_handler) [] r
    = (r', Panic (PanicString msg_handler_conflict)) ∧
    usable ["api"; "v1"] ≠ [].
Proof.
  pose (r := fst (HandleFunc map_order "/api/v1" (Some ok_handler) []
                    NewDynamicRouter)).
  pose (r' := fst (registerHandler map_order ["api"; "v1"] (Some ok_handler) [] r)).
  assert (built map_order r) as Hb by (repeat constructor).
  assert (registerHandler map_order ["api"; "v1"] (Some ok_handler) [] r
          = (r', Panic (PanicString msg_handler_conflict))) as H
    by (vm_compute; reflexivity).
  pose proof (X5_registerHandler_outcomes map_order _ _ _ _ _ _ map_order_ok Hb H)
    as [(? & _)|[(? & _)|[(? & _)|[(_ & _ & Hne)|(? & _)]]]]; try discriminate.
  exists r, r'. done.
Defined.

(** X6.  A registration allocates at most one node for each token that is
    not empty and frees none; on the new router a registration with a
    handler and such a token always succeeds and allocates exactly one node
    for each. *)
Theorem X6_registerHandler_allocation (rng : range_order) (paths : list string)
    (h : option Handler) (fs : list HttpFilter) (r r' : DynamicRouter)
    (out : result unit) :
  range_ok rng →
  (registerHandler rng paths h fs r = (r', out) →
   length (nodes r) ≤ length (nodes r')
   ∧ length (nodes r') ≤ length (nodes r) + length (usable paths)) ∧
  (is_Some h → usable paths ≠ [] →
   ∃ r1, registerHandler rng paths h fs NewDynamicRouter = (r1, Ok tt) ∧
         length (nodes r1) = length (usable paths)).
Proof.
  intros Hrng. split.
  - intros H. exact (registerHandler_allocates rng Hrng _ _ _ _ _ _ H).
  - intros [h' ->] Hne. by apply registerHandler_new_router.
Qed.

Lemma X6_registerHandler_allocation_witness :
  ∃ r r',
    registerHandler map_order ["api"; ""; "v1"; "team"] (Some ok_handler) []
      NewDynamicRouter = (r, Ok tt) ∧ length (nodes r) = 3 ∧
    registerHandler map_order ["api"; "v1"; "item"; ":id"] (Some ok_handler) [] r
    = (r', Ok tt) ∧
    length (nodes r) ≤ length (nodes r') ∧ length (nodes r') ≤ length (nodes r) + 4.
Proof.
  destruct (X6_registerHandler_allocation map_order ["api"; ""; "v1"; "team"]
              (Some ok_handler) [] NewDynamicRouter NewDynamicRouter (Ok tt)
              map_order_ok) as [_ Hnew].
  destruct Hnew as (r & Hr & Hlen); [done | done |].
  pose (r' := fst (registerHandler map_order ["api"; "v1"; "item"; ":id"]
                     (Some ok_handler) [] r)).
  assert (registerHandler map_order ["api"; "v1"; "item"; ":id"]
            (Some ok_handler) [] r = (r', Ok tt)) as H'.
  { assert (r = fst (registerHandler map_order ["api"; ""; "v1"; "team"]
                       (Some ok_handler) [] NewDynamicRouter)) as Er
      by (by rewrite Hr).
    subst r' . rewrite Er. vm_compute. reflexivity. }
  destruct (X6_registerHandler_allocation map_order ["api"; "v1"; "item"; ":id"]
              (Some ok_handler) [] r r' (Ok tt) map_order_ok) as [Hbound _].
  exists r, r'. split_and!; [exact Hr | exact Hlen | exact H' | |];
    apply (Hbound H').
Defined.

(** ** Routes stay where they are *)

Lemma resolves_parseTree (rng : range_order) (heap : list node)
    (m : gmap string loc) (toks : list string) (n : loc) :
  resolves heap m toks n → parseTree rng heap m toks = Ok (Found n).
Proof.
  induction 1 as [m p n Hp|m p n nd p' rest n' Hp Hn Hrest IH]; cbn [parseTree].
  - by rewrite Hp.
  - by rewrite Hp, Hn.
Qed.

Lemma resolves_grows (r r' : DynamicRouter) (m m' : gmap string loc)
    (toks : list string) (n : loc) :
  grows r r' → m ⊆ m' →
  resolves (nodes r) m toks n → resolves (nodes r') m' toks n.
Proof.
  intros (_ & _ & _ & Hnodes) Hsub Hres. revert m' Hsub.
  induction Hres as [m p n Hp|m p n nd p' rest n' Hp Hn Hrest IH]; intros m' Hsub.
  - constructor. by eapply lookup_weaken.
  - destruct (Hnodes n nd Hn) as (nd' & Hn' & Hsub' & _).
    econstructor; [by eapply lookup_weaken | done | by apply IH].
Qed.

Lemma walk_resolves (rng : range_order) (paths : list string) (cur cur' : mapref)
    (n0 n1 : option loc) (r r1 : DynamicRouter) :
  range_ok rng →
  walk rng paths cur n0 r = (r1, Ok (cur', n1)) → usable paths ≠ [] →
  ∃ n m, n1 = Some n ∧ map_at r1 cur = Some m ∧
         resolves (nodes r1) m (usable paths) n.
Proof.
  intros Hrng. revert cur n0 r.
  induction paths as [|path rest IH]; intros cur n0 r; [done |].
  rewrite usable_cons. cbn [walk].
  destruct (String.eqb path "") eqn:Hpath; [apply IH |].
  unfold bind. destruct (descend _ _ _ _ r) as [ra [n'|v]] eqn:E; [|done].
  intros Hwalk _.
  destruct (descend_ok rng Hrng _ _ _ _ _ _ E) as (ma & Hma & Hn' & Hv & _).
  pose proof (walk_extends rng Hrng _ _ _ _ _ _ Hwalk) as Hext.
  destruct (map_at_extends _ _ _ _ Hext Hma) as (m1 & Hm1 & Hsub).
  pose proof (lookup_weaken _ _ _ _ Hn' Hsub) as Hn1.
  destruct (usable rest) as [|t ts] eqn:Hrest.
  - rewrite walk_all_empty in Hwalk by done. injection Hwalk as <- <- <-.
    exists n', m1. split_and!; [done | done |]. by constructor.
  - destruct (IH (NodeMap n') (Some n') ra Hwalk) as (n & m' & -> & Hm' & Hres);
      [done |].
    exists n, m1. split_and!; [done | done |].
    simpl in Hm'. apply fmap_Some in Hm' as (nd & Hnd & ->).
    by econstructor.
Qed.

Lemma grows_refl (r : DynamicRouter) : grows r r.
Proof. apply extends_grows, extends_refl. Qed.

Lemma register_all_grows (rng : range_order)
    (calls : list (string * option Handler * list HttpFilter))
    (r : DynamicRouter) :
  range_ok rng → grows r (register_all rng calls r).
Proof.
  intros Hrng. revert r.
  induction calls as [|[[pattern h] fs] rest IH]; intros r; [apply grows_refl |].
  cbn [register_all]. eapply grows_trans; [|apply IH].
  unfold HandleFunc.
  destruct (registerHandler rng (SplitPath pattern) h fs r) as [r' out] eqn:E.
  exact (registerHandler_grows rng Hrng _ _ _ _ _ _ E).
Qed.

(** X7.  A route stays put: once [HandleFunc] has registered a pattern,
    then after any further calls of [HandleFunc], whatever they register
    and however they end, the lookup of the literal path of the pattern
    still returns the node the route was put on, and that node still has
    the handler and the filters of the route. *)
Theorem X7_route_stays (rng rng' : range_order) (pattern : string) (h : Handler)
    (fs : list HttpFilter) (r r1 : DynamicRouter)
    (calls : list (string * option Handler * list HttpFilter)) :
  range_ok rng →
  HandleFunc rng pattern (Some h) fs r = (r1, Ok tt) →
  ∃ n nd,
    findEndpoint rng' r1
      (mkRequest ("/" +:+ Join (usable (SplitPath pattern)) slash))
    = Ok (Found n) ∧
    findEndpoint rng' (register_all rng calls r1)
      (mkRequest ("/" +:+ Join (usable (SplitPath pattern)) slash))
    = Ok (Found n) ∧
    nodes (register_all rng calls r1) !! n = Some nd ∧
    handler nd = Some h ∧ filters nd = fs.
Proof.
  intros Hrng Hreg. unfold HandleFunc in Hreg.
  destruct (registerHandler_ok_inv rng _ _ _ _ _ Hreg)
    as (r0 & cur & n & nd0 & _ & Hwalk & Hnd0 & Hnone & ->).
  assert (usable (SplitPath pattern) ≠ []) as Hne.
  { intros Hempty. rewrite walk_all_empty in Hwalk by done. done. }
  destruct (walk_resolves rng _ _ _ _ _ _ _ Hrng Hwalk Hne)
    as (n' & m & [= <-] & Hm & Hres).
  simpl in Hm. injection Hm as <-.
  pose proof (grows_installed r0 n nd0 (Some h) fs Hnd0 Hnone) as Hg1.
  pose proof (register_all_grows rng calls (installed r0 n (Some h) fs) Hrng)
    as Hg2.
  pose proof (resolves_grows _ _ _ _ _ _ Hg1 (proj1 Hg1) Hres) as Hres1.
  pose proof (resolves_grows _ _ _ _ _ _ Hg2 (proj1 Hg2) Hres1) as Hres2.
  destruct (SplitPath_Join (usable (SplitPath pattern)) Hne
              (usable_SplitPath_tokens pattern)) as [_ E].
  assert (nodes (installed r0 n (Some h) fs) !! n
          = Some (mkNode (Some h) fs (children nd0))) as Hn1.
  { rewrite (lookup_installed r0 n n nd0) by done. by rewrite decide_True. }
  destruct Hg2 as (_ & _ & _ & Hnodes).
  destruct (Hnodes n _ Hn1) as (nd & Hnd & _ & Hkeep).
  destruct Hkeep as [Hh Hfs]; [done |].
  exists n, nd. split_and!; [| | done | done | done].
  - unfold findEndpoint. cbn [URL_Path]. rewrite E. by apply resolves_parseTree.
  - unfold findEndpoint. cbn [URL_Path]. rewrite E. by apply resolves_parseTree.
Qed.

(** ["/api/:id"], then three more calls: a route beside it, a conflicting
    dynamic token and a duplicate. *)
Lemma X7_route_stays_witness :
  ∃ r1 r2 nd,
    HandleFunc map_order "/api/:id" (Some ok_handler) [pass_filter]
      NewDynamicRouter = (r1, Ok tt) ∧
    r2 = register_all map_order
           [("/api/v1/item", Some panicking_handler, []);
            ("/api/:other", Some panicking_handler, []);
            ("/api/:id", Some panicking_handler, [])] r1 ∧
    findEndpoint reverse_order r2 (mkRequest "/api/:id") = Ok (Found 1) ∧
    nodes r2 !! 1 = Some nd ∧ handler nd = Some ok_handler ∧
    filters nd = [pass_filter].
Proof.
  pose (r1 := fst (HandleFunc map_order "/api/:id" (Some ok_handler)
                     [pass_filter] NewDynamicRouter)).
  pose (calls := [("/api/v1/item", Some panicking_handler, []);
                  ("/api/:other", Some panicking_handler, []);
                  ("/api/:id", Some panicking_handler, [])]
                 : list (string * option Handler * list HttpFilter)).
  assert (HandleFunc map_order "/api/:id" (Some ok_handler) [pass_filter]
            NewDynamicRouter = (r1, Ok tt)) as H by (vm_compute; reflexivity).
  destruct (X7_route_stays map_order reverse_order "/api/:id" ok_handler
              [pass_filter] NewDynamicRouter r1 calls map_order_ok H)
    as (n & nd & Hf1 & Hf2 & Hnd & Hh & Hfs).
  assert (n = 1) as ->.
  { assert (findEndpoint reverse_order r1 (mkRequest "/api/:id") = Ok (Found 1))
      as E by (vm_compute; reflexivity).
    change (mkRequest ("/" +:+ Join (usable (SplitPath "/api/:id")) slash))
      with (mkRequest "/api/:id") in Hf1.
    rewrite E in Hf1. by injection Hf1. }
  exists r1, (register_all map_order calls r1), nd.
  split_and!; [exact H | reflexivity | exact Hf2 | exact Hnd | exact Hh | exact Hfs].
Defined.

(** ** The dynamic child matches every token without a child of its own *)

Lemma first_dynamic_the_one (m : gmap string loc) (l : list (string * loc))
    (k : string) (dn : loc) :
  one_dynamic m → l ≡ₚ map_to_list m → m !! k = Some dn → dynamic k →
  first_dynamic l = Some dn.
Proof.
  intros Hone Hl Hk Hdyn.
  assert ((k, dn) ∈ l) as Hin by (by rewrite Hl, elem_of_map_to_list).
  destruct (first_dynamic l) as [d|] eqn:E.
  - apply first_dynamic_Some in E as (p & Hp & Dp).
    rewrite Hl, elem_of_map_to_list in Hp.
    assert (p = k) as -> by (by eapply Hone). congruence.
  - by destruct (first_dynamic_None l k dn E Hin).
Qed.



(** ** The tokens of a path made of tokens *)

(** X9.  Joining tokens with slashes and tokenizing the path gives the
    tokens back, with or without a leading slash, when there is at least
    one token and none is empty or has a slash in it. *)
Theorem X9_SplitPath_of_Join (toks : list string) :
  toks ≠ [] →
  Forall (λ t, t ≠ "" ∧ ContainsRune t slash = false) toks →
  SplitPath (Join toks slash) = toks ∧
  SplitPath ("/" +:+ Join toks slash) = toks ∧
  SplitPath ("/" +:+ Join toks slash +:+ "/") = toks.
Proof.
  intros Hne Hall. destruct (SplitPath_Join toks Hne Hall) as [E1 E2].
  split_and!; [done | done |].
  rewrite SplitPath_strip_both. apply Split_Join; [done |].
  eapply Forall_impl; [done |]. by intros t [_ ?].
Qed.

Lemma X9_SplitPath_of_Join_witness :
  SplitPath (Join ["api"; "v1"; ":id"] slash) = ["api"; "v1"; ":id"] ∧
  SplitPath ("/" +:+ Join ["api"; "v1"; ":id"] slash) = ["api"; "v1"; ":id"] ∧
  SplitPath ("/" +:+ Join ["api"; "v1"; ":id"] slash +:+ "/")
  = ["api"; "v1"; ":id"].
Proof.
  apply (X9_SplitPath_of_Join ["api"; "v1"; ":id"]); [done |].
  repeat constructor; done.
Defined.

(** ** What a dispatch sends *)

Section DispatchMore.

Variable rng : range_order.

Lemma run_wrapped_status {R} (s : script R) (d d' : dispatch) (out : result R) :
  run_wrapped s d = (d', out) →
  status (w d') = default (status (w d)) (last (wrapper_codes s (Hijacker (w d)))).
Proof.
  revert d. induction s as [r|v|code k IH|b k IH|key value k IH|k IH|k IH|tag k IH];
    intros d; cbn [run_wrapped wrapper_codes].
  - by intros [= <- _].
  - by intros [= <- _].
  - intros H%IH. by rewrite last_cons_default.
  - by intros H%IH.
  - by intros H%IH.
  - apply IH.
  - unfold Hijack, get, bind. destruct (Hijacker (w d)) as [[]|] eqn:Hhj; cbn.
    + intros H%IH. simpl in H. by rewrite Hhj in H.
    + by intros [= <- _].
  - by intros H%IH.
Qed.

Lemma run_filters_status (fs : list HttpFilter) (req : Request)
    (d d' : dispatch) (out : result bool) :
  run_filters fs req d = (d', out) →
  status (w d') = default (status (w d)) (last (filters_codes fs req d)).
Proof.
  revert d. induction fs as [|f rest IH]; intros d; cbn [run_filters filters_codes].
  - by intros [= <- _].
  - unfold bind. rewrite last_app_default.
    destruct (run_wrapped (f req) d) as [d1 [[|]|v]] eqn:E;
      apply run_wrapped_status in E.
    + intros H%IH. by rewrite H, E.
    + by intros [= <- _].
    + by intros [= <- _].
Qed.

Lemma ServeHTTP_status (r : DynamicRouter) (req : Request) (d : dispatch)
    (n : loc) (nd : node) (h : Handler) :
  findEndpoint rng r req = Ok (Found n) → nodes r !! n = Some nd →
  handler nd = Some h →
  status (w (fst (ServeHTTP rng r req d)))
  = if dispatch_panics (filters nd) h (ctx r) req (entry d)
    then StatusInternalServerError
    else default StatusOK
           (last (dispatch_codes (filters nd) h (ctx r) req (entry d))).
Proof.
  intros Hfind Hnd Hh. rewrite ServeHTTP_unfold.
  rewrite (serve_found rng r req (entry d) n nd h) by done.
  unfold dispatch_panics, dispatch_codes. rewrite last_app_default.
  destruct (entry_frame d) as (Hw & _).
  assert (status (w (entry d)) = StatusOK) as H0 by (by rewrite Hw).
  destruct (run_filters (filters nd) req (entry d)) as [d1 [[|]|v]] eqn:E1;
    apply run_filters_status in E1; rewrite H0 in E1.
  - destruct (run_wrapped (h (ctx r) req) d1) as [d2 [[]|v]] eqn:E2;
      apply run_wrapped_status in E2; [|done].
    simpl. by rewrite E2, E1.
  - simpl. by rewrite E1.
  - done.
Qed.

(** X10.  The status a dispatch to a node with a handler sends is 500 when
    a filter or the handler panicked and otherwise the argument of the last
    call of [WriteHeader] that the filters and the handler that ran made on
    the wrapper, 200 if they made none: unlike on a [net/http] writer, where
    the first call counts, a later call replaces an earlier one, also after
    a [Write].  The body sent with it is the argument of the last [Write],
    and the two calls are all of the response the sink receives. *)
Theorem X10_last_WriteHeader_wins (r : DynamicRouter) (req : Request)
    (d : dispatch) (n : loc) (nd : node) (h : Handler) :
  findEndpoint rng r req = Ok (Found n) → nodes r !! n = Some nd →
  handler nd = Some h →
  response_calls (received (res (fst (ServeHTTP rng r req d))))
  = response_calls (received (res d)) ++
    [SinkWriteHeader
       (if dispatch_panics (filters nd) h (ctx r) req (entry d)
        then StatusInternalServerError
        else default StatusOK
               (last (dispatch_codes (filters nd) h (ctx r) req (entry d))));
     SinkWrite
       (default [] (last (dispatch_writes (filters nd) h (ctx r) req (entry d))))].
Proof.
  intros Hfind Hnd Hh.
  pose proof (ServeHTTP_status r req d n nd h Hfind Hnd Hh) as Hst.
  destruct (ServeHTTP_found rng r req d n nd h Hfind Hnd Hh)
    as (dz & Hserve & _ & _ & Hcalls & Hbody).
  rewrite Hserve in *. cbn [fst] in *.
  destruct (entry_frame d) as (Hw & Hres & _).
  rewrite flushed_received, response_calls_app, Hcalls, Hres, Hbody, Hw.
  change (status (w (flushed dz))) with (status (w dz)) in Hst. by rewrite Hst.
Qed.

(** X11.  A request whose lookup ends at a node without handler, such as
    the node of ["/api"] when only ["/api/v1"] is registered, gets no
    answer from the router: [ServeHTTP] returns with the sink and the
    effects of application code as they were, neither a 404 nor anything
    else having been sent, and without looking at the file server. *)
Theorem X11_node_without_handler (r : DynamicRouter) (req : Request)
    (d : dispatch) (n : loc) (nd : node) :
  findEndpoint rng r req = Ok (Found n) → nodes r !! n = Some nd →
  handler nd = None →
  ServeHTTP rng r req d = (entry d, Ok tt) ∧
  res (entry d) = res d ∧ effects (entry d) = effects d.
Proof.
  intros Hfind Hnd Hh. destruct (entry_frame d) as (_ & Hres & Heff).
  split_and!; [|done|done].
  rewrite ServeHTTP_unfold. unfold serve, bind, lift.
  by rewrite Hfind, Hnd, Hh.
Qed.

(** X12.  On a router without file server the sink receives, as the
    response to a request, either nothing or one [WriteHeader] followed by
    one [Write], whatever the request, the trie and the application code
    are, and [ServeHTTP] returns normally: the wrapper is flushed at most
    once, also when a panic is recovered. *)
Theorem X12_one_flush_at_most (r : DynamicRouter) (req : Request) (d : dispatch) :
  fileServer r = None →
  snd (ServeHTTP rng r req d) = Ok tt ∧
  (response_calls (received (res (fst (ServeHTTP rng r req d))))
   = response_calls (received (res d)) ∨
   ∃ code b,
     response_calls (received (res (fst (ServeHTTP rng r req d))))
     = response_calls (received (res d)) ++ [SinkWriteHeader code; SinkWrite b]).
Proof.
  intros Hfs. split; [apply ServeHTTP_returns |].
  destruct (entry_frame d) as (_ & Hres & _).
  assert (∀ code,
            response_calls
              (received (res (flushed (with_status code (entry d)))))
            = response_calls (received (res d)) ++
              [SinkWriteHeader code; SinkWrite (body (w (entry d)))]) as Hflush.
  { intros code. rewrite flushed_received, response_calls_app.
    destruct (with_status_frame code (entry d)) as (-> & -> & _ & -> & _).
    by rewrite Hres. }
  destruct (findEndpoint rng r req) as [[n|err]|v] eqn:Hfind.
  - destruct (nodes r !! n) as [nd|] eqn:Hnd.
    + destruct (handler nd) as [h|] eqn:Hh.
      * right.
        destruct (ServeHTTP_found rng r req d n nd h Hfind Hnd Hh)
          as (dz & -> & _ & _ & Hcalls & _).
        exists (status (w dz)), (body (w dz)). cbn [fst].
        by rewrite flushed_received, response_calls_app, Hcalls, Hres.
      * left.
        assert (ServeHTTP rng r req d = (entry d, Ok tt)) as ->.
        { rewrite ServeHTTP_unfold. unfold serve, bind, lift.
          by rewrite Hfind, Hnd, Hh. }
        cbn [fst]. by rewrite Hres.
    + right.
      assert (ServeHTTP rng r req d
              = (flushed (with_status StatusInternalServerError (entry d)), Ok tt))
        as ->.
      { rewrite ServeHTTP_unfold. unfold serve, bind, lift.
        by rewrite Hfind, Hnd. }
      cbn [fst]. eauto.
  - right. rewrite ServeHTTP_unfold, (serve_not_found rng r req _ err Hfind), Hfs.
    cbn [fst]. eauto.
  - right.
    assert (ServeHTTP rng r req d
            = (flushed (with_status StatusInternalServerError (entry d)), Ok tt))
      as ->.
    { rewrite ServeHTTP_unfold. unfold serve, bind, lift. by rewrite Hfind. }
    cbn [fst]. eauto.
Qed.

(** X13.  When the lookup fails and there is a file server, a request path
    with an element that is two dots gets status 400 with the message of
    the file server, written on the sink itself, and the handler of the
    file server is not run.  Any other request is handed to that handler,
    on the sink itself and not on the wrapper, as it is, except in mode
    [Spa] when its file does not exist: then the handler is given the path
    ["/"] instead.  What the handler sends is the response; only when it
    panics does the router add to it, a [WriteHeader(500)] and a [Write] of
    the empty body of the unused wrapper. *)
Theorem X13_file_server (r : DynamicRouter) (req : Request) (d : dispatch)
    (err : string) (fs : customFileServer.t) :
  findEndpoint rng r req = Ok (NotFound err) → fileServer r = Some fs →
  (containsDotDot (URL_Path req) = true →
   response_calls (received (res (fst (ServeHTTP rng r req d))))
   = response_calls (received (res d)) ++
     [SinkWriteHeader StatusBadRequest;
      SinkWrite (String.list_byte_of_string "URL should not contain '/../' parts"
                 ++ [Byte.x0a])] ∧
   effects (fst (ServeHTTP rng r req d)) = effects d) ∧
  (containsDotDot (URL_Path req) = false →
   ∀ d1 out,
     run_direct
       (customFileServer.handler fs
          (if dir_notExist (customFileServer.root fs) (URL_Path req)
           then match customFileServer.mode fs with
                | Spa => mkRequest "/"
                | Classic => req
                end
           else req)) (entry d) = (d1, out) →
     match out with
     | Ok _ => ServeHTTP rng r req d = (d1, Ok tt)
     | Panic _ =>
         ∃ d2, ServeHTTP rng r req d = (d2, Ok tt) ∧
               received (res d2)
               = received (res d1) ++
                 [SinkWriteHeader StatusInternalServerError; SinkWrite []] ∧
               effects d2 = effects d1
     end).
Proof.
  intros Hfind Hfs.
  rewrite ServeHTTP_unfold, (serve_not_found rng r req _ err Hfind), Hfs.
  unfold customFileServer.ServeHTTP. split.
  - intros Hdots. destruct (entry_frame d) as (_ & Hres & Heff).
    rewrite Hdots. split; [|done].
    cbn [fst]. simpl. rewrite !response_calls_app, Hres. simpl.
    by rewrite !app_nil_r, <- app_assoc.
  - intros Hdots d1 out Hrun. rewrite Hdots, Hrun.
    destruct out as [[]|v]; [done |].
    exists (flushed (with_status StatusInternalServerError d1)).
    split_and!; [done | | done].
    rewrite flushed_received.
    destruct (with_status_frame StatusInternalServerError d1)
      as (-> & -> & _ & -> & _).
    apply run_direct_wrapper in Hrun. rewrite Hrun.
    destruct (entry_frame d) as (-> & _). done.
Qed.

End DispatchMore.

Lemma X10_last_WriteHeader_wins_witness :
  ∃ r,
    HandleFunc map_order "/late"
      (Some (λ _ _, CallWrite response_body
                      (λ _ _, CallWriteHeader StatusOK
                                (CallWriteHeader StatusNotFound (Return tt)))))
      [] NewDynamicRouter = (r, Ok tt) ∧
    response_calls
      (received (res (fst (ServeHTTP map_order r (mkRequest "/late") (fresh true)))))
    = [SinkWriteHeader StatusNotFound; SinkWrite response_body].
Proof.
  pose (h := (λ _ _, CallWrite response_body
                       (λ _ _, CallWriteHeader StatusOK
                                 (CallWriteHeader StatusNotFound (Return tt))))
             : Handler).
  pose (r := fst (HandleFunc map_order "/late" (Some h) [] NewDynamicRouter)).
  assert (HandleFunc map_order "/late" (Some h) [] NewDynamicRouter = (r, Ok tt))
    as Hreg by (vm_compute; reflexivity).
  assert (findEndpoint map_order r (mkRequest "/late") = Ok (Found 0)) as Hfind
    by (vm_compute; reflexivity).
  assert (nodes r !! 0 = Some (mkNode (Some h) [] ∅)) as Hnd
    by (vm_compute; reflexivity).
  exists r. split; [exact Hreg |].
  rewrite (X10_last_WriteHeader_wins map_order r (mkRequest "/late") (fresh true)
             0 _ h Hfind Hnd eq_refl).
  reflexivity.
Defined.

Lemma X11_node_without_handler_witness :
  ∃ r,
    HandleFunc map_order "/api/v1" (Some ok_handler) [] NewDynamicRouter
    = (r, Ok tt) ∧
    findEndpoint map_order r (mkRequest "/api") = Ok (Found 0) ∧
    ServeHTTP map_order r (mkRequest "/api") (fresh true)
    = (entry (fresh true), Ok tt) ∧
    received (res (entry (fresh true))) = [].
Proof.
  pose (r := fst (HandleFunc map_order "/api/v1" (Some ok_handler) []
                    NewDynamicRouter)).
  assert (HandleFunc map_order "/api/v1" (Some ok_handler) [] NewDynamicRouter
          = (r, Ok tt)) as Hreg by (vm_compute; reflexivity).
  assert (findEndpoint map_order r (mkRequest "/api") = Ok (Found 0)) as Hfind
    by (vm_compute; reflexivity).
  assert (nodes r !! 0 = Some (mkNode None [] {["v1" := 1]})) as Hnd
    by (vm_compute; reflexivity).
  destruct (X11_node_without_handler map_order r (mkRequest "/api") (fresh true)
              0 _ Hfind Hnd eq_refl) as (Hserve & _ & _).
  exists r. split_and!; [exact Hreg | exact Hfind | exact Hserve | reflexivity].
Defined.

Lemma X12_one_flush_at_most_witness :
  fileServer NewDynamicRouter = None ∧
  snd (ServeHTTP map_order NewDynamicRouter (mkRequest "/") (fresh false)) = Ok tt.
Proof.
  split; [reflexivity |].
  apply (X12_one_flush_at_most map_order NewDynamicRouter (mkRequest "/")
           (fresh false) eq_refl).
Defined.

Lemma X13_file_server_witness :
  ∃ r,
    r = ServeStaticAt sample_FileServer fixtures Classic NewDynamicRouter ∧
    containsDotDot "/a/../secret" = true ∧
    observed_status
      (received (res (fst (ServeHTTP map_order r (mkRequest "/a/../secret")
                             (fresh false)))))
    = Some StatusBadRequest ∧
    effects (fst (ServeHTTP map_order r (mkRequest "/a/../secret") (fresh false)))
    = [].
Proof.
  pose (r := ServeStaticAt sample_FileServer fixtures Classic NewDynamicRouter).
  assert (findEndpoint map_order r (mkRequest "/a/../secret")
          = Ok (NotFound msg_unknown_path)) as Hfind by (vm_compute; reflexivity).
  destruct (X13_file_server map_order r (mkRequest "/a/../secret") (fresh false)
              _ _ Hfind eq_refl) as [Hdots _].
  destruct (Hdots eq_refl) as (Hcalls & Heff).
  exists r. split_and!; [reflexivity | reflexivity | | exact Heff].
  rewrite <- observed_status_response_calls, Hcalls. reflexivity.
Defined.

(** ** The guard of the file server *)

Lemma HasPrefix_empty (s : string) : HasPrefix s "" = true.
Proof. by destruct s. Qed.

Lemma HasPrefix_cons (c : ascii) (s t : string) :
  HasPrefix (String c s) (String c t) = HasPrefix s t.
Proof. unfold HasPrefix. cbn [strip_prefix]. by rewrite Ascii.eqb_refl. Qed.

Lemma SplitFunc_nonempty (s : string) (f : ascii → bool) : SplitFunc s f ≠ [].
Proof.
  destruct s as [|c s]; [done |]. cbn [SplitFunc].
  destruct (f c); [done |]. by destruct (SplitFunc s f).
Qed.

Lemma SplitFunc_head (s : string) (f : ascii → bool) (t : string)
    (ts : list string) :
  SplitFunc s f = t :: ts → HasPrefix s t = true.
Proof.
  revert t ts. induction s as [|c s IH]; intros t ts; cbn [SplitFunc].
  - by intros [= <- _].
  - destruct (f c); [intros [= <- _]; apply HasPrefix_empty |].
    destruct (SplitFunc s f) as [|t0 ts0] eqn:E;
      [by destruct (SplitFunc_nonempty s f) |].
    intros [= <- _]. rewrite HasPrefix_cons. by eapply IH.
Qed.

(** Every piece is a substring. *)
Lemma SplitFunc_Contains (s : string) (f : ascii → bool) (t : string) :
  t ∈ SplitFunc s f → Contains s t = true.
Proof.
  revert t. induction s as [|c s IH]; intros t; cbn [SplitFunc Contains].
  - intros ->%list_elem_of_singleton. done.
  - destruct (f c).
    + intros [->|H]%elem_of_cons; [by rewrite HasPrefix_empty |].
      rewrite (IH _ H). apply orb_true_r.
    + destruct (SplitFunc s f) as [|t0 ts0] eqn:E;
        [by destruct (SplitFunc_nonempty s f) |].
      intros [->|H]%elem_of_cons.
      * by rewrite HasPrefix_cons, (SplitFunc_head s f t0 ts0 E).
      * rewrite (IH t); [apply orb_true_r |]. by apply elem_of_cons; right.
Qed.

Lemma FieldsFunc_elem (s : string) (f : ascii → bool) (t : string) :
  t ∈ FieldsFunc s f ↔ t ∈ SplitFunc s f ∧ t ≠ "".
Proof.
  unfold FieldsFunc. rewrite !list_elem_of_In, List.filter_In.
  destruct (String.eqb_spec t ""); simpl; intuition congruence.
Qed.

(** Splitting at a byte [f] accepts, then at all of them, is splitting at
    all of them. *)
Lemma SplitFunc_Split (s : string) (f : ascii → bool) (sep : ascii) :
  f sep = true →
  SplitFunc s f = Split s sep ≫= (λ t, SplitFunc t f).
Proof.
  intros Hsep. induction s as [|c s IH]; [done |]. cbn [SplitFunc Split].
  destruct (Ascii.eqb_spec c sep) as [->|Hc].
  - by rewrite Hsep, IH.
  - destruct (Split s sep) as [|t ts] eqn:E; [by destruct (Split_nonempty s sep) |].
    rewrite IH. cbn [mbind list_bind]. cbn [SplitFunc].
    destruct (f c); [done |].
    destruct (SplitFunc t f) as [|t0 ts0] eqn:E0;
      [by destruct (SplitFunc_nonempty t f) | done].
Qed.

Lemma SplitPath_tokens_of_Split (path t : string) :
  t ∈ SplitPath path → t ∈ Split path slash.
Proof.
  unfold SplitPath. intros H.
  assert (t ∈ Split (TrimPrefix path "/") slash) as H1.
  { revert H. generalize (TrimPrefix path "/"). intros p.
    unfold TrimSuffix. destruct (strip_suffix "/" p) as [p'|] eqn:E; [|done].
    apply strip_suffix_Some in E as ->. intros H.
    change "/"%string with (String slash ""). rewrite Split_app.
    apply elem_of_app. by left. }
  revert H1. unfold TrimPrefix.
  destruct (strip_prefix "/" path) as [p'|] eqn:E; [|done].
  destruct path as [|c path]; [done |]. cbn [strip_prefix] in E.
  destruct (Ascii.eqb_spec "/" c) as [<-|_]; [|done].
  destruct path; injection E as <-; intros H1; cbn [Split];
    change (Ascii.eqb "/" slash) with true; cbn iota;
    apply elem_of_cons; by right.
Qed.

(** X14.  [containsDotDot] answers true exactly for the strings one of
    whose elements between slashes and backslashes is two dots; two dots
    inside a longer element do not count, and the test for a substring
    [".."] it starts with never changes the answer.  Every request path
    for which the tokenizer of the router gives a token [".."] is among
    them, so the file server refuses it. *)
Theorem X14_containsDotDot (v : string) :
  (containsDotDot v = true ↔ ".."%string ∈ SplitFunc v isSlashRune) ∧
  containsDotDot v
  = existsb (λ ent, String.eqb ent "..") (FieldsFunc v isSlashRune) ∧
  (".."%string ∈ SplitPath v → containsDotDot v = true).
Proof.
  assert (existsb (λ ent, String.eqb ent "..") (FieldsFunc v isSlashRune) = true
          ↔ ".."%string ∈ SplitFunc v isSlashRune) as Hfields.
  { rewrite existsb_exists. split.
    - intros (ent & Hin & ->%String.eqb_eq).
      apply list_elem_of_In, FieldsFunc_elem in Hin. tauto.
    - intros Hin. exists ".."%string. split; [|done].
      apply list_elem_of_In, FieldsFunc_elem. done. }
  assert (containsDotDot v
          = existsb (λ ent, String.eqb ent "..") (FieldsFunc v isSlashRune))
    as Heq.
  { unfold containsDotDot. destruct (Contains v "..") eqn:Hc; [done |].
    cbn [negb]. symmetry. apply not_true_is_false. intros H.
    apply Hfields, SplitFunc_Contains in H. congruence. }
  split_and!; [by rewrite Heq | done |].
  intros H%SplitPath_tokens_of_Split. rewrite Heq. apply Hfields.
  rewrite (SplitFunc_Split v isSlashRune slash eq_refl).
  apply list_elem_of_bind. exists ".."%string. split; [|done].
  cbn. apply list_elem_of_singleton. done.
Qed.

Lemma X14_containsDotDot_witness :
  ".."%string ∈ SplitPath "/static/../etc" ∧
  containsDotDot "/static/../etc" = true ∧
  containsDotDot "/static/a..b/etc" = false.
Proof.
  assert (".."%string ∈ SplitPath "/static/../etc") as Hin.
  { change (SplitPath "/static/../etc")
      with ["static"%string; ".."%string; "etc"%string].
    apply elem_of_cons; right. apply elem_of_cons; by left. }
  split_and!; [exact Hin | | reflexivity].
  exact (proj2 (proj2 (X14_containsDotDot "/static/../etc")) Hin).
Defined.

(** ** The empty token *)

Section EmptyToken.

Variable rng : range_order.
Hypothesis rng_ok : range_ok rng.

Lemma walk_no_empty_key (paths : list string) (cur : mapref) (n : option loc)
    (r r' : DynamicRouter) (out : result (mapref * option loc)) :
  walk rng paths cur n r = (r', out) → no_empty_key r → no_empty_key r'.
Proof.
  revert cur n r. induction paths as [|path rest IH]; intros cur n r; cbn [walk].
  - by intros [= <- _].
  - destruct (String.eqb_spec path "") as [_|Hpath]; [apply IH |].
    unfold bind.
    assert (∀ ra o, descend rng (length (path :: rest)) path cur r = (ra, o) →
                    no_empty_key r → no_empty_key ra) as Hstep.
    { intros ra o [[-> _]|(m & Hm & _ & H)]%(descend_inv rng rng_ok) Hne; [done |].
      destruct H as [(n0 & _ & _ & -> & _)|(_ & -> & _)]; [done |].
      intros c m' Hc.
      destruct (map_at_add_child_inv r cur c path m m' Hm Hc)
        as [[-> ->]|[[-> ->]|[_ Hc']]].
      - rewrite lookup_insert_ne by done. by eapply Hne.
      - apply lookup_empty.
      - by eapply Hne. }
    destruct (descend _ _ _ _ r) as [ra [n'|v]] eqn:E.
    + intros H Hne. eapply IH; [done |]. by eapply Hstep.
    + intros [= <- _]. by eapply Hstep.
Qed.

Lemma registerHandler_no_empty_key (paths : list string) (h : option Handler)
    (fs : list HttpFilter) (r r' : DynamicRouter) (out : result unit) :
  registerHandler rng paths h fs r = (r', out) →
  no_empty_key r → no_empty_key r'.
Proof.
  intros [(_ & -> & _)|[(_ & _ & -> & _)|(Hh & _ & r1 & wout & Hw & H)]]%registerHandler_inv
    Hne; [done | done |].
  pose proof (walk_no_empty_key _ _ _ _ _ _ Hw Hne) as Hne1.
  destruct wout as [[cur' [n|]]|v]; [| by destruct H as [-> _].. ].
  destruct (nodes r1 !! n) as [nd|] eqn:Hnd; [|by destruct H as [-> _]].
  destruct (handler nd) eqn:Hhd; [by destruct H as [-> _] |].
  destruct H as [-> _]. intros c m Hm.
  rewrite (map_at_installed r1 n nd) in Hm by done. by eapply Hne1.
Qed.

Lemma built_no_empty_key (r : DynamicRouter) : built rng r → no_empty_key r.
Proof.
  induction 1 as [|r pattern h fs Hb IH|r F dir mode Hb IH].
  - intros [|n] m; [|done]. intros [= <-]. apply lookup_empty.
  - unfold HandleFunc.
    destruct (registerHandler rng (SplitPath pattern) h fs r) as [r' out] eqn:E.
    by eapply registerHandler_no_empty_key.
  - intros c m Hm. apply (IH c m). by destruct c.
Qed.

End EmptyToken.

(** X15.  Registration skips the empty tokens of a pattern, the lookup does
    not skip those of a request.  So on a router made with
    [NewDynamicRouter], [HandleFunc] and [ServeStaticAt] no map of the trie
    has the empty string as a key, and an empty token of a request is
    matched by a dynamic child or by nothing: a request whose first token
    is empty, such as the one for ["/"], is an unknown path unless the root
    has a dynamic child, and then it goes to that child. *)
Theorem X15_empty_token (rng rng' : range_order) (r : DynamicRouter)
    (req : Request) (rest : list string) :
  range_ok rng → range_ok rng' → built rng r →
  no_empty_key r ∧
  (SplitPath (URL_Path req) = ""%string :: rest →
   (∀ k n, root r !! k = Some n → ¬ dynamic k) →
   findEndpoint rng' r req = Ok (NotFound msg_unknown_path)) ∧
  (SplitPath (URL_Path req) = [""%string] →
   ∀ k n, root r !! k = Some n → dynamic k →
   findEndpoint rng' r req = Ok (Found n)).
Proof.
  intros Hrng Hrng' Hb.
  pose proof (built_no_empty_key rng Hrng r Hb) as Hne.
  pose proof (Hne RootMap (root r) eq_refl) as Hroot.
  split_and!; [done | |].
  - intros Htoks Hnodyn. unfold findEndpoint. rewrite Htoks.
    cbn [parseTree]. rewrite Hroot.
    destruct (first_dynamic _) as [dn|] eqn:E; [|done].
    apply first_dynamic_Some in E as (p & Hin & Hdyn).
    apply (elem_of_range rng') in Hin; [|done]. by destruct (Hnodyn p dn).
  - intros Htoks k n Hk Hdyn. unfold findEndpoint. rewrite Htoks.
    cbn [parseTree]. rewrite Hroot.
    rewrite (first_dynamic_the_one (root r) _ k n);
      [| exact (built_trie_inv rng r Hrng Hb RootMap (root r) eq_refl)
       | apply Hrng' | done | done].
    destruct (built_no_nil rng r Hrng Hb RootMap (root r) k n eq_refl Hk)
      as [nd ->]. done.
Qed.

Lemma X15_empty_token_witness :
  ∃ r,
    r = register_all map_order [("/api", Some ok_handler, [])] NewDynamicRouter ∧
    no_empty_key r ∧
    findEndpoint reverse_order r (mkRequest "/")
    = Ok (NotFound msg_unknown_path).
Proof.
  pose (r := register_all map_order [("/api", Some ok_handler, [])]
               NewDynamicRouter).
  assert (built map_order r) as Hb.
  { apply (built_HandleFunc map_order NewDynamicRouter "/api"
             (Some ok_handler) []). apply built_new. }
  destruct (X15_empty_token map_order reverse_order r (mkRequest "/") []
              map_order_ok reverse_order_ok Hb) as (Hne & Hnot & _).
  exists r. split_and!; [reflexivity | exact Hne |].
  apply Hnot; [reflexivity |].
  intros k n Hk Hdyn.
  change (root r) with ({["api"%string := 0]} : gmap string nat) in Hk.
  apply lookup_singleton_Some in Hk as [<- _]. discriminate Hdyn.
Defined.

(** ** Headers and the hijack are not buffered *)

Section PassThrough.

Variable rng : range_order.

Lemma run_wrapped_calls {R} (s : script R) (d d' : dispatch) (out : result R) :
  run_wrapped s d = (d', out) →
  received (res d') = received (res d) ++ wrapper_calls s (Hijacker (w d)).
Proof.
  revert d. induction s as [r|v|code k IH|b k IH|key value k IH|k IH|k IH|tag k IH];
    intros d; cbn [run_wrapped wrapper_calls].
  - intros [= <- _]. by rewrite app_nil_r.
  - intros [= <- _]. by rewrite app_nil_r.
  - by intros H%IH.
  - by intros H%IH.
  - intros H%IH. simpl in H. by rewrite H, <- app_assoc.
  - apply IH.
  - unfold Hijack, get, bind. destruct (Hijacker (w d)) as [[]|] eqn:Hhj; cbn.
    + intros H%IH. simpl in H. by rewrite H, Hhj, <- app_assoc.
    + intros [= <- _]. by rewrite app_nil_r.
  - by intros H%IH.
Qed.

Lemma wrapper_calls_no_response {R} (s : script R) (hj : option sink_ref) :
  response_calls (wrapper_calls s hj) = [].
Proof.
  induction s as [r|v|code k IH|b k IH|key value k IH|k IH|k IH|tag k IH];
    cbn [wrapper_calls]; try done.
  destruct hj; done.
Qed.

Lemma filters_calls_no_response (fs : list HttpFilter) (req : Request)
    (d : dispatch) :
  response_calls (filters_calls fs req d) = [].
Proof.
  revert d. induction fs as [|f rest IH]; intros d; [done |].
  cbn [filters_calls]. rewrite response_calls_app, wrapper_calls_no_response.
  destruct (run_wrapped (f req) d) as [d1 [[|]|v]]; [apply IH | done | done].
Qed.

Lemma run_filters_calls (fs : list HttpFilter) (req : Request)
    (d d' : dispatch) (out : result bool) :
  run_filters fs req d = (d', out) →
  if out is Ok false
  then ∃ dz, d' = flushed dz ∧
             received (res dz) = received (res d) ++ filters_calls fs req d
  else received (res d') = received (res d) ++ filters_calls fs req d.
Proof.
  revert d. induction fs as [|f rest IH]; intros d; cbn [run_filters filters_calls].
  - intros [= <- <-]. by rewrite app_nil_r.
  - unfold bind.
    destruct (run_wrapped (f req) d) as [d1 [[|]|v]] eqn:E;
      apply run_wrapped_calls in E.
    + intros H. apply IH in H. rewrite E, <- app_assoc in H. exact H.
    + intros [= <- <-]. exists d1. by rewrite app_nil_r.
    + intros [= <- <-]. by rewrite app_nil_r.
Qed.

(** X16.  The wrapper buffers the status and the body only.  In a dispatch
    to a node with a handler the sink receives the header settings and the
    hijacks of the filters and of the handler that ran at once and in their
    order, none of them a part of the response, and after them the one
    [WriteHeader] and the one [Write] of the flush: a header set before a
    panic or before a filter refused goes out with the response. *)
Theorem X16_headers_pass_through (r : DynamicRouter) (req : Request)
    (d : dispatch) (n : loc) (nd : node) (h : Handler) :
  findEndpoint rng r req = Ok (Found n) → nodes r !! n = Some nd →
  handler nd = Some h →
  response_calls (dispatch_calls (filters nd) h (ctx r) req (entry d)) = [] ∧
  ∃ code b,
    received (res (fst (ServeHTTP rng r req d)))
    = received (res d) ++
      dispatch_calls (filters nd) h (ctx r) req (entry d) ++
      [SinkWriteHeader code; SinkWrite b].
Proof.
  intros Hfind Hnd Hh. split.
  - unfold dispatch_calls.
    rewrite response_calls_app, filters_calls_no_response.
    destruct (run_filters _ _ _) as [d1 [[|]|v]]; [|done..].
    apply wrapper_calls_no_response.
  - rewrite ServeHTTP_unfold.
    rewrite (serve_found rng r req (entry d) n nd h) by done.
    unfold dispatch_calls. destruct (entry_frame d) as (_ & Hres & _).
    rewrite <- Hres.
    destruct (run_filters (filters nd) req (entry d)) as [d1 [[|]|v]] eqn:E1;
      apply run_filters_calls in E1.
    + destruct (run_wrapped (h (ctx r) req) d1) as [d2 [[]|v]] eqn:E2;
        apply run_wrapped_calls in E2; cbn [fst]; rewrite flushed_received.
      * exists (status (w d2)), (body (w d2)).
        by rewrite E2, E1, <- !app_assoc.
      * exists StatusInternalServerError, (body (w d2)).
        destruct (with_status_frame StatusInternalServerError d2)
          as (-> & -> & _ & -> & _).
        by rewrite E2, E1, <- !app_assoc.
    + destruct E1 as (dz & -> & Hdz). cbn [fst]. rewrite flushed_received.
      exists (status (w dz)), (body (w dz)).
      by rewrite Hdz, app_nil_r, <- !app_assoc.
    + cbn [fst]. rewrite flushed_received.
      exists StatusInternalServerError, (body (w d1)).
      destruct (with_status_frame StatusInternalServerError d1)
        as (-> & -> & _ & -> & _).
      by rewrite E1, app_nil_r, <- !app_assoc.
Qed.

End PassThrough.

Lemma X16_headers_pass_through_witness :
  ∃ r,
    HandleFunc map_order "/h"
      (Some (λ _ _, CallSetHeader "X-Trace" "1"
                      (DoPanic (PanicString "boom")))) [] NewDynamicRouter
    = (r, Ok tt) ∧
    received (res (fst (ServeHTTP map_order r (mkRequest "/h") (fresh false))))
    = [SinkSetHeader "X-Trace" "1";
       SinkWriteHeader StatusInternalServerError; SinkWrite []].
Proof.
  pose (h := (λ _ _, CallSetHeader "X-Trace" "1" (DoPanic (PanicString "boom")))
             : Handler).
  pose (r := fst (HandleFunc map_order "/h" (Some h) [] NewDynamicRouter)).
  assert (HandleFunc map_order "/h" (Some h) [] NewDynamicRouter = (r, Ok tt))
    as Hreg by (vm_compute; reflexivity).
  assert (findEndpoint map_order r (mkRequest "/h") = Ok (Found 0)) as Hfind
    by (vm_compute; reflexivity).
  assert (nodes r !! 0 = Some (mkNode (Some h) [] ∅)) as Hnd
    by (vm_compute; reflexivity).
  destruct (X16_headers_pass_through map_order r (mkRequest "/h") (fresh false)
              0 _ h Hfind Hnd eq_refl) as (_ & code & b & Hlog).
  exists r. split; [exact Hreg |]. reflexivity.
Defined.

(** ** The file server and the routes *)

Section StaticAndRoutes.

Variable rng : range_order.
Variable FileServer : Dir → Request → script unit.
Variable dir : Dir.
Variable mode : FileServerMode.

Lemma bind_static {A B} (c : M DynamicRouter A) (k : A → M DynamicRouter B) :
  (∀ r, c (ServeStaticAt FileServer dir mode r)
        = (ServeStaticAt FileServer dir mode (fst (c r)), snd (c r))) →
  (∀ a r, k a (ServeStaticAt FileServer dir mode r)
          = (ServeStaticAt FileServer dir mode (fst (k a r)), snd (k a r))) →
  ∀ r, bind c k (ServeStaticAt FileServer dir mode r)
       = (ServeStaticAt FileServer dir mode (fst (bind c k r)),
          snd (bind c k r)).
Proof.
  intros Hc Hk r. unfold bind. rewrite Hc.
  destruct (c r) as [r1 [a|v]]; simpl; [apply Hk | done].
Qed.

Lemma check_dynamic_static (path : string) (entries : list (string * loc))
    (r : DynamicRouter) :
  check_dynamic path entries (ServeStaticAt FileServer dir mode r)
  = (ServeStaticAt FileServer dir mode (fst (check_dynamic path entries r)),
     snd (check_dynamic path entries r)).
Proof.
  induction entries as [|[m l] rest IH]; [done |]. cbn [check_dynamic].
  by destruct (HasPrefix m dynamic_marker && negb (String.eqb path m)).
Qed.

Lemma descend_static (i : nat) (path : string) (cur : mapref)
    (r : DynamicRouter) :
  descend rng i path cur (ServeStaticAt FileServer dir mode r)
  = (ServeStaticAt FileServer dir mode (fst (descend rng i path cur r)),
     snd (descend rng i path cur r)).
Proof.
  unfold descend. revert r. apply bind_static.
  { intros r. destruct cur as [|n]; [done |]. simpl.
    by destruct (nodes r !! n). }
  intros m. apply bind_static.
  { intros r. destruct (HasPrefix path dynamic_marker); [|done].
    apply check_dynamic_static. }
  intros _. apply bind_static.
  { destruct (m !! path) as [n|]; [done |]. apply bind_static; [done |].
    intros n. apply bind_static; [|done].
    intros r. destruct cur as [|p]; [done |]. simpl.
    by destruct (nodes r !! p). }
  intros n. apply bind_static; [|done].
  intros r. unfold deref. simpl. by destruct (nodes r !! n).
Qed.

Lemma walk_static (paths : list string) (cur : mapref) (n : option loc)
    (r : DynamicRouter) :
  walk rng paths cur n (ServeStaticAt FileServer dir mode r)
  = (ServeStaticAt FileServer dir mode (fst (walk rng paths cur n r)),
     snd (walk rng paths cur n r)).
Proof.
  revert cur n r. induction paths as [|path rest IH]; intros cur n; [done |].
  cbn [walk]. destruct (String.eqb path ""); [apply IH |].
  apply bind_static; [apply descend_static |]. intros n'. apply IH.
Qed.

Lemma registerHandler_static (paths : list string) (h : option Handler)
    (fs : list HttpFilter) (r : DynamicRouter) :
  registerHandler rng paths h fs (ServeStaticAt FileServer dir mode r)
  = (ServeStaticAt FileServer dir mode (fst (registerHandler rng paths h fs r)),
     snd (registerHandler rng paths h fs r)).
Proof.
  unfold registerHandler. destruct h as [h|]; [|done].
  destruct (length paths <? 1)%nat; [done |].
  revert r. apply bind_static; [apply walk_static |].
  intros cn. apply bind_static.
  { intros r. unfold deref. destruct (snd cn) as [n|]; simpl; [|done].
    by destruct (nodes r !! n). }
  intros nd r. destruct (handler nd); [done |].
  destruct (snd cn) as [n|]; [|done]. unfold install. simpl.
  by destruct (nodes r !! n).
Qed.

(** X17.  The file server and the routes do not touch each other.
    [ServeStaticAt] may come before or after a [HandleFunc]: the call of
    [HandleFunc] ends the same way and the router is the same in the end;
    the lookup does not see the file server; and a second [ServeStaticAt]
    replaces the first. *)
Theorem X17_ServeStaticAt_commutes (pattern : string) (h : option Handler)
    (fs : list HttpFilter) (r : DynamicRouter) (req : Request)
    (FileServer' : Dir → Request → script unit) (dir' : Dir)
    (mode' : FileServerMode) :
  HandleFunc rng pattern h fs (ServeStaticAt FileServer dir mode r)
  = (ServeStaticAt FileServer dir mode (fst (HandleFunc rng pattern h fs r)),
     snd (HandleFunc rng pattern h fs r)) ∧
  findEndpoint rng (ServeStaticAt FileServer dir mode r) req
  = findEndpoint rng r req ∧
  ServeStaticAt FileServer dir mode (ServeStaticAt FileServer' dir' mode' r)
  = ServeStaticAt FileServer dir mode r.
Proof. split_and!; [apply registerHandler_static | done | done]. Qed.

End StaticAndRoutes.
